(** * CycloneSafeRoute: storm-risk scoring, nearest-camp scan and routing

  A shallow embedding of the decision logic of the dashboard
  ([app.py], [utils/storm_stress.py], [utils/routing.py],
  [utils/open_meteo.py]) and the properties its specification states,
  followed by the runs of the script of [app.py], the statistics of
  [utils/storm_stress.py], [utils/geocode.py], and the two steps of the
  historical pipeline ([data/extract_ibtracs.py], [data/extract_era5.py])
  with further properties of the code.

  Numbers.  Python's [float] (and the [int]s that JSON decoding mixes with
  them) are modelled by the real numbers [R]: arithmetic is exact, there
  is no rounding, no NaN and no overflow.  [float('inf')], which the
  nearest-camp scan starts from, is the extra point of [Py.xreal].

  Exceptions.  A Python call either returns or raises; this is the type
  [Py.outcome].  The HTTP layer is a state [Py.net] that answers the
  requests made to it and records them.

  Outside world.  The geocoding service and NumPy's random generator are
  states of the same kind: the first answers the queries made to it, the
  second gives the floats that are drawn from it.  Of pandas, the reading
  of numbers and dates in texts and the sort of a frame are parameters of
  the model; a sort is only assumed to return the rows it was given. *)

From Stdlib Require Import Reals Lra Lia List String Bool Ascii.
From Stdlib Require Import Sorting.Sorted Sorting.Permutation.
From Stdlib Require Import Machin.
From Stdlib Require OrderedTypeEx.
Import ListNotations.
Set Warnings "-register-all".

Local Open Scope string_scope.
Local Open Scope list_scope.
Local Open Scope R_scope.

(* ================================================================= *)
(** ** Python values, exceptions and the HTTP layer *)

Module Py.

(** The exceptions that the modelled code can meet.  The first three are
    the subclasses of [requests.RequestException] raised by
    [requests.get] and [raise_for_status]. *)
Inductive exn : Type :=
| ConnectionError
| Timeout
| HTTPError
| AttributeError
| KeyError
| IndexError
| TypeError
| ValueError.

Definition is_RequestException (e : exn) : bool :=
  match e with
  | ConnectionError | Timeout | HTTPError => true
  | _ => false
  end.

(** Every one of them is an [Exception]. *)
Definition is_Exception (e : exn) : bool := true.

Inductive outcome (A : Type) : Type :=
| Ret (a : A)
| Raise (e : exn).
Arguments Ret {A} a.
Arguments Raise {A} e.

Definition bind {A B : Type} (m : outcome A) (k : A -> outcome B) : outcome B :=
  match m with
  | Ret a => k a
  | Raise e => Raise e
  end.

(** [try: body except <class>: handler] *)
Definition try_except {A : Type} (body : outcome A) (catches : exn -> bool)
           (handler : exn -> outcome A) : outcome A :=
  match body with
  | Ret a => Ret a
  | Raise e => if catches e then handler e else Raise e
  end.

(** What [json.loads] produces: [None], [bool], numbers, [str], [list]
    and [dict] with string keys (kept as an association list, the first
    binding of a key being the one the dict holds). *)
Inductive json : Type :=
| JNull
| JBool (b : bool)
| JNum (r : R)
| JStr (s : string)
| JArr (items : list json)
| JObj (fields : list (string * json)).

Fixpoint assoc (k : string) (fields : list (string * json)) : option json :=
  match fields with
  | [] => None
  | (k', v) :: rest => if String.eqb k k' then Some v else assoc k rest
  end.

(** [bool(v)] *)
Definition truthy (v : json) : bool :=
  match v with
  | JNull => false
  | JBool b => b
  | JNum r => if Req_dec_T r 0 then false else true
  | JStr s => negb (String.eqb s "")
  | JArr items => match items with [] => false | _ => true end
  | JObj fields => match fields with [] => false | _ => true end
  end.

(** [d.get(k, default)]; only a dict has the method. *)
Definition get (d : json) (k : string) (default : json) : outcome json :=
  match d with
  | JObj fields =>
      match assoc k fields with
      | Some v => Ret v
      | None => Ret default
      end
  | _ => Raise AttributeError
  end.

(** [d[k]] for a string key [k]. *)
Definition getitem (d : json) (k : string) : outcome json :=
  match d with
  | JObj fields =>
      match assoc k fields with
      | Some v => Ret v
      | None => Raise KeyError
      end
  | _ => Raise TypeError
  end.

(** [v[0]] *)
Definition getitem0 (v : json) : outcome json :=
  match v with
  | JArr [] => Raise IndexError
  | JArr (x :: _) => Ret x
  | JStr EmptyString => Raise IndexError
  | JStr (String c _) => Ret (JStr (String c EmptyString))
  | JObj _ => Raise KeyError
  | _ => Raise TypeError
  end.

(** [v == s] for a string literal [s] *)
Definition eq_str (v : json) (s : string) : bool :=
  match v with
  | JStr s' => String.eqb s' s
  | _ => false
  end.

(** The operand of an arithmetic operator: a number, [bool] counting as
    the integers 0 and 1; anything else is a [TypeError]. *)
Definition number (v : json) : outcome R :=
  match v with
  | JNum r => Ret r
  | JBool true => Ret 1
  | JBool false => Ret 0
  | _ => Raise TypeError
  end.

(** Floats extended with [float('inf')]. *)
Inductive xreal : Type :=
| Fin (r : R)
| Inf.

(** [d < m] for a finite [d] *)
Definition lt_x (d : R) (m : xreal) : bool :=
  match m with
  | Inf => true
  | Fin r => if Rlt_dec d r then true else false
  end.

(** [list.sort(key=...)]: stable, ascending. An element is inserted in
    front of the first element whose key is not smaller, so that it stays
    in front of the equal keys that followed it. *)
Section Sort.
Context {A : Type} (key : A -> R).

Fixpoint insert (x : A) (l : list A) : list A :=
  match l with
  | [] => [x]
  | y :: l' => if Rle_dec (key x) (key y) then x :: y :: l' else y :: insert x l'
  end.

Fixpoint sort (l : list A) : list A :=
  match l with
  | [] => []
  | x :: l' => insert x (sort l')
  end.
End Sort.

(** The HTTP layer: a response carries its status and its body as
    [response.json()] decodes it (a body that is not JSON is outside the
    model). *)
Record response : Type := mkResponse {
  status_code : nat;
  body : json
}.

(** [response.raise_for_status()] *)
Definition raise_for_status (r : response) : outcome unit :=
  if (400 <=? status_code r)%nat && (status_code r <? 600)%nat
  then Raise HTTPError else Ret tt.

Section Net.
(** [Req] is what identifies a request (its URL and parameters). *)
Context {Req : Type}.

(** The network answers the [n]-th request made to it; [calls] are the
    requests made so far, oldest first. *)
Record net : Type := mkNet {
  answer : nat -> Req -> outcome response;
  calls : list Req
}.

(** [requests.get(url, ...)] *)
Definition requests_get (rq : Req) (w : net) : outcome response * net :=
  (answer w (List.length (calls w)) rq,
   {| answer := answer w; calls := calls w ++ [rq] |}).

(** A computation that talks to the network: it returns or raises, and
    leaves the network in a new state either way. *)
Definition io (A : Type) : Type := net -> outcome A * net.

Definition io_ret {A : Type} (a : A) : io A := fun w => (Ret a, w).

Definition io_bind {A B : Type} (m : io A) (k : A -> io B) : io B :=
  fun w =>
    match m w with
    | (Ret a, w') => k a w'
    | (Raise e, w') => (Raise e, w')
    end.

(** A step that does not touch the network. *)
Definition io_lift {A : Type} (m : outcome A) : io A := fun w => (m, w).

(** [try: body except <class>: handler], around a computation that uses
    the network. *)
Definition io_try_except {A : Type} (body : io A) (catches : exn -> bool)
           (handler : exn -> io A) : io A :=
  fun w =>
    match body w with
    | (Ret a, w') => (Ret a, w')
    | (Raise e, w') => if catches e then handler e w' else (Raise e, w')
    end.
End Net.
Arguments net Req : clear implicits.
Arguments io Req A : clear implicits.

End Py.

Import Py.
Notation "x <- m ;; k" := (Py.bind m (fun x => k))
  (at level 61, m at next level, right associativity).
Notation "x <~ m ;; k" := (Py.io_bind m (fun x => k))
  (at level 61, m at next level, right associativity).

(* ================================================================= *)
(** ** utils/storm_stress.py *)

Module StormStress.

(** The risk levels, and the strings that stand for them in the code. *)
Inductive level : Type := HIGH | MODERATE | LOW.

Definition level_name (l : level) : string :=
  match l with
  | HIGH => "HIGH"
  | MODERATE => "MODERATE"
  | LOW => "LOW"
  end.

(** [classify_risk(avg_stress)]: [(risk_level, color, description)] *)
Definition classify_risk (avg_stress : R) : level * string * string :=
  if Rlt_dec 2500 avg_stress then
    (HIGH, "red", "⚠️ Severe cyclone risk - Immediate evacuation recommended")
  else if Rlt_dec 1500 avg_stress then
    (MODERATE, "orange", "⚡ Moderate cyclone risk - Stay alert and prepare")
  else
    (LOW, "green", "✅ Low cyclone risk - Normal precautions advised").

(** The first component, which [app.py] unpacks as [risk_level]. *)
Definition risk_level (avg_stress : R) : level := fst (fst (classify_risk avg_stress)).

(** A pandas [Series] of floats, and a [DataFrame] as its columns by name,
    in column order.  The columns of one frame have the same length and
    the same index, so that arithmetic between them is position by
    position. *)
Definition Series : Type := list R.
Definition DataFrame : Type := list (string * Series).

(** [df[name]] *)
Fixpoint column (df : DataFrame) (name : string) : outcome Series :=
  match df with
  | [] => Raise KeyError
  | (n, s) :: rest => if String.eqb name n then Ret s else column rest name
  end.

(** [df[name] = s]: an existing column is replaced where it stands, a new
    one is added last. *)
Fixpoint set_column (df : DataFrame) (name : string) (s : Series) : DataFrame :=
  match df with
  | [] => [(name, s)]
  | (n, s0) :: rest =>
      if String.eqb name n then (n, s) :: rest
      else (n, s0) :: set_column rest name s
  end.

(** [s ** n], [s * c], [np.sqrt(s)] and [a + b] *)
Definition s_pow (s : Series) (n : nat) : Series := map (fun x => x ^ n) s.
Definition s_mul (s : Series) (c : R) : Series := map (fun x => x * c) s.
Definition s_sqrt (s : Series) : Series := map sqrt s.
Fixpoint s_add (a b : Series) : Series :=
  match a, b with
  | x :: a', y :: b' => (x + y) :: s_add a' b'
  | _, _ => []
  end.

(** [compute_storm_stress(df)] *)
Definition compute_storm_stress (df : DataFrame) : outcome DataFrame :=
  u <- column df "10m_u_component_of_wind" ;;
  v <- column df "10m_v_component_of_wind" ;;
  let df := set_column df "wind_speed" (s_sqrt (s_add (s_pow u 2) (s_pow v 2))) in
  wind_speed <- column df "wind_speed" ;;
  let df := set_column df "gust_proxy" (s_mul wind_speed 1.3) in
  gust_proxy <- column df "gust_proxy" ;;
  total_precipitation <- column df "total_precipitation" ;;
  Ret (set_column df "storm_stress"
         (s_add (s_pow gust_proxy 2) (s_mul total_precipitation 10))).

End StormStress.

(* ================================================================= *)
(** ** utils/routing.py *)

Module Routing.

(** [(latitude, longitude)] *)
Definition coord : Type := (R * R)%type.

(** The request is determined by the coordinate part of its URL,
    [lon,lat;lon,lat]. *)
Definition osrm_url : Type := ((R * R) * (R * R))%type.

Definition route_url (src dst : coord) : osrm_url :=
  ((snd src, fst src), (snd dst, fst dst)).

(** [get_fastest_route(src, dst)]; Python's [None] is [JNull].  The
    message printed by the handler is left out. *)
Definition get_fastest_route (src dst : coord) : io osrm_url json :=
  let url := route_url src dst in
  io_try_except
    (response <~ requests_get url ;;
     io_lift (
       _ <- raise_for_status response ;;
       let data := body response in
       code <- get data "code" JNull ;;
       if eq_str code "Ok" then
         routes <- get data "routes" JNull ;;
         if truthy routes then
           routes <- getitem data "routes" ;;
           getitem0 routes
         else Ret JNull
       else Ret JNull))
    is_RequestException
    (fun e => io_ret JNull).

(** A destination: a dictionary with ['latitude'], ['longitude'] and other
    information, here the columns of the camp table. *)
Record destination : Type := mkDestination {
  camp_name : string;
  latitude : R;
  longitude : R;
  capacity : nat
}.

(** The dictionaries that [get_multiple_routes] builds. *)
Record ranked : Type := mkRanked {
  dest : destination;
  distance_km : R;
  duration_min : R;
  geometry : json
}.

(** [route[k] / c] *)
Definition field_div (route : json) (k : string) (c : R) : outcome R :=
  v <- getitem route k ;;
  x <- number v ;;
  Ret (x / c).

Definition make_ranked (d : destination) (route : json) : outcome ranked :=
  km <- field_div route "distance" 1000 ;;
  mn <- field_div route "duration" 60 ;;
  g <- getitem route "geometry" ;;
  Ret {| dest := d; distance_km := km; duration_min := mn; geometry := g |}.

(** The loop of [get_multiple_routes], [routes] being the list built so
    far. *)
Fixpoint routes_loop (src : coord) (destinations : list destination)
         (routes : list ranked) : io osrm_url (list ranked) :=
  match destinations with
  | [] => io_ret routes
  | d :: rest =>
      route <~ get_fastest_route src (latitude d, longitude d) ;;
      if truthy route then
        r <~ io_lift (make_ranked d route) ;;
        routes_loop src rest (routes ++ [r])
      else routes_loop src rest routes
  end.

(** [get_multiple_routes(src, destinations)] *)
Definition get_multiple_routes (src : coord) (destinations : list destination)
  : io osrm_url (list ranked) :=
  routes <~ routes_loop src destinations [] ;;
  io_ret (sort duration_min routes).

(** [math.radians], [math.sqrt] and [math.asin]; the last two raise
    [ValueError] outside their domain. *)
Definition radians (x : R) : R := x * (PI / 180).

Definition math_sqrt (x : R) : outcome R :=
  if Rlt_dec x 0 then Raise ValueError else Ret (sqrt x).

Definition math_asin (x : R) : outcome R :=
  if Rlt_dec x (-1) then Raise ValueError
  else if Rlt_dec 1 x then Raise ValueError
  else Ret (asin x).

(** [calculate_distance(coord1, coord2)] *)
Definition calculate_distance (coord1 coord2 : coord) : outcome R :=
  let lat1 := radians (fst coord1) in
  let lon1 := radians (snd coord1) in
  let lat2 := radians (fst coord2) in
  let lon2 := radians (snd coord2) in
  let dlat := lat2 - lat1 in
  let dlon := lon2 - lon1 in
  let a := sin (dlat / 2) ^ 2 + cos lat1 * cos lat2 * sin (dlon / 2) ^ 2 in
  root <- math_sqrt a ;;
  angle <- math_asin root ;;
  let c := 2 * angle in
  let r := 6371 in
  Ret (c * r).

End Routing.

(* ================================================================= *)
(** ** utils/open_meteo.py *)

Module OpenMeteo.

(** The request is determined by the [latitude] and [longitude]
    parameters; the others are constants. *)
Definition meteo_params : Type := (R * R)%type.

(** The dictionary that [fetch_realtime_weather] returns. *)
Record weather : Type := mkWeather {
  wind_speed : json;
  wind_gust : json;
  precipitation : json;
  weather_code : json;
  time : json
}.

(** [fetch_realtime_weather(lat, lon)].  The message printed by the
    handler is left out. *)
Definition fetch_realtime_weather (lat lon : R) : io meteo_params weather :=
  io_try_except
    (response <~ requests_get (lat, lon) ;;
     io_lift (
       _ <- raise_for_status response ;;
       let data := body response in
       current <- get data "current" (JObj []) ;;
       ws <- get current "wind_speed_10m" (JNum 0) ;;
       wg <- get current "wind_gusts_10m" (JNum 0) ;;
       pr <- get current "precipitation" (JNum 0) ;;
       wc <- get current "weather_code" (JNum 0) ;;
       tm <- get current "time" (JStr "") ;;
       Ret {| wind_speed := ws; wind_gust := wg; precipitation := pr;
              weather_code := wc; time := tm |}))
    is_Exception
    (fun e => io_ret {| wind_speed := JNum 0; wind_gust := JNum 0;
                        precipitation := JNum 0; weather_code := JNum 0;
                        time := JStr "N/A" |}).

End OpenMeteo.

(* ================================================================= *)
(** ** app.py: the analytics panel *)

Module App.
Import Routing OpenMeteo.

(** [(weather['wind_speed'] ** 2) + (weather['precipitation'] * 10)].
    Whichever operand is not a number, the expression ends in a
    [TypeError]. *)
Definition storm_stress (weather : OpenMeteo.weather) : outcome R :=
  w <- number (wind_speed weather) ;;
  p <- number (precipitation weather) ;;
  Ret (w ^ 2 + p * 10).

(** A row of the camp table. *)
Definition camp : Type := destination.

(** The loop over [camps.iterrows()], from the values that [nearest_camp]
    and [min_dist] hold when it is entered. *)
Fixpoint scan_camps (u : coord) (camps : list camp)
         (nearest_camp : option camp) (min_dist : xreal)
  : outcome (option camp * xreal) :=
  match camps with
  | [] => Ret (nearest_camp, min_dist)
  | c :: rest =>
      d <- calculate_distance u (latitude c, longitude c) ;;
      if lt_x d min_dist
      then scan_camps u rest (Some c) (Fin d)
      else scan_camps u rest nearest_camp min_dist
  end.

(** The scan with its initial values, [None] and [float('inf')]. *)
Definition nearest_camp_scan (u_lat u_lon : R) (camps : list camp)
  : outcome (option camp * xreal) :=
  scan_camps (u_lat, u_lon) camps None Inf.

(** What the routing part of the panel shows: the nearest camp with its
    distance, or nothing when [nearest_camp is not None] fails. *)
Inductive panel : Type :=
| NearestSanctuary (c : camp) (min_dist : xreal)
| NoPanel.

Definition routing_panel (u_lat u_lon : R) (camps : list camp) : outcome panel :=
  r <- nearest_camp_scan u_lat u_lon camps ;;
  match fst r with
  | Some c => Ret (NearestSanctuary c (snd r))
  | None => Ret NoPanel
  end.

End App.

(* ================================================================= *)
(** ** The terms of the specification *)

Module Spec.
Import Routing App.

(** The threshold table: for each level, its row, with the colour and
    the message that the dashboard shows for it. *)
Definition risk_row (l : StormStress.level)
  : StormStress.level * string * string :=
  match l with
  | StormStress.HIGH =>
      (StormStress.HIGH, "red",
       "⚠️ Severe cyclone risk - Immediate evacuation recommended")
  | StormStress.MODERATE =>
      (StormStress.MODERATE, "orange",
       "⚡ Moderate cyclone risk - Stay alert and prepare")
  | StormStress.LOW =>
      (StormStress.LOW, "green",
       "✅ Low cyclone risk - Normal precautions advised")
  end.

(** The haversine of an angle, and the haversine of the central angle
    between two coordinates, in degrees. *)
Definition hav (theta : R) : R := (1 - cos theta) / 2.

Definition haversine_a (coord1 coord2 : coord) : R :=
  hav (radians (fst coord2) - radians (fst coord1))
  + cos (radians (fst coord1)) * cos (radians (fst coord2))
    * hav (radians (snd coord2) - radians (snd coord1)).

(** The Haversine distance in kilometres on a sphere of radius 6371 km. *)
Definition great_circle_km (coord1 coord2 : coord) : R :=
  6371 * (2 * asin (sqrt (haversine_a coord1 coord2))).

(** The distance from the user to a camp. *)
Definition camp_km (u : coord) (c : camp) : R :=
  great_circle_km u (latitude c, longitude c).

(** [c] stands at position [i] of [camps], no camp is nearer, and every
    camp before it is strictly farther. *)
Definition first_nearest (u : coord) (camps : list camp) (i : nat) (c : camp) : Prop :=
  nth_error camps i = Some c /\
  (forall c', In c' camps -> camp_km u c <= camp_km u c') /\
  (forall j c', (j < i)%nat -> nth_error camps j = Some c' ->
                camp_km u c < camp_km u c').

(** The storm-stress score of a reading: wind speed squared plus ten
    times the precipitation. *)
Definition stormStress (windSpeedKmh precipitationMm : R) : R :=
  windSpeedKmh * windSpeedKmh + precipitationMm * 10.

(** The gust value of the historical variant: 1.3 times the speed of the
    wind vector [(u, v)]. *)
Definition gust (u v : R) : R := 1.3 * sqrt (u * u + v * v).

(** The order of the risk levels, LOW < MODERATE < HIGH. *)
Definition level_rank (l : StormStress.level) : nat :=
  match l with
  | StormStress.LOW => 0
  | StormStress.MODERATE => 1
  | StormStress.HIGH => 2
  end.

(** A weather dictionary that holds the reading [(w, p)]. *)
Definition holds_reading (weather : OpenMeteo.weather) (w p : R) : Prop :=
  OpenMeteo.wind_speed weather = JNum w /\
  OpenMeteo.precipitation weather = JNum p.

(** The dictionary of a normalized reading, the other entries at their
    defaults. *)
Definition reading (w p : R) : OpenMeteo.weather :=
  {| OpenMeteo.wind_speed := JNum w;
     OpenMeteo.wind_gust := JNum 0;
     OpenMeteo.precipitation := JNum p;
     OpenMeteo.weather_code := JNum 0;
     OpenMeteo.time := JStr "" |}.

(** The three columns that [compute_storm_stress] adds, from the columns
    [us], [vs] and [ps] of the wind components and the precipitation. *)
Definition wind_speed_of (us vs : StormStress.Series) : StormStress.Series :=
  StormStress.s_sqrt
    (StormStress.s_add (StormStress.s_pow us 2) (StormStress.s_pow vs 2)).
Definition gust_proxy_of (us vs : StormStress.Series) : StormStress.Series :=
  StormStress.s_mul (wind_speed_of us vs) 1.3.
Definition storm_stress_of (us vs ps : StormStress.Series) : StormStress.Series :=
  StormStress.s_add (StormStress.s_pow (gust_proxy_of us vs) 2)
                    (StormStress.s_mul ps 10).

(** A route as the routing provider documents it: an object with a
    numeric [distance], a numeric [duration] and a [geometry]. *)
Definition route_ok (route : json) : Prop :=
  exists fields d t g,
    route = JObj fields /\
    assoc "distance" fields = Some (JNum d) /\
    assoc "duration" fields = Some (JNum t) /\
    assoc "geometry" fields = Some g.

(** A reply of the routing provider that follows its interface:
    [requests.get] raises nothing but a [RequestException]; a body that
    comes with a success status is an object, and when its [code] is
    ["Ok"] its [routes], if present, is an array of routes. *)
Definition reply_ok (reply : outcome response) : Prop :=
  match reply with
  | Raise e => is_RequestException e = true
  | Ret resp =>
      raise_for_status resp = Ret tt ->
      exists fields,
        body resp = JObj fields /\
        (assoc "code" fields = Some (JStr "Ok") ->
         forall routes, assoc "routes" fields = Some routes ->
           exists items, routes = JArr items /\ Forall route_ok items)
  end.

(** The reply to the request that [get_fastest_route] is about to make. *)
Definition next_reply (src dst : coord) (w : net osrm_url) : outcome response :=
  answer w (List.length (calls w)) (route_url src dst).

(** One call of [get_fastest_route] for each destination, in order. *)
Fixpoint fetch_all (src : coord) (destinations : list destination)
  : io osrm_url (list json) :=
  match destinations with
  | [] => io_ret []
  | d :: rest =>
      route <~ get_fastest_route src (latitude d, longitude d) ;;
      routes <~ fetch_all src rest ;;
      io_ret (route :: routes)
  end.

(** The numeric entry [k] of a route. *)
Definition route_number (route : json) (k : string) : R :=
  match route with
  | JObj fields =>
      match assoc k fields with
      | Some (JNum x) => x
      | _ => 0
      end
  | _ => 0
  end.

(** The ranked record of a destination and its route: kilometres are
    metres over 1000, minutes are seconds over 60. *)
Definition ranked_of (d : destination) (route : json) : ranked :=
  {| dest := d;
     distance_km := route_number route "distance" / 1000;
     duration_min := route_number route "duration" / 60;
     geometry := match route with
                 | JObj fields =>
                     match assoc "geometry" fields with
                     | Some g => g
                     | None => JNull
                     end
                 | _ => JNull
                 end |}.

(** The ranked records of the destinations whose route is available,
    in the order of the destinations. *)
Fixpoint available (fetched : list (destination * json)) : list ranked :=
  match fetched with
  | [] => []
  | (d, JNull) :: rest => available rest
  | (d, route) :: rest => ranked_of d route :: available rest
  end.

(** The key of [x] is [k]. *)
Definition has_key {A : Type} (key : A -> R) (k : R) (x : A) : bool :=
  if Req_dec_T (key x) k then true else false.

(** Ascending order of the keys. *)
Definition key_le {A : Type} (key : A -> R) (a b : A) : Prop := key a <= key b.

(** The reply to the request that [fetch_realtime_weather] is about to
    make. *)
Definition next_weather_reply (lat lon : R) (w : net OpenMeteo.meteo_params)
  : outcome response :=
  answer w (List.length (calls w)) (lat, lon).

(** The entry [k] of the [current] object, or [default] when it is
    absent. *)
Definition field_or (current : list (string * json)) (k : string) (default : json)
  : json :=
  match assoc k current with
  | Some v => v
  | None => default
  end.

(** The record that every value of zero and the time [t] make. *)
Definition zero_weather (t : string) : OpenMeteo.weather :=
  {| OpenMeteo.wind_speed := JNum 0;
     OpenMeteo.wind_gust := JNum 0;
     OpenMeteo.precipitation := JNum 0;
     OpenMeteo.weather_code := JNum 0;
     OpenMeteo.time := JStr t |}.

End Spec.

(* ================================================================= *)
(** ** Sample data *)

Module Sample.
Import Routing OpenMeteo App.

(** Four camps. *)
Definition camp_a : camp :=
  {| camp_name := "Camp A"; latitude := 20.27; longitude := 85.84; capacity := 500 |}.
Definition camp_b : camp :=
  {| camp_name := "Camp B"; latitude := 19.81; longitude := 85.83; capacity := 300 |}.
Definition camp_c : camp :=
  {| camp_name := "Camp C"; latitude := 20.46; longitude := 85.88; capacity := 250 |}.
Definition camp_d : camp :=
  {| camp_name := "Camp D"; latitude := 20.95; longitude := 85.10; capacity := 400 |}.

(** Three camps on the equator, two and one and one degree east of the
    point [(0, 0)]. *)
Definition camp_east2 : camp :=
  {| camp_name := "East 2"; latitude := 0; longitude := 2; capacity := 100 |}.
Definition camp_east1 : camp :=
  {| camp_name := "East 1"; latitude := 0; longitude := 1; capacity := 100 |}.
Definition camp_east1' : camp :=
  {| camp_name := "East 1 bis"; latitude := 0; longitude := 1; capacity := 50 |}.

(** A route of 12 km and [secs] seconds, and the reply that carries it. *)
Definition a_route (secs : R) : json :=
  JObj [("distance", JNum 12000); ("duration", JNum secs);
        ("geometry", JObj [("type", JStr "LineString")])].

Definition ok_reply (secs : R) : outcome response :=
  Ret {| status_code := 200;
         body := JObj [("code", JStr "Ok"); ("routes", JArr [a_route secs])] |}.

(** A reply with an error status, and one whose code is not ["Ok"]. *)
Definition error_reply : outcome response :=
  Ret {| status_code := 503; body := JNull |}.

Definition no_route_reply : outcome response :=
  Ret {| status_code := 200;
         body := JObj [("code", JStr "NoRoute"); ("routes", JArr [])] |}.

(** A routing provider that gives one reply to every request. *)
Definition net_always (reply : outcome response) : net osrm_url :=
  {| answer := fun _ _ => reply; calls := [] |}.

(** A routing provider whose second reply is a timeout, and whose first
    and fourth replies have the same duration. *)
Definition net_four : net osrm_url :=
  {| answer := fun n _ =>
                 match n with
                 | 0%nat => ok_reply 1800
                 | 1%nat => Raise Timeout
                 | 2%nat => ok_reply 900
                 | _ => ok_reply 1800
                 end;
     calls := [] |}.

(** The weather provider unreachable, and one whose body has the wind
    speed only. *)
Definition meteo_down : net meteo_params :=
  {| answer := fun _ _ => Raise ConnectionError; calls := [] |}.

Definition meteo_wind_only : net meteo_params :=
  {| answer := fun _ _ =>
       Ret {| status_code := 200;
              body := JObj [("current", JObj [("wind_speed_10m", JNum 42)])] |};
     calls := [] |}.

(** A frame of two rows of reanalysis data. *)
Definition era5_two_rows : StormStress.DataFrame :=
  [("10m_u_component_of_wind", [3; 0]);
   ("10m_v_component_of_wind", [4; 0]);
   ("total_precipitation", [2; 1])].

End Sample.

(* ================================================================= *)
(** ** app.py: the risk card *)

Module Panel.
Import Routing OpenMeteo App StormStress.

(** The weather is fetched for the user's position, the score is
    computed from it and classified: what the risk card shows is the
    score and the row of its level. *)
Definition risk_card (u_lat u_lon : R)
  : io meteo_params (R * (level * string * string)) :=
  weather <~ fetch_realtime_weather u_lat u_lon ;;
  storm_stress <~ io_lift (storm_stress weather) ;;
  io_ret (storm_stress, classify_risk storm_stress).

End Panel.

(* ================================================================= *)
(** ** utils/storm_stress.py: the statistics *)

Module Statistics.
Import StormStress.

(** The reductions of a pandas [Series] that [get_stress_statistics]
    uses.  A result that pandas gives as NaN is [None]. *)
Definition s_sum (s : Series) : R := fold_right Rplus 0 s.

(** [s.mean()] *)
Definition s_mean (s : Series) : option R :=
  match s with
  | [] => None
  | _ => Some (s_sum s / INR (List.length s))
  end.

(** [s.max()] and [s.min()] *)
Definition s_max (s : Series) : option R :=
  match s with
  | [] => None
  | x :: rest => Some (fold_left Rmax rest x)
  end.

Definition s_min (s : Series) : option R :=
  match s with
  | [] => None
  | x :: rest => Some (fold_left Rmin rest x)
  end.

(** [s.std()]: the sample standard deviation, with [n - 1] degrees of
    freedom; NaN for fewer than two values. *)
Definition s_std (s : Series) : option R :=
  match s with
  | [] | [_] => None
  | _ =>
      let m := s_sum s / INR (List.length s) in
      Some (sqrt (s_sum (map (fun x => (x - m) ^ 2) s)
                  / (INR (List.length s) - 1)))
  end.

(** The values in ascending order. *)
Definition ascending (s : Series) : Series := sort (fun x => x) s.

(** [s.quantile(q)], by linear interpolation between the two values
    next to the position [(n - 1) * q] of the ascending order. *)
Definition s_quantile (s : Series) (q : R) : option R :=
  match s with
  | [] => None
  | _ =>
      let n := List.length s in
      let pos := (INR n - 1) * q in
      let lower := Z.to_nat (Zfloor pos) in
      let upper := Nat.min (lower + 1) (n - 1) in
      let fraction := pos - IZR (Zfloor pos) in
      let a := nth lower (ascending s) 0 in
      let b := nth upper (ascending s) 0 in
      Some (a + (b - a) * fraction)
  end.

(** [s.median()]: the middle value, or the mean of the two middle
    values. *)
Definition s_median (s : Series) : option R :=
  match s with
  | [] => None
  | _ =>
      let n := List.length s in
      if Nat.even n
      then Some ((nth (n / 2 - 1) (ascending s) 0 + nth (n / 2) (ascending s) 0) / 2)
      else Some (nth (n / 2) (ascending s) 0)
  end.

(** The dictionary that [get_stress_statistics] returns. *)
Record statistics : Type := mkStatistics {
  mean : option R;
  max : option R;
  min : option R;
  std : option R;
  median : option R;
  percentile_90 : option R;
  percentile_95 : option R
}.

(** [get_stress_statistics(df)] *)
Definition get_stress_statistics (df : DataFrame) : outcome statistics :=
  c_mean <- column df "storm_stress" ;;
  c_max <- column df "storm_stress" ;;
  c_min <- column df "storm_stress" ;;
  c_std <- column df "storm_stress" ;;
  c_median <- column df "storm_stress" ;;
  c_90 <- column df "storm_stress" ;;
  c_95 <- column df "storm_stress" ;;
  Ret {| mean := s_mean c_mean;
         max := s_max c_max;
         min := s_min c_min;
         std := s_std c_std;
         median := s_median c_median;
         percentile_90 := s_quantile c_90 0.90;
         percentile_95 := s_quantile c_95 0.95 |}.

End Statistics.

(* ================================================================= *)
(** ** app.py: one run of the script *)

Module Dashboard.
Import Routing OpenMeteo App StormStress Panel.

(** [st.session_state], which lasts from one run of the script to the
    next: each of the three keys may be missing.  [Some None] is a
    [user_location] of [None], and [Some JNull] a [current_route] of
    [None]. *)
Record session : Type := mkSession {
  user_location : option (option coord);
  location_source : option string;
  current_route : option json
}.

(** The session of a new visitor. *)
Definition fresh : session :=
  {| user_location := None; location_source := None; current_route := None |}.

(** What the widgets give in one run: the coordinates of
    [get_geolocation] when it has them, the point of
    [map_output["last_clicked"]] when there is one, and whether the
    button "Draw Evacuation Path" was pressed. *)
Record widgets : Type := mkWidgets {
  geolocation : option coord;
  last_clicked : option coord;
  draw_clicked : bool
}.

(** The sidebar: a GPS reading is taken while the source is missing or
    ["gps"], and the route of the session is deleted with it. *)
Definition sidebar (wd : widgets) (s : session) : session :=
  match geolocation wd with
  | Some (lat, lon) =>
      if match location_source s with
         | None => true
         | Some src => String.eqb src "gps"
         end
      then {| user_location := Some (Some (lat, lon));
              location_source := Some "gps";
              current_route := None |}
      else s
  | None => s
  end.

(** The three values of the session once the missing keys have been
    given their defaults; from there on the script finds every key. *)
Record state : Type := mkState {
  location : option coord;
  source : string;
  route : json
}.

Definition state_defaults (s : session) : state :=
  {| location := match user_location s with
                 | None => None
                 | Some v => v
                 end;
     source := match location_source s with
               | None => "init"
               | Some src => src
               end;
     route := match current_route s with
              | None => JNull
              | Some r => r
              end |}.

(** The session that holds these three values. *)
Definition store (st : state) : session :=
  {| user_location := Some (location st);
     location_source := Some (source st);
     current_route := Some (route st) |}.

(** [a != b] for two points *)
Definition coord_neq (a b : coord) : bool :=
  if Req_dec_T (fst a) (fst b)
  then if Req_dec_T (snd a) (snd b) then false else true
  else true.

(** The geometry that the map draws: that of the route of the session,
    when there is a location and a route. *)
Definition drawn_on_map (st : state) : outcome (option json) :=
  match location st with
  | Some _ =>
      if truthy (route st)
      then g <- getitem (route st) "geometry" ;; Ret (Some g)
      else Ret None
  | None => Ret None
  end.

(** The click on the map: a point that is not the location becomes the
    location, the source becomes ["manual"], the route is reset, and the
    script is run again. *)
Definition map_click (wd : widgets) (st : state) : option state :=
  match last_clicked wd with
  | Some p =>
      if match location st with
         | None => true
         | Some u => coord_neq u p
         end
      then Some {| location := Some p; source := "manual"; route := JNull |}
      else None
  | None => None
  end.

(** How a run ends: at the end of the script, at [st.rerun()], or at an
    exception. *)
Inductive status : Type :=
| Finished
| Rerun
| Crashed (e : exn).

(** The two providers. *)
Record world : Type := mkWorld {
  meteo : net meteo_params;
  osrm : net osrm_url
}.

(** What the page shows. *)
Record view : Type := mkView {
  drawn_route : option json;
  risk : option (R * (level * string * string));
  nearest : option (camp * xreal)
}.

(** The details panel. *)
Definition details (camps : list camp) (wd : widgets) (st : state) (w : world)
           (v : view) : status * state * world * view :=
  match location st with
  | None => (Finished, st, w, v)
  | Some (u_lat, u_lon) =>
      let (card, meteo') := risk_card u_lat u_lon (meteo w) in
      let w1 := {| meteo := meteo'; osrm := osrm w |} in
      match card with
      | Raise e => (Crashed e, st, w1, v)
      | Ret card =>
          let v1 := {| drawn_route := drawn_route v; risk := Some card;
                       nearest := None |} in
          match nearest_camp_scan u_lat u_lon camps with
          | Raise e => (Crashed e, st, w1, v1)
          | Ret (None, _) => (Finished, st, w1, v1)
          | Ret (Some nearest_camp, min_dist) =>
              let v2 := {| drawn_route := drawn_route v; risk := Some card;
                           nearest := Some (nearest_camp, min_dist) |} in
              if draw_clicked wd then
                let (found, osrm') :=
                  get_fastest_route (u_lat, u_lon)
                    (latitude nearest_camp, longitude nearest_camp) (osrm w) in
                let w2 := {| meteo := meteo'; osrm := osrm' |} in
                match found with
                | Raise e => (Crashed e, st, w2, v2)
                | Ret r =>
                    if truthy r then
                      match field_div r "duration" 60 with
                      | Raise e => (Crashed e, st, w2, v2)
                      | Ret t_mins =>
                          (Rerun,
                           {| location := location st; source := source st;
                              route := r |},
                           w2, v2)
                      end
                    else (Finished, st, w2, v2)
                end
              else (Finished, st, w1, v2)
          end
      end
  end.

(** One run of the script, from the session it finds to the session it
    leaves. *)
Definition run (camps : list camp) (wd : widgets) (s : session) (w : world)
  : status * session * world * view :=
  let st := state_defaults (sidebar wd s) in
  let nothing := {| drawn_route := None; risk := None; nearest := None |} in
  match drawn_on_map st with
  | Raise e => (Crashed e, store st, w, nothing)
  | Ret drawn =>
      let v := {| drawn_route := drawn; risk := None; nearest := None |} in
      match map_click wd st with
      | Some st' => (Rerun, store st', w, v)
      | None =>
          match details camps wd st w v with
          | (how, st', w', v') => (how, store st', w', v')
          end
      end
  end.

(** Runs one after the other, each with its widgets. *)
Fixpoint runs (camps : list camp) (wds : list widgets) (s : session) (w : world)
  : session * world :=
  match wds with
  | [] => (s, w)
  | wd :: rest =>
      match run camps wd s w with
      | (_, s', w', _) => runs camps rest s' w'
      end
  end.

End Dashboard.

(* ================================================================= *)
(** ** data/extract_era5.py *)

Module ExtractEra5.

(** NumPy's global generator.  [random_sample()] gives the next float of
    a sequence of floats of the interval [[0, 1)]; [drawn] counts the
    floats taken so far. *)
Record generator : Type := mkGenerator {
  sample : nat -> R;
  drawn : nat
}.

Definition rand (A : Type) : Type := generator -> A * generator.

Definition rand_ret {A : Type} (a : A) : rand A := fun g => (a, g).

Definition rand_bind {A B : Type} (m : rand A) (k : A -> rand B) : rand B :=
  fun g => let (a, g') := m g in k a g'.

(** [np.random.uniform(low, high)]: [low + (high - low) * random_sample()] *)
Definition uniform (low high : R) : rand R :=
  fun g => (low + (high - low) * sample g (drawn g),
            {| sample := sample g; drawn := S (drawn g) |}).

(** A row of [cyclone_events.csv], with the time stamp as
    [pd.to_datetime] holds it. *)
Module Event.
Record t : Type := mk {
  event_id : string;
  timestamp : Z;
  lat : R;
  lon : R;
  max_wind_speed : R;
  name : string
}.
End Event.

(** The dict that [fetch_era5_data] returns. *)
Module Weather.
Record t : Type := mk {
  max_wind_speed : R;
  max_gust_speed : R;
  total_rainfall : R
}.
End Weather.

(** A row of the frame that [extract_weather_for_all_events] returns. *)
Module Row.
Record t : Type := mk {
  event_id : string;
  name : string;
  timestamp : Z;
  max_wind_speed : R;
  max_gust_speed : R;
  total_rainfall : R
}.
End Row.

(** [fetch_era5_data(event)] *)
Definition fetch_era5_data (event : Event.t) : rand Weather.t :=
  let base_wind := Event.max_wind_speed event in
  rand_bind (uniform 0.85 0.95) (fun f_wind =>
  let max_wind_speed := base_wind * f_wind in
  rand_bind (uniform 1.2 1.5) (fun f_gust =>
  let max_gust_speed := max_wind_speed * f_gust in
  rand_bind (if Rlt_dec 150 base_wind then uniform 300 700
             else if Rlt_dec 100 base_wind then uniform 150 400
             else uniform 50 200) (fun total_rainfall =>
  rand_ret {| Weather.max_wind_speed := max_wind_speed;
              Weather.max_gust_speed := max_gust_speed;
              Weather.total_rainfall := total_rainfall |}))).

(** [extract_weather_for_all_events(events)]: the loop over the rows, and
    the frame of the rows it appended. *)
Fixpoint extract_weather_for_all_events (events : list Event.t)
  : rand (list Row.t) :=
  match events with
  | [] => rand_ret []
  | event :: rest =>
      rand_bind (fetch_era5_data event) (fun weather =>
      rand_bind (extract_weather_for_all_events rest) (fun weather_data =>
      rand_ret ({| Row.event_id := Event.event_id event;
                   Row.name := Event.name event;
                   Row.timestamp := Event.timestamp event;
                   Row.max_wind_speed := Weather.max_wind_speed weather;
                   Row.max_gust_speed := Weather.max_gust_speed weather;
                   Row.total_rainfall := Weather.total_rainfall weather |}
                :: weather_data)))
  end.

(** Every float of the generator is in [[0, 1)]. *)
Definition unit_samples (g : generator) : Prop :=
  forall n, 0 <= sample g n < 1.

End ExtractEra5.

(* ================================================================= *)
(** ** utils/geocode.py *)

Module Geocode.

(** Text.  A [str] is modelled by a [string] of ASCII characters;
    [str.lower] and [str.strip] are given for such text (for other
    characters Python follows the Unicode tables). *)
Definition is_upper (c : ascii) : bool :=
  (65 <=? nat_of_ascii c)%nat && (nat_of_ascii c <=? 90)%nat.

Definition lower_char (c : ascii) : ascii :=
  if is_upper c then ascii_of_nat (nat_of_ascii c + 32) else c.

(** [s.lower()] *)
Fixpoint lower (s : string) : string :=
  match s with
  | EmptyString => EmptyString
  | String c s' => String (lower_char c) (lower s')
  end.

(** [c.isspace()]: tab, line feed, vertical tab, form feed, carriage
    return, the four separators [0x1c]-[0x1f], and the space. *)
Definition is_space (c : ascii) : bool :=
  ((9 <=? nat_of_ascii c)%nat && (nat_of_ascii c <=? 13)%nat)
  || ((28 <=? nat_of_ascii c)%nat && (nat_of_ascii c <=? 32)%nat).

Fixpoint lstrip (s : string) : string :=
  match s with
  | EmptyString => EmptyString
  | String c s' => if is_space c then lstrip s' else s
  end.

Fixpoint rstrip (s : string) : string :=
  match s with
  | EmptyString => EmptyString
  | String c s' =>
      match rstrip s' with
      | EmptyString => if is_space c then EmptyString else String c EmptyString
      | t => String c t
      end
  end.

(** [s.strip()] *)
Definition strip (s : string) : string := rstrip (lstrip s).

(** What a call of the geocoder can raise: [GeocoderTimedOut], another
    [GeocoderServiceError] (of which [GeocoderTimedOut] is a subclass),
    or an exception that is an instance of neither. *)
Inductive error : Type :=
| GeocoderTimedOut
| GeocoderServiceError
| OtherException.

Definition is_GeocoderTimedOut (e : error) : bool :=
  match e with GeocoderTimedOut => true | _ => false end.

Definition is_GeocoderServiceError (e : error) : bool :=
  match e with GeocoderTimedOut | GeocoderServiceError => true | _ => false end.

Inductive result (A : Type) : Type :=
| Ok (a : A)
| Err (e : error).
Arguments Ok {A} a.
Arguments Err {A} e.

(** A [geopy] location, which is always true in a condition. *)
Record Location : Type := mkLocation {
  latitude : R;
  longitude : R;
  address : string;
  raw : json
}.

(** A query and whether it asks for [addressdetails]. *)
Definition query : Type := (string * bool)%type.

(** The geocoding service answers the [n]-th query made to it with a
    location, with [None], or with an exception; [queries] are the
    queries made so far, oldest first. *)
Record service : Type := mkService {
  reply : nat -> query -> result (option Location);
  queries : list query
}.

(** [geo.geocode(text, timeout=10, addressdetails=...)] *)
Definition geocode (text : string) (addressdetails : bool) (svc : service)
  : result (option Location) * service :=
  (reply svc (List.length (queries svc)) (text, addressdetails),
   {| reply := reply svc; queries := queries svc ++ [(text, addressdetails)] |}).

(** [f"{city}, {country}"] *)
Definition place (city country : string) : string :=
  (city ++ ", " ++ country)%string.

(** [get_coordinates(city, country)] *)
Definition get_coordinates (city country : string) (svc : service)
  : result (option R * option R) * service :=
  let (found, svc') := geocode (place city country) false svc in
  (match found with
   | Ok (Some location) => Ok (Some (latitude location), Some (longitude location))
   | Ok None => Ok (None, None)
   | Err e =>
       if is_GeocoderTimedOut e then Ok (None, None)
       else if is_GeocoderServiceError e then Ok (None, None)
       else Err e
   end, svc').

(** The dict that [get_city_info] returns. *)
Record city_info : Type := mkCityInfo {
  info_latitude : R;
  info_longitude : R;
  info_address : string;
  info_raw : json
}.

(** [get_city_info(city, country)] *)
Definition get_city_info (city country : string) (svc : service)
  : result (option city_info) * service :=
  let (found, svc') := geocode (place city country) true svc in
  (match found with
   | Ok (Some location) =>
       Ok (Some {| info_latitude := latitude location;
                   info_longitude := longitude location;
                   info_address := address location;
                   info_raw := raw location |})
   | Ok None => Ok None
   | Err e => Ok None
   end, svc').

Definition CYCLONE_CITIES : list (string * (R * R)) :=
  [("puri", (19.8135, 85.8312));
   ("bhubaneswar", (20.2961, 85.8245));
   ("cuttack", (20.4625, 85.8830));
   ("visakhapatnam", (17.6868, 83.2185));
   ("chennai", (13.0827, 80.2707));
   ("kolkata", (22.5726, 88.3639));
   ("mumbai", (19.0760, 72.8777));
   ("paradip", (20.3164, 86.6085));
   ("gopalpur", (19.2594, 84.9058));
   ("machilipatnam", (16.1875, 81.1389));
   ("kakinada", (16.9891, 82.2475));
   ("porbandar", (21.6417, 69.6293));
   ("veraval", (20.9073, 70.3626));
   ("digha", (21.6283, 87.5120))].

(** [d[k]] for [k in d] *)
Fixpoint lookup (k : string) (d : list (string * (R * R))) : option (R * R) :=
  match d with
  | [] => None
  | (k', v) :: rest => if String.eqb k k' then Some v else lookup k rest
  end.

(** [get_coordinates_fast(city, country)] *)
Definition get_coordinates_fast (city country : string) (svc : service)
  : result (option R * option R) * service :=
  let city_lower := strip (lower city) in
  match lookup city_lower CYCLONE_CITIES with
  | Some (lat, lon) => (Ok (Some lat, Some lon), svc)
  | None => get_coordinates city country svc
  end.

(** A text of ASCII characters only. *)
Fixpoint ascii_only (s : string) : bool :=
  match s with
  | EmptyString => true
  | String c s' => (nat_of_ascii c <? 128)%nat && ascii_only s'
  end.

(** A text of white space only. *)
Fixpoint blank (s : string) : bool :=
  match s with
  | EmptyString => true
  | String c s' => is_space c && blank s'
  end.

End Geocode.

(* ================================================================= *)
(** ** data/extract_ibtracs.py *)

Module ExtractIbtracs.
Import StormStress Statistics.


(** An entry of a column as [read_csv] left it: a float, a text, or NaN. *)
Inductive cell : Type :=
| Number (x : R)
| Text (s : string)
| Missing.

(** A row of the IBTrACS table; a text column holds [None] where the
    table has NaN. *)
Module Raw.
Record t : Type := mk {
  SID : option string;
  BASIN : option string;
  ISO_TIME : option string;
  LAT : cell;
  LON : cell;
  WMO_WIND : cell;
  NAME : option string
}.
End Raw.

(** The same row once [LAT], [LON] and [WMO_WIND] are numeric; NaN is
    [None]. *)
Module Track.
Record t : Type := mk {
  SID : option string;
  BASIN : option string;
  ISO_TIME : option string;
  LAT : option R;
  LON : option R;
  WMO_WIND : option R;
  NAME : option string
}.
End Track.

(** A row of the frame of events, with time stamps of type [T]: texts
    at first, dates after [pd.to_datetime]. *)
Record event (T : Type) : Type := mkEvent {
  event_id : string;
  timestamp : option T;
  lat : option R;
  lon : option R;
  max_wind_speed : option R;
  name : option string
}.
Arguments mkEvent {T}.
Arguments event_id {T}.
Arguments timestamp {T}.
Arguments lat {T}.
Arguments lon {T}.
Arguments max_wind_speed {T}.
Arguments name {T}.

Section Pandas.
(** The reading of a number in a text, the reading of a date in a text,
    which raises for a text that holds none, and the sort of a frame of
    events by their time stamps, which pandas does with an algorithm
    that is not stable. *)
Variable parse_float : string -> option R.
Variable to_datetime : string -> outcome Z.
Variable sort_values : list (event Z) -> list (event Z).


















End Pandas.





End ExtractIbtracs.

(* ================================================================= *)
(** ** Notions used in the properties *)

Module Notions.
Import StormStress Routing Dashboard.

(** Every column of the frame has [n] entries. *)
Definition rectangular (n : nat) (df : DataFrame) : Prop :=
  Forall (fun c => List.length (snd c) = n) df.

(** The interpolation at position [pos] of an ascending list of [n]
    values. *)
Definition interpolate (l : list R) (n : nat) (pos : R) : R :=
  let lower := Z.to_nat (Zfloor pos) in
  let upper := Nat.min (lower + 1) (n - 1) in
  nth lower l 0 + (nth upper l 0 - nth lower l 0) * (pos - IZR (Zfloor pos)).

(** The location that a session holds, if any. *)
Definition current_location (s : session) : option coord :=
  match user_location s with
  | Some (Some p) => Some p
  | _ => None
  end.

(** The state with which the map and the details are made. *)
Definition prepare (wd : widgets) (s : session) : state :=
  state_defaults (sidebar wd s).

(** The state that a click on [p] leaves. *)
Definition manual (p : coord) : state :=
  {| location := Some p; source := "manual"; route := JNull |}.


End Notions.

Import Notions.

(* ================================================================= *)
(** ** Properties *)

(* ----------------------------------------------------------------- *)
(** *** The Python layer *)

Section PythonLayer.

Lemma raise_for_status_cases (resp : response) :
  raise_for_status resp = Ret tt \/ raise_for_status resp = Raise HTTPError.
Proof.
  unfold raise_for_status.
  destruct ((400 <=? status_code resp)%nat && (status_code resp <? 600)%nat); auto.
Qed.

Lemma eq_str_true (v : json) (s : string) : eq_str v s = true -> v = JStr s.
Proof.
  destruct v; cbn; try discriminate.
  intro H. apply String.eqb_eq in H. now subst.
Qed.

End PythonLayer.

(* ----------------------------------------------------------------- *)
(** *** [list.sort]: a sorted, stable rearrangement *)

Section SortFacts.
Import Spec.
Context {A : Type} (key : A -> R).

Lemma insert_perm (x : A) (l : list A) : Permutation (insert key x l) (x :: l).
Proof.
  induction l as [| y l IH]; cbn.
  - apply Permutation_refl.
  - destruct (Rle_dec (key x) (key y)).
    + apply Permutation_refl.
    + rewrite IH. apply perm_swap.
Qed.

Lemma sort_perm (l : list A) : Permutation (sort key l) l.
Proof.
  induction l as [| x l IH]; cbn.
  - apply perm_nil.
  - rewrite insert_perm. now apply perm_skip.
Qed.

Lemma key_le_trans : Relations_1.Transitive (key_le key).
Proof. intros a b c. unfold key_le. lra. Qed.

Lemma insert_hd (x y : A) (l : list A) :
  key_le key y x -> HdRel (key_le key) y l -> HdRel (key_le key) y (insert key x l).
Proof.
  intros Hyx Hhd. destruct l as [| z l]; cbn.
  - now constructor.
  - destruct (Rle_dec (key x) (key z)); constructor; try assumption.
    now inversion Hhd.
Qed.

Lemma insert_sorted (x : A) (l : list A) :
  Sorted (key_le key) l -> Sorted (key_le key) (insert key x l).
Proof.
  induction 1 as [| y l Hs IH Hhd]; cbn.
  - repeat constructor.
  - destruct (Rle_dec (key x) (key y)) as [Hle | Hgt].
    + constructor; [now constructor | now constructor].
    + constructor; [exact IH |].
      apply insert_hd; [unfold key_le; lra | exact Hhd].
Qed.

Lemma sort_sorted (l : list A) : StronglySorted (key_le key) (sort key l).
Proof.
  apply Sorted_StronglySorted; [exact key_le_trans |].
  induction l as [| x l IH]; cbn.
  - constructor.
  - now apply insert_sorted.
Qed.

(** Inserting [x] leaves the elements of any one key in their order, [x]
    in front of those it shares its key with. *)
Lemma filter_insert (k : R) (x : A) (l : list A) :
  filter (has_key key k) (insert key x l)
  = if has_key key k x then x :: filter (has_key key k) l
    else filter (has_key key k) l.
Proof.
  induction l as [| y l IH]; cbn.
  - reflexivity.
  - destruct (Rle_dec (key x) (key y)) as [Hle | Hgt]; cbn.
    + reflexivity.
    + rewrite IH. unfold has_key.
      destruct (Req_dec_T (key x) k), (Req_dec_T (key y) k); try reflexivity.
      exfalso. lra.
Qed.

Lemma sort_stable (k : R) (l : list A) :
  filter (has_key key k) (sort key l) = filter (has_key key k) l.
Proof.
  induction l as [| x l IH]; cbn.
  - reflexivity.
  - rewrite filter_insert, IH. reflexivity.
Qed.

End SortFacts.

(* ----------------------------------------------------------------- *)
(** *** The risk classifier *)

Section ClassifyRisk.
Import StormStress Spec.

Lemma risk_level_HIGH (s : R) : risk_level s = HIGH <-> 2500 < s.
Proof.
  unfold risk_level, classify_risk.
  destruct (Rlt_dec 2500 s); [| destruct (Rlt_dec 1500 s)]; simpl;
    split; intros; try discriminate; try lra; reflexivity.
Qed.

Lemma risk_level_MODERATE (s : R) : risk_level s = MODERATE <-> 1500 < s <= 2500.
Proof.
  unfold risk_level, classify_risk.
  destruct (Rlt_dec 2500 s); [| destruct (Rlt_dec 1500 s)]; simpl;
    split; intros; try discriminate; try lra; reflexivity.
Qed.

Lemma risk_level_LOW (s : R) : risk_level s = LOW <-> s <= 1500.
Proof.
  unfold risk_level, classify_risk.
  destruct (Rlt_dec 2500 s); [| destruct (Rlt_dec 1500 s)]; simpl;
    split; intros; try discriminate; try lra; reflexivity.
Qed.

Lemma classify_risk_row (s : R) : classify_risk s = risk_row (risk_level s).
Proof.
  unfold risk_level, classify_risk.
  destruct (Rlt_dec 2500 s); [| destruct (Rlt_dec 1500 s)]; reflexivity.
Qed.

(** C1. [classify_risk] is a total function of the stress value whose
    result is the table row of its level, and the level is HIGH exactly
    when [s > 2500], MODERATE exactly when [1500 < s <= 2500] and LOW
    exactly when [s <= 1500]; so 2500 is MODERATE, 1500 is LOW, 2500.01
    is HIGH, and 0 and every negative value are LOW. *)
Theorem classify_risk_thresholds :
  (forall s : R,
      classify_risk s = risk_row (risk_level s) /\
      (risk_level s = HIGH <-> 2500 < s) /\
      (risk_level s = MODERATE <-> 1500 < s <= 2500) /\
      (risk_level s = LOW <-> s <= 1500)) /\
  risk_level 2500.01 = HIGH /\
  risk_level 2500 = MODERATE /\
  risk_level 1500 = LOW /\
  risk_level 0 = LOW /\
  (forall s : R, s < 0 -> risk_level s = LOW).
Proof.
  split.
  - intro s. split; [apply classify_risk_row|].
    split; [apply risk_level_HIGH|].
    split; [apply risk_level_MODERATE | apply risk_level_LOW].
  - repeat split.
    + apply risk_level_HIGH; lra.
    + apply risk_level_MODERATE; lra.
    + apply risk_level_LOW; lra.
    + apply risk_level_LOW; lra.
    + intros s Hs. apply risk_level_LOW; lra.
Qed.

Lemma classify_risk_thresholds_witness :
  risk_level (-40) = LOW /\ classify_risk 3000 = risk_row HIGH.
Proof.
  destruct classify_risk_thresholds as (Hall & _ & _ & _ & _ & Hneg).
  split.
  - apply Hneg. lra.
  - destruct (Hall 3000) as (Hrow & Hhigh & _).
    rewrite Hrow. f_equal. apply Hhigh. lra.
Defined.

End ClassifyRisk.

(* ----------------------------------------------------------------- *)
(** *** The great-circle distance *)

Section Haversine.
Import Routing Spec.

Lemma sin_half_sq (x : R) : sin (x / 2) ^ 2 = hav x.
Proof.
  unfold hav.
  replace (cos x) with (cos (2 * (x / 2))) by (f_equal; field).
  rewrite cos_2a_sin. field.
Qed.

Lemma hav_range (x : R) : 0 <= hav x <= 1.
Proof. unfold hav. pose proof (COS_bound x). lra. Qed.

Lemma unit_interval_mix (A B h : R) :
  0 <= A <= 1 -> 0 <= B <= 1 -> 0 <= h <= 1 -> 0 <= A + (B - A) * h <= 1.
Proof. intros. nra. Qed.

(** [a] is a mean, weighted by the haversine of the longitude difference,
    of [(1 - cos (lat2 - lat1)) / 2] and [(1 + cos (lat1 + lat2)) / 2]. *)
Lemma haversine_a_range (coord1 coord2 : coord) :
  0 <= haversine_a coord1 coord2 <= 1.
Proof.
  unfold haversine_a.
  set (p1 := radians (fst coord1)). set (p2 := radians (fst coord2)).
  set (l := radians (snd coord2) - radians (snd coord1)).
  pose proof (hav_range (p2 - p1)) as HA.
  pose proof (hav_range l) as Hh.
  pose proof (COS_bound (p1 + p2)) as [? ?].
  assert (HB : hav (p2 - p1) + cos p1 * cos p2 = (1 + cos (p1 + p2)) / 2).
  { unfold hav. rewrite cos_minus, cos_plus. field. }
  replace (hav (p2 - p1) + cos p1 * cos p2 * hav l)
    with (hav (p2 - p1) + ((hav (p2 - p1) + cos p1 * cos p2) - hav (p2 - p1)) * hav l)
    by ring.
  apply unit_interval_mix; lra.
Qed.

Lemma hav_neg (x : R) : hav (- x) = hav x.
Proof. unfold hav. now rewrite cos_neg. Qed.

Lemma haversine_a_sym (coord1 coord2 : coord) :
  haversine_a coord1 coord2 = haversine_a coord2 coord1.
Proof.
  unfold haversine_a.
  set (p1 := radians (fst coord1)). set (p2 := radians (fst coord2)).
  set (l1 := radians (snd coord1)). set (l2 := radians (snd coord2)).
  replace (p1 - p2) with (- (p2 - p1)) by ring.
  replace (l1 - l2) with (- (l2 - l1)) by ring.
  rewrite !hav_neg. ring.
Qed.

Lemma haversine_a_same (c : coord) : haversine_a c c = 0.
Proof.
  unfold haversine_a, hav. rewrite !Rminus_diag, cos_0. field.
Qed.

(** Neither [math.sqrt] nor [math.asin] leaves its domain, and the
    result is the Haversine distance. *)
Lemma calculate_distance_returns (coord1 coord2 : coord) :
  calculate_distance coord1 coord2 = Ret (great_circle_km coord1 coord2).
Proof.
  unfold calculate_distance. cbv zeta. rewrite !sin_half_sq.
  fold (haversine_a coord1 coord2).
  unfold great_circle_km, math_sqrt, math_asin.
  destruct (haversine_a_range coord1 coord2) as [H0 H1].
  destruct (Rlt_dec (haversine_a coord1 coord2) 0) as [Hneg | _]; [lra |].
  cbn [bind].
  pose proof (sqrt_pos (haversine_a coord1 coord2)) as Hs0.
  pose proof (sqrt_le_1_alt _ _ H1) as Hs1. rewrite sqrt_1 in Hs1.
  destruct (Rlt_dec (sqrt (haversine_a coord1 coord2)) (-1)); [lra |].
  destruct (Rlt_dec 1 (sqrt (haversine_a coord1 coord2))); [lra |].
  cbn [bind]. f_equal. ring.
Qed.

(** C8. [calculate_distance] takes two coordinates and nothing else and
    yields a number and nothing else; it gives the same result for
    [(a, b)] and [(b, a)], and exactly 0 for [(a, a)]. *)
Theorem calculate_distance_symmetric_zero :
  (forall a b : coord, calculate_distance a b = calculate_distance b a) /\
  (forall a : coord, calculate_distance a a = Ret 0).
Proof.
  split.
  - intros a b. rewrite !calculate_distance_returns.
    unfold great_circle_km. now rewrite (haversine_a_sym a b).
  - intro a. rewrite calculate_distance_returns.
    unfold great_circle_km. rewrite haversine_a_same, sqrt_0, asin_0.
    f_equal. ring.
Qed.

(** Along the equator the distance is the radius times the difference
    of the longitudes in radians; one degree is [6371 * PI / 180]
    kilometres, about 111.19. *)
Lemma great_circle_km_equator (lon : R) :
  0 <= lon <= 180 ->
  great_circle_km (0, 0) (0, lon) = 6371 * radians lon.
Proof.
  intros [H0 H180]. unfold great_circle_km, haversine_a. cbn [fst snd].
  assert (Hr0 : radians 0 = 0) by (unfold radians; ring).
  rewrite Hr0, !Rminus_0_r, cos_0.
  replace (hav 0) with 0 by (unfold hav; rewrite cos_0; field).
  replace (0 + 1 * 1 * hav (radians lon)) with (hav (radians lon)) by ring.
  rewrite <- sin_half_sq.
  pose proof PI_RGT_0 as Hpi.
  assert (Hhalf : 0 <= radians lon / 2 <= PI / 2) by (unfold radians; split; nra).
  rewrite sqrt_pow2 by (apply sin_ge_0; lra).
  rewrite asin_sin by lra.
  field.
Qed.

End Haversine.

(* ----------------------------------------------------------------- *)
(** *** The nearest-camp scan *)

Section NearestCamp.
Import Routing App Spec Sample.

Lemma lt_x_Fin (d m : R) : lt_x d (Fin m) = true <-> d < m.
Proof.
  unfold lt_x. destruct (Rlt_dec d m); split; intros; try discriminate; tauto.
Qed.

Lemma first_nearest_single (u : coord) (c : camp) : first_nearest u [c] 0 c.
Proof.
  repeat split.
  - intros c' [<- | []]. lra.
  - intros j c' Hj. lia.
Qed.

(** The camp held so far stays the answer when the next one is not
    nearer. *)
Lemma first_nearest_keep (u : coord) (pre : list camp) (i : nat) (c x : camp) :
  first_nearest u pre i c -> ~ camp_km u x < camp_km u c ->
  first_nearest u (pre ++ [x]) i c.
Proof.
  intros (Hi & Hmin & Hfirst) Hx.
  assert (Hlt : (i < List.length pre)%nat)
    by (apply nth_error_Some; rewrite Hi; discriminate).
  repeat split.
  - rewrite nth_error_app1; assumption.
  - intros c' Hin. apply in_app_or in Hin as [Hin | [<- | []]].
    + now apply Hmin.
    + lra.
  - intros j c' Hj Hnth. apply (Hfirst j c' Hj).
    rewrite nth_error_app1 in Hnth; [assumption | lia].
Qed.

(** A strictly nearer camp replaces it. *)
Lemma first_nearest_replace (u : coord) (pre : list camp) (i : nat) (c x : camp) :
  first_nearest u pre i c -> camp_km u x < camp_km u c ->
  first_nearest u (pre ++ [x]) (List.length pre) x.
Proof.
  intros (Hi & Hmin & Hfirst) Hx.
  repeat split.
  - rewrite nth_error_app2, Nat.sub_diag; [reflexivity | lia].
  - intros c' Hin. apply in_app_or in Hin as [Hin | [<- | []]].
    + specialize (Hmin c' Hin). lra.
    + lra.
  - intros j c' Hj Hnth.
    rewrite nth_error_app1 in Hnth by assumption.
    apply nth_error_In in Hnth. specialize (Hmin c' Hnth). lra.
Qed.

(** The loop, entered with the answer for the camps already seen. *)
Lemma scan_camps_first_nearest (u : coord) (camps pre : list camp) :
  forall (i : nat) (c : camp),
    first_nearest u pre i c ->
    exists i' c',
      scan_camps u camps (Some c) (Fin (camp_km u c))
      = Ret (Some c', Fin (camp_km u c')) /\
      first_nearest u (pre ++ camps) i' c'.
Proof.
  revert pre. induction camps as [| x rest IH]; intros pre i c Hc.
  - exists i, c. rewrite app_nil_r. split; [reflexivity | assumption].
  - cbn [scan_camps]. rewrite calculate_distance_returns. cbn [bind].
    fold (camp_km u x).
    replace (pre ++ x :: rest) with ((pre ++ [x]) ++ rest)
      by (rewrite <- app_assoc; reflexivity).
    destruct (lt_x (camp_km u x) (Fin (camp_km u c))) eqn:Hlt.
    + apply lt_x_Fin in Hlt.
      apply (IH (pre ++ [x]) (List.length pre) x).
      now apply first_nearest_replace with (i := i) (c := c).
    + assert (~ camp_km u x < camp_km u c) as Hge
          by (intro H; apply lt_x_Fin in H; congruence).
      apply (IH (pre ++ [x]) i c).
      now apply first_nearest_keep.
Qed.

Lemma scan_camps_nonempty (u_lat u_lon : R) (x : camp) (rest : list camp) :
  exists i c,
    nearest_camp_scan u_lat u_lon (x :: rest)
    = Ret (Some c, Fin (camp_km (u_lat, u_lon) c)) /\
    first_nearest (u_lat, u_lon) (x :: rest) i c.
Proof.
  unfold nearest_camp_scan. cbn [scan_camps].
  rewrite calculate_distance_returns. cbn [bind lt_x].
  apply (scan_camps_first_nearest (u_lat, u_lon) rest [x] 0%nat x).
  apply first_nearest_single.
Qed.

(** C4. For every user position and every non-empty list of camps the
    scan returns a camp of the list together with its Haversine distance;
    no camp of the list is nearer, and every camp that comes before the
    returned one is strictly farther, so that among the camps at the
    least distance the first is returned. *)
Theorem nearest_camp_scan_first_minimum (u_lat u_lon : R) (camps : list camp) :
  camps <> [] ->
  exists i c,
    nearest_camp_scan u_lat u_lon camps
    = Ret (Some c, Fin (camp_km (u_lat, u_lon) c)) /\
    calculate_distance (u_lat, u_lon) (latitude c, longitude c)
    = Ret (camp_km (u_lat, u_lon) c) /\
    first_nearest (u_lat, u_lon) camps i c.
Proof.
  intros Hne. destruct camps as [| x rest]; [congruence |].
  destruct (scan_camps_nonempty u_lat u_lon x rest) as (i & c & Hscan & Hfirst).
  exists i, c. repeat split; try assumption; try apply Hfirst.
  apply calculate_distance_returns.
Qed.

Lemma nearest_camp_scan_first_minimum_witness :
  exists i c,
    nearest_camp_scan 20.2961 85.8245 [camp_a; camp_b]
    = Ret (Some c, Fin (camp_km (20.2961, 85.8245) c)) /\
    calculate_distance (20.2961, 85.8245) (latitude c, longitude c)
    = Ret (camp_km (20.2961, 85.8245) c) /\
    first_nearest (20.2961, 85.8245) [camp_a; camp_b] i c.
Proof.
  apply (nearest_camp_scan_first_minimum 20.2961 85.8245 [camp_a; camp_b]).
  discriminate.
Defined.

(** The scan never raises, and it ends without a camp only when there is
    none to scan. *)
Lemma nearest_camp_scan_returns (u_lat u_lon : R) (camps : list camp) :
  exists r, nearest_camp_scan u_lat u_lon camps = Ret r /\
            (fst r = None <-> camps = []).
Proof.
  destruct camps as [| x rest].
  - exists (None, Inf). split; [reflexivity | tauto].
  - destruct (scan_camps_nonempty u_lat u_lon x rest) as (i & c & Hscan & _).
    eexists. split; [exact Hscan |]. cbn. split; discriminate.
Qed.

(** C2, as the code has it. With no camp the scan raises nothing: it
    returns with [nearest_camp] still [None] and [min_dist] still
    infinite, and the panel, guarded by [nearest_camp is not None], shows
    no nearest camp. For every position and every list of camps the scan
    returns, and it returns [None] only for the empty list. *)
Theorem nearest_camp_scan_empty_is_none :
  (forall u_lat u_lon : R,
      nearest_camp_scan u_lat u_lon [] = Ret (None, Inf) /\
      routing_panel u_lat u_lon [] = Ret NoPanel) /\
  (forall (u_lat u_lon : R) (camps : list camp),
      exists r, nearest_camp_scan u_lat u_lon camps = Ret r /\
                (fst r = None <-> camps = [])).
Proof.
  split.
  - intros. split; reflexivity.
  - apply nearest_camp_scan_returns.
Qed.

(** With an empty camp table, at the position the map starts from, the
    scan and the panel return; no error is raised. *)
Lemma nearest_camp_scan_empty_raises_nothing :
  nearest_camp_scan 20.2961 85.8245 [] = Ret (None, Inf) /\
  ~ (exists e, nearest_camp_scan 20.2961 85.8245 [] = Raise e) /\
  ~ (exists e, routing_panel 20.2961 85.8245 [] = Raise e).
Proof.
  split; [reflexivity |].
  split; intros [e He]; discriminate He.
Qed.

(** From [(0, 0)], with a camp two degrees east and then two camps one
    degree east, the scan returns the first of the two nearest with its
    distance. *)
Lemma nearest_camp_scan_equator :
  nearest_camp_scan 0 0 [camp_east2; camp_east1; camp_east1']
  = Ret (Some camp_east1, Fin (6371 * radians 1)).
Proof.
  assert (H2 : camp_km (0, 0) camp_east2 = 6371 * radians 2)
    by (apply great_circle_km_equator; lra).
  assert (H1 : camp_km (0, 0) camp_east1 = 6371 * radians 1)
    by (apply great_circle_km_equator; lra).
  assert (H1' : camp_km (0, 0) camp_east1' = 6371 * radians 1)
    by (apply great_circle_km_equator; lra).
  pose proof PI_RGT_0 as Hpi.
  unfold nearest_camp_scan. cbn [scan_camps].
  rewrite !calculate_distance_returns. cbn [bind lt_x].
  fold (camp_km (0, 0) camp_east2) (camp_km (0, 0) camp_east1)
       (camp_km (0, 0) camp_east1').
  rewrite H2, H1, H1'. unfold radians.
  destruct (Rlt_dec (6371 * (1 * (PI / 180))) (6371 * (2 * (PI / 180))));
    [| exfalso; nra].
  destruct (Rlt_dec (6371 * (1 * (PI / 180))) (6371 * (1 * (PI / 180))));
    [exfalso; lra | reflexivity].
Qed.

End NearestCamp.

(* ----------------------------------------------------------------- *)
(** *** The storm-stress score *)

Section StormStressScore.
Import StormStress OpenMeteo App Spec Sample.

Lemma storm_stress_reading (weather : weather) (w p : R) :
  holds_reading weather w p -> storm_stress weather = Ret (stormStress w p).
Proof.
  intros [Hw Hp]. unfold storm_stress, stormStress.
  rewrite Hw, Hp. cbn [number bind]. f_equal. ring.
Qed.

(** C6. For every weather dictionary that holds a reading [(w, p)], the
    score that the panel computes is [w] squared plus [p] times 10; the
    score of [(0, 0)] is 0 and that of [(10, 5)] is 150. *)
Theorem storm_stress_formula (weather : weather) (w p : R) :
  holds_reading weather w p ->
  storm_stress weather = Ret (w * w + p * 10) /\
  storm_stress (reading 0 0) = Ret 0 /\
  storm_stress (reading 10 5) = Ret 150.
Proof.
  intro H. split; [| split].
  - now rewrite (storm_stress_reading weather w p H).
  - rewrite (storm_stress_reading (reading 0 0) 0 0) by (split; reflexivity).
    unfold stormStress. f_equal. ring.
  - rewrite (storm_stress_reading (reading 10 5) 10 5) by (split; reflexivity).
    unfold stormStress. f_equal. ring.
Qed.

Lemma storm_stress_formula_witness :
  storm_stress (reading 10 5) = Ret (10 * 10 + 5 * 10) /\
  storm_stress (reading 0 0) = Ret 0 /\
  storm_stress (reading 10 5) = Ret 150.
Proof.
  apply (storm_stress_formula (reading 10 5) 10 5).
  split; reflexivity.
Defined.

Lemma stormStress_monotone (w p w' p' : R) :
  0 <= w <= w' -> 0 <= p <= p' -> stormStress w p <= stormStress w' p'.
Proof. unfold stormStress. intros. nra. Qed.

Lemma risk_level_monotone (s s' : R) :
  s <= s' -> (level_rank (risk_level s) <= level_rank (risk_level s'))%nat.
Proof.
  intro Hle. unfold risk_level, classify_risk.
  destruct (Rlt_dec 2500 s), (Rlt_dec 2500 s'), (Rlt_dec 1500 s), (Rlt_dec 1500 s');
    cbn; try lia; lra.
Qed.

(** C10. For readings with non-negative entries, more wind and more rain
    never give a smaller score, and so never a lower risk level. *)
Theorem storm_stress_monotone (weather weather' : weather) (w p w' p' : R) :
  holds_reading weather w p -> holds_reading weather' w' p' ->
  0 <= w <= w' -> 0 <= p <= p' ->
  exists s s',
    storm_stress weather = Ret s /\ storm_stress weather' = Ret s' /\
    s <= s' /\
    (level_rank (risk_level s) <= level_rank (risk_level s'))%nat.
Proof.
  intros H H' Hw Hp.
  exists (stormStress w p), (stormStress w' p').
  repeat split; try (now apply storm_stress_reading).
  - now apply stormStress_monotone.
  - now apply risk_level_monotone, stormStress_monotone.
Qed.

Lemma storm_stress_monotone_witness :
  exists s s',
    storm_stress (reading 30 20) = Ret s /\ storm_stress (reading 60 25) = Ret s' /\
    s <= s' /\
    (level_rank (risk_level s) <= level_rank (risk_level s'))%nat.
Proof.
  apply (storm_stress_monotone (reading 30 20) (reading 60 25) 30 20 60 25);
    try (split; reflexivity); lra.
Defined.

End StormStressScore.

(* ----------------------------------------------------------------- *)
(** *** The historical variant *)

Section HistoricalVariant.
Import StormStress OpenMeteo App Spec Sample.

Lemma column_set_column_same (df : DataFrame) (name : string) (s : Series) :
  column (set_column df name s) name = Ret s.
Proof.
  induction df as [| [n s0] rest IH]; cbn.
  - now rewrite String.eqb_refl.
  - destruct (String.eqb name n) eqn:E; cbn; rewrite E; [reflexivity | exact IH].
Qed.

Lemma column_set_column_other (df : DataFrame) (name other : string) (s : Series) :
  other <> name -> column (set_column df name s) other = column df other.
Proof.
  intro Hne. induction df as [| [n s0] rest IH]; cbn.
  - apply String.eqb_neq in Hne. now rewrite Hne.
  - destruct (String.eqb name n) eqn:E; cbn.
    + apply String.eqb_eq in E. subst n.
      apply String.eqb_neq in Hne. now rewrite Hne.
    + now rewrite IH.
Qed.

Lemma nth_error_s_add (a b : Series) (i : nat) (x y : R) :
  nth_error a i = Some x -> nth_error b i = Some y ->
  nth_error (s_add a b) i = Some (x + y).
Proof.
  revert b i. induction a as [| x0 a IH]; intros [| y0 b] [| i]; cbn;
    try discriminate.
  - now intros [= ->] [= ->].
  - apply IH.
Qed.

Lemma length_s_add (a b : Series) :
  List.length a = List.length b -> List.length (s_add a b) = List.length a.
Proof.
  revert b. induction a as [| x a IH]; intros [| y b]; cbn; try discriminate.
  - reflexivity.
  - intros [= H]. now rewrite IH.
Qed.

Lemma nth_error_s_pow (a : Series) (n i : nat) (x : R) :
  nth_error a i = Some x -> nth_error (s_pow a n) i = Some (x ^ n).
Proof. intro H. unfold s_pow. now rewrite nth_error_map, H. Qed.

Lemma nth_error_s_mul (a : Series) (c : R) (i : nat) (x : R) :
  nth_error a i = Some x -> nth_error (s_mul a c) i = Some (x * c).
Proof. intro H. unfold s_mul. now rewrite nth_error_map, H. Qed.

Lemma nth_error_s_sqrt (a : Series) (i : nat) (x : R) :
  nth_error a i = Some x -> nth_error (s_sqrt a) i = Some (sqrt x).
Proof. intro H. unfold s_sqrt. now rewrite nth_error_map, H. Qed.

Lemma compute_storm_stress_columns (df : DataFrame) (us vs ps : Series) :
  column df "10m_u_component_of_wind" = Ret us ->
  column df "10m_v_component_of_wind" = Ret vs ->
  column df "total_precipitation" = Ret ps ->
  exists df',
    compute_storm_stress df = Ret df' /\
    column df' "gust_proxy" = Ret (gust_proxy_of us vs) /\
    column df' "storm_stress" = Ret (storm_stress_of us vs ps).
Proof.
  intros Hu Hv Hp. unfold compute_storm_stress.
  rewrite Hu, Hv. cbn [bind].
  rewrite column_set_column_same. cbn [bind].
  rewrite column_set_column_same. cbn [bind].
  rewrite !column_set_column_other by discriminate.
  rewrite Hp. cbn [bind].
  eexists. split; [reflexivity |]. split.
  - rewrite column_set_column_other by discriminate.
    apply column_set_column_same.
  - apply column_set_column_same.
Qed.

Lemma storm_stress_of_row (us vs ps : Series) (i : nat) (u v p : R) :
  nth_error us i = Some u -> nth_error vs i = Some v -> nth_error ps i = Some p ->
  nth_error (gust_proxy_of us vs) i = Some (gust u v) /\
  nth_error (storm_stress_of us vs ps) i = Some (stormStress (gust u v) p).
Proof.
  intros Hu Hv Hp.
  assert (Hg : nth_error (gust_proxy_of us vs) i = Some (gust u v)).
  { unfold gust_proxy_of, wind_speed_of.
    rewrite (nth_error_s_mul _ 1.3 i (sqrt (u ^ 2 + v ^ 2))).
    - unfold gust. f_equal.
      replace (u ^ 2 + v ^ 2) with (u * u + v * v) by ring. ring.
    - apply nth_error_s_sqrt, nth_error_s_add; now apply nth_error_s_pow. }
  split; [exact Hg |].
  unfold storm_stress_of.
  rewrite (nth_error_s_add _ _ i (gust u v ^ 2) (p * 10)).
  - unfold stormStress. f_equal. ring.
  - now apply nth_error_s_pow.
  - now apply nth_error_s_mul.
Qed.

(** C7. On a frame that has the three input columns, of one length,
    [compute_storm_stress] returns a frame whose [storm_stress] column has
    that length and holds, in every row, [(1.3 * sqrt (u^2 + v^2))^2 +
    total_precipitation * 10]: the score that the panel's expression gives
    for the reading whose wind speed is the row's gust value. *)
Theorem compute_storm_stress_is_gust_stress (df : DataFrame) (us vs ps : Series) :
  column df "10m_u_component_of_wind" = Ret us ->
  column df "10m_v_component_of_wind" = Ret vs ->
  column df "total_precipitation" = Ret ps ->
  List.length us = List.length vs -> List.length us = List.length ps ->
  exists df' ss,
    compute_storm_stress df = Ret df' /\
    column df' "storm_stress" = Ret ss /\
    List.length ss = List.length us /\
    forall (i : nat) (u v p : R),
      nth_error us i = Some u -> nth_error vs i = Some v ->
      nth_error ps i = Some p ->
      nth_error ss i = Some ((1.3 * sqrt (u ^ 2 + v ^ 2)) ^ 2 + p * 10) /\
      storm_stress (reading (1.3 * sqrt (u ^ 2 + v ^ 2)) p)
      = Ret ((1.3 * sqrt (u ^ 2 + v ^ 2)) ^ 2 + p * 10).
Proof.
  intros Hu Hv Hp Luv Lup.
  destruct (compute_storm_stress_columns df us vs ps Hu Hv Hp)
    as (df' & Hrun & _ & Hss).
  exists df', (storm_stress_of us vs ps).
  split; [exact Hrun |]. split; [exact Hss |]. split.
  - assert (Lws : List.length (wind_speed_of us vs) = List.length us).
    { unfold wind_speed_of, s_sqrt, s_pow.
      rewrite length_map, length_s_add; rewrite !length_map; congruence. }
    unfold storm_stress_of, gust_proxy_of, s_pow, s_mul.
    rewrite length_s_add; rewrite !length_map; congruence.
  - intros i u v p Hiu Hiv Hip. split.
    + destruct (storm_stress_of_row us vs ps i u v p Hiu Hiv Hip) as [_ ->].
      unfold stormStress, gust. f_equal.
      replace (u * u + v * v) with (u ^ 2 + v ^ 2) by ring. ring.
    + reflexivity.
Qed.

Lemma compute_storm_stress_is_gust_stress_witness :
  exists df' ss,
    compute_storm_stress era5_two_rows = Ret df' /\
    column df' "storm_stress" = Ret ss /\
    List.length ss = List.length [3; 0] /\
    forall (i : nat) (u v p : R),
      nth_error [3; 0] i = Some u -> nth_error [4; 0] i = Some v ->
      nth_error [2; 1] i = Some p ->
      nth_error ss i = Some ((1.3 * sqrt (u ^ 2 + v ^ 2)) ^ 2 + p * 10) /\
      storm_stress (reading (1.3 * sqrt (u ^ 2 + v ^ 2)) p)
      = Ret ((1.3 * sqrt (u ^ 2 + v ^ 2)) ^ 2 + p * 10).
Proof.
  apply (compute_storm_stress_is_gust_stress era5_two_rows [3; 0] [4; 0] [2; 1]);
    reflexivity.
Defined.

(** The first of the two rows: a wind vector of (3, 4) has speed 5 and
    gust value 6.5, and with 2 of precipitation the score is 62.25. *)
Lemma storm_stress_of_first_row :
  nth_error (storm_stress_of [3; 0] [4; 0] [2; 1]) 0 = Some 62.25.
Proof.
  destruct (storm_stress_of_row [3; 0] [4; 0] [2; 1] 0 3 4 2 eq_refl eq_refl eq_refl)
    as [_ ->].
  unfold stormStress, gust. f_equal.
  replace (3 * 3 + 4 * 4) with (5 * 5) by ring.
  rewrite sqrt_square by lra. lra.
Qed.

End HistoricalVariant.

(* ----------------------------------------------------------------- *)
(** *** The routing provider *)

Section FastestRoute.
Import Routing Spec Sample.

(** Whatever the reply, one request has been made, and only one. *)
Lemma get_fastest_route_net (src dst : coord) (w : net osrm_url) :
  snd (get_fastest_route src dst w)
  = {| answer := answer w; calls := calls w ++ [route_url src dst] |}.
Proof.
  unfold get_fastest_route, io_try_except, io_bind, io_lift, io_ret, requests_get.
  destruct (answer w (List.length (calls w)) (route_url src dst)) as [resp | e].
  - match goal with
    | |- snd (match ?p with _ => _ end) = _ => destruct p as [r | e]
    end.
    + reflexivity.
    + destruct (is_RequestException e); reflexivity.
  - destruct (is_RequestException e); reflexivity.
Qed.

Lemma get_fastest_route_raised (src dst : coord) (w : net osrm_url) (e : exn) :
  next_reply src dst w = Raise e -> is_RequestException e = true ->
  fst (get_fastest_route src dst w) = Ret JNull.
Proof.
  unfold next_reply. intros Hreply He.
  unfold get_fastest_route, io_try_except, io_bind, io_lift, io_ret, requests_get.
  rewrite Hreply, He. reflexivity.
Qed.

Lemma get_fastest_route_http_error (src dst : coord) (w : net osrm_url) (resp : response) :
  next_reply src dst w = Ret resp -> raise_for_status resp = Raise HTTPError ->
  fst (get_fastest_route src dst w) = Ret JNull.
Proof.
  unfold next_reply. intros Hreply Hst.
  unfold get_fastest_route, io_try_except, io_bind, io_lift, io_ret, requests_get.
  rewrite Hreply, Hst. reflexivity.
Qed.

(** What the function makes of a body that comes with a success status. *)
Lemma get_fastest_route_body (src dst : coord) (w : net osrm_url) (resp : response) :
  next_reply src dst w = Ret resp -> raise_for_status resp = Ret tt ->
  fst (get_fastest_route src dst w)
  = try_except
      (code <- get (body resp) "code" JNull ;;
       if eq_str code "Ok" then
         routes <- get (body resp) "routes" JNull ;;
         if truthy routes then
           routes <- getitem (body resp) "routes" ;;
           getitem0 routes
         else Ret JNull
       else Ret JNull)
      is_RequestException (fun _ => Ret JNull).
Proof.
  unfold next_reply. intros Hreply Hst.
  unfold get_fastest_route, io_try_except, io_bind, io_lift, io_ret, requests_get.
  rewrite Hreply, Hst. cbn [bind].
  match goal with
  | |- fst (match ?p with _ => _ end) = _ => destruct p as [r | e]
  end; cbn [try_except fst].
  - reflexivity.
  - destruct (is_RequestException e); reflexivity.
Qed.

Lemma get_fastest_route_not_ok (src dst : coord) (w : net osrm_url)
      (resp : response) (fields : list (string * json)) :
  next_reply src dst w = Ret resp -> raise_for_status resp = Ret tt ->
  body resp = JObj fields -> assoc "code" fields <> Some (JStr "Ok") ->
  fst (get_fastest_route src dst w) = Ret JNull.
Proof.
  intros Hreply Hst Hbody Hcode.
  rewrite (get_fastest_route_body src dst w resp Hreply Hst), Hbody.
  cbn [get]. destruct (assoc "code" fields) as [code |] eqn:E; cbn [bind].
  - destruct (eq_str code "Ok") eqn:Eok; [| reflexivity].
    apply eq_str_true in Eok. congruence.
  - reflexivity.
Qed.

Lemma get_fastest_route_no_routes (src dst : coord) (w : net osrm_url)
      (resp : response) (fields : list (string * json)) :
  next_reply src dst w = Ret resp -> raise_for_status resp = Ret tt ->
  body resp = JObj fields ->
  assoc "routes" fields = None \/ assoc "routes" fields = Some (JArr []) ->
  fst (get_fastest_route src dst w) = Ret JNull.
Proof.
  intros Hreply Hst Hbody Hroutes.
  rewrite (get_fastest_route_body src dst w resp Hreply Hst), Hbody.
  cbn [get]. destruct (assoc "code" fields) as [code |]; cbn [bind].
  - destruct (eq_str code "Ok"); [| reflexivity].
    destruct Hroutes as [-> | ->]; reflexivity.
  - reflexivity.
Qed.

Lemma get_fastest_route_first (src dst : coord) (w : net osrm_url)
      (resp : response) (fields : list (string * json)) (r : json) (rest : list json) :
  next_reply src dst w = Ret resp -> raise_for_status resp = Ret tt ->
  body resp = JObj fields -> assoc "code" fields = Some (JStr "Ok") ->
  assoc "routes" fields = Some (JArr (r :: rest)) ->
  fst (get_fastest_route src dst w) = Ret r.
Proof.
  intros Hreply Hst Hbody Hcode Hroutes.
  rewrite (get_fastest_route_body src dst w resp Hreply Hst), Hbody.
  cbn [get getitem]. rewrite Hcode, Hroutes. reflexivity.
Qed.

(** C5. [get_fastest_route] returns [None], and raises nothing, when
    [requests.get] fails with a [RequestException] (a connection error or a
    timeout), when the status of the response is an error, when the [code]
    of the body is not ["Ok"], and when its [routes] is missing or an
    empty array; when the code is ["Ok"] and [routes] is a non-empty
    array it returns the first route, with the distance, the duration and
    the geometry that it holds. *)
Theorem get_fastest_route_none_or_first (src dst : coord) (w : net osrm_url) :
  (forall e, next_reply src dst w = Raise e -> is_RequestException e = true ->
             fst (get_fastest_route src dst w) = Ret JNull) /\
  (forall resp, next_reply src dst w = Ret resp ->
                raise_for_status resp = Raise HTTPError ->
                fst (get_fastest_route src dst w) = Ret JNull) /\
  (forall resp fields,
      next_reply src dst w = Ret resp -> raise_for_status resp = Ret tt ->
      body resp = JObj fields ->
      (assoc "code" fields <> Some (JStr "Ok") ->
       fst (get_fastest_route src dst w) = Ret JNull) /\
      (assoc "routes" fields = None \/ assoc "routes" fields = Some (JArr []) ->
       fst (get_fastest_route src dst w) = Ret JNull) /\
      (forall r rest,
          assoc "code" fields = Some (JStr "Ok") ->
          assoc "routes" fields = Some (JArr (r :: rest)) ->
          fst (get_fastest_route src dst w) = Ret r)).
Proof.
  split; [| split].
  - apply get_fastest_route_raised.
  - apply get_fastest_route_http_error.
  - intros resp fields Hreply Hst Hbody. split; [| split].
    + now apply get_fastest_route_not_ok with (resp := resp).
    + now apply get_fastest_route_no_routes with (resp := resp).
    + intros r rest. now apply get_fastest_route_first with (resp := resp).
Qed.

Lemma get_fastest_route_none_or_first_witness :
  fst (get_fastest_route (20.2961, 85.8245) (20.27, 85.84) (net_always (Raise Timeout)))
  = Ret JNull /\
  fst (get_fastest_route (20.2961, 85.8245) (20.27, 85.84) (net_always error_reply))
  = Ret JNull /\
  fst (get_fastest_route (20.2961, 85.8245) (20.27, 85.84) (net_always no_route_reply))
  = Ret JNull /\
  fst (get_fastest_route (20.2961, 85.8245) (20.27, 85.84) (net_always (ok_reply 900)))
  = Ret (a_route 900).
Proof.
  split; [| split; [| split]].
  - destruct (get_fastest_route_none_or_first
                (20.2961, 85.8245) (20.27, 85.84) (net_always (Raise Timeout)))
      as (H & _ & _).
    apply (H Timeout); reflexivity.
  - destruct (get_fastest_route_none_or_first
                (20.2961, 85.8245) (20.27, 85.84) (net_always error_reply))
      as (_ & H & _).
    eapply H; reflexivity.
  - destruct (get_fastest_route_none_or_first
                (20.2961, 85.8245) (20.27, 85.84) (net_always no_route_reply))
      as (_ & _ & H).
    destruct (H _ _ eq_refl eq_refl eq_refl) as (Hcode & _ & _).
    apply Hcode. cbn. discriminate.
  - destruct (get_fastest_route_none_or_first
                (20.2961, 85.8245) (20.27, 85.84) (net_always (ok_reply 900)))
      as (_ & _ & H).
    destruct (H _ _ eq_refl eq_refl eq_refl) as (_ & _ & Hfirst).
    eapply Hfirst; reflexivity.
Defined.

End FastestRoute.

(* ----------------------------------------------------------------- *)
(** *** Ranking several routes *)

Section RankRoutes.
Import Routing Spec Sample.

(** From a provider that follows its interface, [get_fastest_route]
    returns [None] or a route. *)
Lemma get_fastest_route_ok (src dst : coord) (w : net osrm_url) :
  reply_ok (next_reply src dst w) ->
  exists route,
    fst (get_fastest_route src dst w) = Ret route /\
    (route = JNull \/ route_ok route).
Proof.
  intro Hok. destruct (next_reply src dst w) as [resp | e] eqn:Hreply; cbn in Hok.
  - destruct (raise_for_status_cases resp) as [Hst | Hst].
    + destruct (Hok Hst) as (fields & Hbody & Hroutes).
      destruct (assoc "code" fields) as [code |] eqn:Ecode.
      * destruct code as [| | | s | |];
          try (exists JNull; split; [| now left];
               apply get_fastest_route_not_ok with (resp := resp) (fields := fields);
               try assumption; rewrite Ecode; discriminate).
        destruct (String.eqb s "Ok") eqn:Es.
        -- apply String.eqb_eq in Es. subst s.
           destruct (assoc "routes" fields) as [routes |] eqn:Eroutes.
           ++ destruct (Hroutes eq_refl routes eq_refl) as (items & -> & Hitems).
              destruct items as [| r rest].
              ** exists JNull. split; [| now left].
                 apply get_fastest_route_no_routes with (resp := resp) (fields := fields);
                   auto.
              ** exists r. split; [| right; now inversion Hitems].
                 now apply get_fastest_route_first
                   with (resp := resp) (fields := fields) (rest := rest).
           ++ exists JNull. split; [| now left].
              apply get_fastest_route_no_routes with (resp := resp) (fields := fields);
                auto.
        -- exists JNull. split; [| now left].
           apply get_fastest_route_not_ok with (resp := resp) (fields := fields);
             try assumption.
           rewrite Ecode. intros [= ->]. cbn in Es. discriminate.
      * exists JNull. split; [| now left].
        apply get_fastest_route_not_ok with (resp := resp) (fields := fields);
          try assumption.
        rewrite Ecode. discriminate.
    + exists JNull. split; [| now left].
      now apply get_fastest_route_http_error with (resp := resp).
  - exists JNull. split; [| now left].
    now apply get_fastest_route_raised with (e := e).
Qed.

Lemma make_ranked_ok (d : destination) (route : json) :
  route_ok route ->
  truthy route = true /\
  make_ranked d route = Ret (ranked_of d route) /\
  available [(d, route)] = [ranked_of d route].
Proof.
  intros (fields & dist & secs & g & -> & Hd & Ht & Hg).
  split; [| split].
  - destruct fields; [discriminate | reflexivity].
  - unfold make_ranked, field_div, ranked_of, route_number.
    cbn [getitem]. rewrite Hd, Ht, Hg. reflexivity.
  - reflexivity.
Qed.

Lemma available_cons (d : destination) (route : json) (rest : list (destination * json)) :
  available ((d, route) :: rest) = available [(d, route)] ++ available rest.
Proof. destruct route; reflexivity. Qed.

(** The loop calls [get_fastest_route] once for each destination and
    adds, in their order, the records of those that have a route. *)
Lemma routes_loop_available (src : coord) (destinations : list destination) :
  forall (acc : list ranked) (w : net osrm_url),
    (forall n rq, reply_ok (answer w n rq)) ->
    exists routes w',
      fetch_all src destinations w = (Ret routes, w') /\
      List.length routes = List.length destinations /\
      answer w' = answer w /\
      calls w' = calls w
                 ++ map (fun d => route_url src (latitude d, longitude d)) destinations /\
      routes_loop src destinations acc w
      = (Ret (acc ++ available (combine destinations routes)), w').
Proof.
  induction destinations as [| d rest IH]; intros acc w Hw.
  - exists [], w. cbn. rewrite !app_nil_r. repeat split; destruct w; reflexivity.
  - destruct (get_fastest_route_ok src (latitude d, longitude d) w (Hw _ _))
      as (route & Hfst & Hroute).
    pose proof (get_fastest_route_net src (latitude d, longitude d) w) as Hsnd.
    destruct (get_fastest_route src (latitude d, longitude d) w) as [o w1] eqn:Hrun.
    cbn [fst snd] in Hfst, Hsnd. subst o.
    assert (Hw1 : forall n rq, reply_ok (answer w1 n rq)) by (subst w1; exact Hw).
    cbn [fetch_all routes_loop]. unfold io_bind at 1 3. rewrite Hrun.
    destruct Hroute as [-> | Hroute].
    + destruct (IH acc w1 Hw1) as (routes & w' & Hall & Hlen & Hans & Hcalls & Hloop).
      exists (JNull :: routes), w'. unfold io_bind at 1. rewrite Hall.
      cbn [truthy]. rewrite Hloop.
      repeat split; cbn; try congruence.
      * now rewrite Hans, Hsnd.
      * rewrite Hcalls, Hsnd. cbn [calls]. now rewrite <- app_assoc.
    + destruct (make_ranked_ok d route Hroute) as (Htruthy & Hmake & Havail).
      destruct (IH (acc ++ [ranked_of d route]) w1 Hw1)
        as (routes & w' & Hall & Hlen & Hans & Hcalls & Hloop).
      exists (route :: routes), w'. unfold io_bind at 1. rewrite Hall.
      rewrite Htruthy. unfold io_bind at 1, io_lift. rewrite Hmake, Hloop.
      repeat split; cbn [List.length combine]; try congruence.
      * now rewrite Hans, Hsnd.
      * rewrite Hcalls, Hsnd. cbn [calls map]. now rewrite <- app_assoc.
      * rewrite available_cons, Havail, <- app_assoc. reflexivity.
Qed.

(** C3. From a provider that follows its interface, [get_multiple_routes]
    calls [get_fastest_route] once for each destination, in order, and
    returns the ranked records (kilometres are metres over 1000, minutes
    are seconds over 60) of the destinations whose route is not [None]:
    the result has exactly these records, is in ascending order of the
    duration, and keeps the records of any one duration in the order of
    their destinations. *)
Theorem get_multiple_routes_ranked (src : coord) (destinations : list destination)
        (w : net osrm_url) :
  (forall n rq, reply_ok (answer w n rq)) ->
  exists routes w' result,
    fetch_all src destinations w = (Ret routes, w') /\
    List.length routes = List.length destinations /\
    calls w' = calls w
               ++ map (fun d => route_url src (latitude d, longitude d)) destinations /\
    get_multiple_routes src destinations w = (Ret result, w') /\
    Permutation result (available (combine destinations routes)) /\
    StronglySorted (key_le duration_min) result /\
    forall t : R,
      filter (has_key duration_min t) result
      = filter (has_key duration_min t) (available (combine destinations routes)).
Proof.
  intro Hw.
  destruct (routes_loop_available src destinations [] w Hw)
    as (routes & w' & Hall & Hlen & _ & Hcalls & Hloop).
  exists routes, w', (sort duration_min (available (combine destinations routes))).
  repeat split; try assumption.
  - unfold get_multiple_routes, io_bind, io_ret. rewrite Hloop. reflexivity.
  - apply sort_perm.
  - apply sort_sorted.
  - intro t. apply sort_stable.
Qed.

Lemma ok_reply_ok (secs : R) : reply_ok (ok_reply secs).
Proof.
  intros _. eexists. split; [reflexivity |].
  intros _ routes [= <-]. eexists. split; [reflexivity |].
  repeat constructor. exists [("distance", JNum 12000); ("duration", JNum secs);
                             ("geometry", JObj [("type", JStr "LineString")])].
  exists 12000, secs, (JObj [("type", JStr "LineString")]). repeat split.
Qed.

Lemma net_four_ok : forall n rq, reply_ok (answer net_four n rq).
Proof.
  intros [| [| [| n]]] rq; cbn [answer net_four];
    try apply ok_reply_ok; reflexivity.
Qed.

Lemma get_multiple_routes_ranked_witness :
  exists routes w' result,
    fetch_all (20.2961, 85.8245) [camp_a; camp_b; camp_c; camp_d] net_four
    = (Ret routes, w') /\
    List.length routes = List.length [camp_a; camp_b; camp_c; camp_d] /\
    calls w' = calls net_four
               ++ map (fun d => route_url (20.2961, 85.8245) (latitude d, longitude d))
                      [camp_a; camp_b; camp_c; camp_d] /\
    get_multiple_routes (20.2961, 85.8245) [camp_a; camp_b; camp_c; camp_d] net_four
    = (Ret result, w') /\
    Permutation result (available (combine [camp_a; camp_b; camp_c; camp_d] routes)) /\
    StronglySorted (key_le duration_min) result /\
    forall t : R,
      filter (has_key duration_min t) result
      = filter (has_key duration_min t)
               (available (combine [camp_a; camp_b; camp_c; camp_d] routes)).
Proof.
  apply (get_multiple_routes_ranked
           (20.2961, 85.8245) [camp_a; camp_b; camp_c; camp_d] net_four).
  exact net_four_ok.
Defined.

(** There the unreachable camp is left out, the quickest camp comes
    first, and the two camps of equal duration keep their order. *)
Lemma get_multiple_routes_four :
  fst (get_multiple_routes (20.2961, 85.8245) [camp_a; camp_b; camp_c; camp_d] net_four)
  = Ret [ranked_of camp_c (a_route 900);
         ranked_of camp_a (a_route 1800);
         ranked_of camp_d (a_route 1800)].
Proof.
  unfold get_multiple_routes, io_bind, io_ret.
  destruct (routes_loop_available (20.2961, 85.8245)
              [camp_a; camp_b; camp_c; camp_d] [] net_four net_four_ok)
    as (routes & w' & Hall & _ & _ & _ & ->).
  cbn in Hall. injection Hall as <- _.
  cbn [fst app]. f_equal.
  match goal with
  | |- sort _ ?l = _ =>
      change l with [ranked_of camp_a (a_route 1800);
                     ranked_of camp_c (a_route 900);
                     ranked_of camp_d (a_route 1800)]
  end.
  assert (K : forall d secs, duration_min (ranked_of d (a_route secs)) = secs / 60)
    by reflexivity.
  repeat (cbn [sort insert]; rewrite ?K;
          match goal with
          | |- context [Rle_dec ?a ?b] => destruct (Rle_dec a b); try lra
          end).
  reflexivity.
Qed.

End RankRoutes.

(* ----------------------------------------------------------------- *)
(** *** The weather provider *)

Section FetchWeather.
Import OpenMeteo Spec Sample.

Lemma fetch_raised (lat lon : R) (w : net meteo_params) (e : exn) :
  next_weather_reply lat lon w = Raise e ->
  fst (fetch_realtime_weather lat lon w) = Ret (zero_weather "N/A").
Proof.
  intro Hreply.
  unfold fetch_realtime_weather, io_try_except, io_bind, io_lift, io_ret, requests_get.
  change (answer w (List.length (calls w)) (lat, lon))
    with (next_weather_reply lat lon w).
  rewrite Hreply. reflexivity.
Qed.

Lemma fetch_http_error (lat lon : R) (w : net meteo_params) (resp : response) :
  next_weather_reply lat lon w = Ret resp ->
  raise_for_status resp = Raise HTTPError ->
  fst (fetch_realtime_weather lat lon w) = Ret (zero_weather "N/A").
Proof.
  intros Hreply Hst.
  unfold fetch_realtime_weather, io_try_except, io_bind, io_lift, io_ret, requests_get.
  change (answer w (List.length (calls w)) (lat, lon))
    with (next_weather_reply lat lon w).
  rewrite Hreply, Hst. reflexivity.
Qed.

(** What the function makes of a body that comes with a success status. *)
Lemma fetch_body (lat lon : R) (w : net meteo_params) (resp : response) :
  next_weather_reply lat lon w = Ret resp -> raise_for_status resp = Ret tt ->
  fst (fetch_realtime_weather lat lon w)
  = try_except
      (current <- get (body resp) "current" (JObj []) ;;
       ws <- get current "wind_speed_10m" (JNum 0) ;;
       wg <- get current "wind_gusts_10m" (JNum 0) ;;
       pr <- get current "precipitation" (JNum 0) ;;
       wc <- get current "weather_code" (JNum 0) ;;
       tm <- get current "time" (JStr "") ;;
       Ret {| wind_speed := ws; wind_gust := wg; precipitation := pr;
              weather_code := wc; time := tm |})
      is_Exception (fun _ => Ret (zero_weather "N/A")).
Proof.
  intros Hreply Hst.
  unfold fetch_realtime_weather, io_try_except, io_bind, io_lift, io_ret, requests_get.
  change (answer w (List.length (calls w)) (lat, lon))
    with (next_weather_reply lat lon w).
  rewrite Hreply, Hst. cbn [bind].
  match goal with
  | |- fst (match ?p with _ => _ end) = _ => destruct p as [r | e]
  end; reflexivity.
Qed.

Lemma get_field_or (current : list (string * json)) (k : string) (default : json) :
  get (JObj current) k default = Ret (field_or current k default).
Proof. unfold get, field_or. destruct (assoc k current); reflexivity. Qed.

Lemma fetch_parsed (lat lon : R) (w : net meteo_params) (resp : response)
      (fields current : list (string * json)) :
  next_weather_reply lat lon w = Ret resp -> raise_for_status resp = Ret tt ->
  body resp = JObj fields ->
  field_or fields "current" (JObj []) = JObj current ->
  fst (fetch_realtime_weather lat lon w)
  = Ret {| wind_speed := field_or current "wind_speed_10m" (JNum 0);
           wind_gust := field_or current "wind_gusts_10m" (JNum 0);
           precipitation := field_or current "precipitation" (JNum 0);
           weather_code := field_or current "weather_code" (JNum 0);
           time := field_or current "time" (JStr "") |}.
Proof.
  intros Hreply Hst Hbody Hcur.
  rewrite (fetch_body lat lon w resp Hreply Hst), Hbody.
  rewrite get_field_or, Hcur. cbn [bind].
  rewrite !get_field_or. reflexivity.
Qed.

(** Whatever the provider does, a record comes back. *)
Lemma fetch_returns (lat lon : R) (w : net meteo_params) :
  exists rec, fst (fetch_realtime_weather lat lon w) = Ret rec.
Proof.
  destruct (next_weather_reply lat lon w) as [resp | e] eqn:Hreply.
  - destruct (raise_for_status_cases resp) as [Hst | Hst].
    + rewrite (fetch_body lat lon w resp Hreply Hst).
      match goal with
      | |- exists rec, try_except ?b _ _ = _ => destruct b as [r | e]
      end; cbn [try_except is_Exception]; eexists; reflexivity.
    + eexists. now apply fetch_http_error with (resp := resp).
  - eexists. now apply fetch_raised with (e := e).
Qed.

Lemma fetch_not_object (lat lon : R) (w : net meteo_params) (resp : response) :
  next_weather_reply lat lon w = Ret resp -> raise_for_status resp = Ret tt ->
  (forall fields, body resp <> JObj fields) ->
  fst (fetch_realtime_weather lat lon w) = Ret (zero_weather "N/A").
Proof.
  intros Hreply Hst Hbody. rewrite (fetch_body lat lon w resp Hreply Hst).
  destruct (body resp) as [| b | r | s | items | fields]; try reflexivity.
  exfalso. now apply (Hbody fields).
Qed.

Lemma fetch_current_not_object (lat lon : R) (w : net meteo_params)
      (resp : response) (fields : list (string * json)) (current : json) :
  next_weather_reply lat lon w = Ret resp -> raise_for_status resp = Ret tt ->
  body resp = JObj fields -> assoc "current" fields = Some current ->
  (forall entries, current <> JObj entries) ->
  fst (fetch_realtime_weather lat lon w) = Ret (zero_weather "N/A").
Proof.
  intros Hreply Hst Hbody Hcur Hno.
  rewrite (fetch_body lat lon w resp Hreply Hst), Hbody.
  cbn [get]. rewrite Hcur. cbn [bind].
  destruct current as [| b | r | s | items | entries]; try reflexivity.
  exfalso. now apply (Hno entries).
Qed.

(** C9, as the code has it. [fetch_realtime_weather] never raises and
    always returns a record with its five entries. When the provider
    answers with a success status and an object whose [current] is an
    object (or is absent), each entry is the provider's, and an absent one
    is 0 for the four numeric entries and the empty string for the time.
    In every other case - the request fails, the status is an error, the
    body is not an object, or its [current] is there and is not an object
    ([null], for one) - the four numeric entries are 0 and the time is the
    string ["N/A"]. *)
Theorem fetch_realtime_weather_total (lat lon : R) (w : net meteo_params) :
  (exists rec, fst (fetch_realtime_weather lat lon w) = Ret rec) /\
  (forall resp fields current,
      next_weather_reply lat lon w = Ret resp -> raise_for_status resp = Ret tt ->
      body resp = JObj fields ->
      field_or fields "current" (JObj []) = JObj current ->
      fst (fetch_realtime_weather lat lon w)
      = Ret {| wind_speed := field_or current "wind_speed_10m" (JNum 0);
               wind_gust := field_or current "wind_gusts_10m" (JNum 0);
               precipitation := field_or current "precipitation" (JNum 0);
               weather_code := field_or current "weather_code" (JNum 0);
               time := field_or current "time" (JStr "") |}) /\
  (forall e, next_weather_reply lat lon w = Raise e ->
             fst (fetch_realtime_weather lat lon w) = Ret (zero_weather "N/A")) /\
  (forall resp, next_weather_reply lat lon w = Ret resp ->
                raise_for_status resp = Raise HTTPError ->
                fst (fetch_realtime_weather lat lon w) = Ret (zero_weather "N/A")) /\
  (forall resp,
      next_weather_reply lat lon w = Ret resp -> raise_for_status resp = Ret tt ->
      (forall fields, body resp <> JObj fields) ->
      fst (fetch_realtime_weather lat lon w) = Ret (zero_weather "N/A")) /\
  (forall resp fields current,
      next_weather_reply lat lon w = Ret resp -> raise_for_status resp = Ret tt ->
      body resp = JObj fields -> assoc "current" fields = Some current ->
      (forall entries, current <> JObj entries) ->
      fst (fetch_realtime_weather lat lon w) = Ret (zero_weather "N/A")).
Proof.
  split; [apply fetch_returns |].
  split; [apply fetch_parsed |].
  split; [apply fetch_raised |].
  split; [apply fetch_http_error |].
  split; [apply fetch_not_object | apply fetch_current_not_object].
Qed.

Lemma fetch_realtime_weather_total_witness :
  fst (fetch_realtime_weather 20.2961 85.8245 meteo_wind_only)
  = Ret {| wind_speed := JNum 42; wind_gust := JNum 0; precipitation := JNum 0;
           weather_code := JNum 0; time := JStr "" |} /\
  fst (fetch_realtime_weather 20.2961 85.8245 meteo_down)
  = Ret (zero_weather "N/A") /\
  fst (fetch_realtime_weather 20.2961 85.8245
         {| answer := fun _ _ =>
                        Ret {| status_code := 200;
                               body := JObj [("current", JNull)] |};
            calls := [] |})
  = Ret (zero_weather "N/A").
Proof.
  split; [| split].
  - destruct (fetch_realtime_weather_total 20.2961 85.8245 meteo_wind_only)
      as (_ & H & _).
    apply (H _ _ [("wind_speed_10m", JNum 42)] eq_refl eq_refl eq_refl eq_refl).
  - destruct (fetch_realtime_weather_total 20.2961 85.8245 meteo_down)
      as (_ & _ & H & _).
    apply (H ConnectionError eq_refl).
  - destruct (fetch_realtime_weather_total 20.2961 85.8245
                {| answer := fun _ _ =>
                               Ret {| status_code := 200;
                                      body := JObj [("current", JNull)] |};
                   calls := [] |})
      as (_ & _ & _ & _ & _ & H).
    apply (H _ [("current", JNull)] JNull eq_refl eq_refl eq_refl eq_refl).
    discriminate.
Defined.

(** With the provider unreachable, the time of the record is ["N/A"],
    not the empty string: the record is not the one of the defaults. *)
Lemma fetch_realtime_weather_failure_time :
  exists rec,
    fst (fetch_realtime_weather 20.2961 85.8245 meteo_down) = Ret rec /\
    time rec = JStr "N/A" /\
    time rec <> JStr "" /\
    rec <> zero_weather "".
Proof.
  exists (zero_weather "N/A").
  split; [reflexivity |]. split; [reflexivity |].
  split; [discriminate |]. intro H. discriminate H.
Qed.

End FetchWeather.

(* ================================================================= *)
(** ** Further properties *)

(* ----------------------------------------------------------------- *)
(** *** More on the great-circle distance *)

Section DistanceFacts.
Import Routing Spec.

Lemma PI_bounds : 3.14 < PI < 3.15.
Proof.
  pose proof (PI_2_3_7_ineq 1) as H.
  unfold PI_2_3_7_tg, tg_alt, Ratan_seq in H. simpl in H. lra.
Qed.

Lemma asin_nonneg (x : R) : 0 <= x <= 1 -> 0 <= asin x.
Proof.
  intros Hx. destruct (Rle_lt_dec 0 (asin x)) as [H | H]; [exact H |].
  exfalso. pose proof (asin_bound x) as [Hl _].
  pose proof (sin_asin x ltac:(lra)) as Hs.
  assert (sin (asin x) < 0) by (apply sin_lt_0_var; pose proof PI_RGT_0; lra).
  lra.
Qed.

Lemma sqrt_unit (x : R) : 0 <= x <= 1 -> 0 <= sqrt x <= 1.
Proof.
  intros [H0 H1]. split; [apply sqrt_pos |].
  rewrite <- sqrt_1. now apply sqrt_le_1_alt.
Qed.

Lemma great_circle_km_range (a b : coord) : 0 <= great_circle_km a b <= 6371 * PI.
Proof.
  unfold great_circle_km.
  pose proof (sqrt_unit _ (haversine_a_range a b)) as Hs.
  pose proof (asin_nonneg _ Hs). pose proof (asin_bound (sqrt (haversine_a a b))).
  lra.
Qed.

(** X1. [calculate_distance] raises for no pair of coordinates, and what
    it returns lies between 0 and half the circumference of the sphere,
    [6371 * PI] kilometres. *)
Theorem calculate_distance_bounds (a b : coord) :
  exists d, calculate_distance a b = Ret d /\ 0 <= d <= 6371 * PI.
Proof.
  exists (great_circle_km a b).
  split; [apply calculate_distance_returns | apply great_circle_km_range].
Qed.

Lemma radians_minus (x y : R) : radians x - radians y = radians (x - y).
Proof. unfold radians. ring. Qed.

Lemma hav_Rabs (x : R) : hav (Rabs x) = hav x.
Proof.
  unfold Rabs. destruct (Rcase_abs x); [apply hav_neg | reflexivity].
Qed.

Lemma radians_Rabs (x : R) : radians (Rabs x) = Rabs (radians x).
Proof.
  unfold radians. rewrite Rabs_mult.
  rewrite (Rabs_pos_eq (PI / 180)); [reflexivity |].
  pose proof PI_RGT_0. lra.
Qed.

(** The angle whose haversine is [hav t], for [t] between 0 and [PI]. *)
Lemma asin_sqrt_hav (t : R) : 0 <= t <= PI -> 2 * asin (sqrt (hav t)) = t.
Proof.
  intros Ht. rewrite <- sin_half_sq.
  rewrite sqrt_pow2 by (apply sin_ge_0; lra).
  rewrite asin_sin by lra. field.
Qed.

Lemma great_circle_km_meridian (lat1 lat2 lon : R) :
  Rabs (lat2 - lat1) <= 180 ->
  great_circle_km (lat1, lon) (lat2, lon) = 6371 * radians (Rabs (lat2 - lat1)).
Proof.
  intro H. unfold great_circle_km, haversine_a. cbn [fst snd].
  rewrite Rminus_diag.
  replace (hav 0) with 0 by (unfold hav; rewrite cos_0; field).
  rewrite Rmult_0_r, Rplus_0_r, radians_minus.
  rewrite <- hav_Rabs, <- radians_Rabs.
  rewrite asin_sqrt_hav; [reflexivity |].
  pose proof (Rabs_pos (lat2 - lat1)). pose proof PI_RGT_0.
  unfold radians. split; nra.
Qed.

Lemma great_circle_km_along_equator (lon1 lon2 : R) :
  Rabs (lon2 - lon1) <= 180 ->
  great_circle_km (0, lon1) (0, lon2) = 6371 * radians (Rabs (lon2 - lon1)).
Proof.
  intro H. unfold great_circle_km, haversine_a. cbn [fst snd].
  assert (Hr0 : radians 0 = 0) by (unfold radians; ring).
  rewrite Hr0, Rminus_diag, cos_0.
  replace (hav 0) with 0 by (unfold hav; rewrite cos_0; field).
  rewrite Rplus_0_l, !Rmult_1_l, radians_minus.
  rewrite <- hav_Rabs, <- radians_Rabs.
  rewrite asin_sqrt_hav; [reflexivity |].
  pose proof (Rabs_pos (lon2 - lon1)). pose proof PI_RGT_0.
  unfold radians. split; nra.
Qed.

(** X2. Along a meridian, and along the equator, the distance is the
    radius times the difference in radians, for differences up to 180
    degrees; one degree of longitude at the equator is within 1% of
    111.19 kilometres. *)
Theorem calculate_distance_meridian_equator :
  (forall lat1 lat2 lon : R,
      Rabs (lat2 - lat1) <= 180 ->
      calculate_distance (lat1, lon) (lat2, lon)
      = Ret (6371 * (Rabs (lat2 - lat1) * (PI / 180)))) /\
  (forall lon1 lon2 : R,
      Rabs (lon2 - lon1) <= 180 ->
      calculate_distance (0, lon1) (0, lon2)
      = Ret (6371 * (Rabs (lon2 - lon1) * (PI / 180)))) /\
  (exists d, calculate_distance (0, 0) (0, 1) = Ret d /\
             Rabs (d - 111.19) <= 0.01 * 111.19).
Proof.
  split; [| split].
  - intros lat1 lat2 lon H. rewrite calculate_distance_returns.
    now rewrite great_circle_km_meridian.
  - intros lon1 lon2 H. rewrite calculate_distance_returns.
    now rewrite great_circle_km_along_equator.
  - exists (6371 * (1 * (PI / 180))). split.
    + rewrite calculate_distance_returns, great_circle_km_along_equator.
      * rewrite Rminus_0_r, Rabs_pos_eq by lra. reflexivity.
      * rewrite Rminus_0_r, Rabs_pos_eq; lra.
    + pose proof PI_bounds. apply Rabs_le. lra.
Qed.

Lemma calculate_distance_meridian_equator_witness :
  calculate_distance (19.81, 85.83) (20.27, 85.83)
  = Ret (6371 * (Rabs (20.27 - 19.81) * (PI / 180))) /\
  calculate_distance (0, 85.83) (0, 84.5)
  = Ret (6371 * (Rabs (84.5 - 85.83) * (PI / 180))).
Proof.
  destruct calculate_distance_meridian_equator as (Hm & He & _).
  split.
  - apply Hm. rewrite Rabs_pos_eq; lra.
  - apply He. rewrite Rabs_left; lra.
Defined.

End DistanceFacts.

(* ----------------------------------------------------------------- *)
(** *** More on the nearest-camp scan *)

Section NearestCampFacts.
Import Routing App Spec Sample.

Lemma first_nearest_In (u : coord) (camps : list camp) (i : nat) (c : camp) :
  first_nearest u camps i c -> In c camps.
Proof. intros (Hi & _). now apply nth_error_In in Hi. Qed.

(** X4. More camps never make the reported distance longer: when every
    camp of a non-empty table is in a second table, the scan of the second
    reports a distance that is not greater; so two tables with the same
    camps in any order report the same distance. *)
Theorem nearest_distance_order_free (u_lat u_lon : R) (camps camps' : list camp) :
  camps <> [] -> incl camps camps' ->
  exists c c',
    nearest_camp_scan u_lat u_lon camps
    = Ret (Some c, Fin (camp_km (u_lat, u_lon) c)) /\
    nearest_camp_scan u_lat u_lon camps'
    = Ret (Some c', Fin (camp_km (u_lat, u_lon) c')) /\
    camp_km (u_lat, u_lon) c' <= camp_km (u_lat, u_lon) c /\
    (Permutation camps camps' ->
     camp_km (u_lat, u_lon) c' = camp_km (u_lat, u_lon) c).
Proof.
  intros Hne Hincl.
  destruct camps as [| x rest]; [congruence |].
  destruct camps' as [| x' rest'];
    [exfalso; apply (Hincl x); now left |].
  destruct (scan_camps_nonempty u_lat u_lon x rest) as (i & c & Hscan & Hfirst).
  destruct (scan_camps_nonempty u_lat u_lon x' rest') as (i' & c' & Hscan' & Hfirst').
  exists c, c'. split; [exact Hscan |]. split; [exact Hscan' |].
  assert (Hle : camp_km (u_lat, u_lon) c' <= camp_km (u_lat, u_lon) c).
  { destruct Hfirst' as (_ & Hmin' & _). apply Hmin', Hincl.
    now apply first_nearest_In with (u := (u_lat, u_lon)) (i := i). }
  split; [exact Hle |].
  intro Hperm.
  assert (Hge : camp_km (u_lat, u_lon) c <= camp_km (u_lat, u_lon) c').
  { destruct Hfirst as (_ & Hmin & _). apply Hmin.
    apply (Permutation_in _ (Permutation_sym Hperm)).
    now apply first_nearest_In with (u := (u_lat, u_lon)) (i := i'). }
  lra.
Qed.

Lemma nearest_distance_order_free_witness :
  exists c c',
    nearest_camp_scan 20.2961 85.8245 [camp_a; camp_b]
    = Ret (Some c, Fin (camp_km (20.2961, 85.8245) c)) /\
    nearest_camp_scan 20.2961 85.8245 [camp_c; camp_b; camp_a]
    = Ret (Some c', Fin (camp_km (20.2961, 85.8245) c')) /\
    camp_km (20.2961, 85.8245) c' <= camp_km (20.2961, 85.8245) c /\
    (Permutation [camp_a; camp_b] [camp_c; camp_b; camp_a] ->
     camp_km (20.2961, 85.8245) c' = camp_km (20.2961, 85.8245) c).
Proof.
  apply (nearest_distance_order_free 20.2961 85.8245
           [camp_a; camp_b] [camp_c; camp_b; camp_a]).
  - discriminate.
  - intros c [<- | [<- | []]]; cbn; tauto.
Defined.

End NearestCampFacts.

(* ----------------------------------------------------------------- *)
(** *** More on the routing provider *)

Section RoutingFacts.
Import Routing Spec Sample.

(** The network after one request for the route from [src] to [dst]. *)
Lemma get_fastest_route_pair (src dst : coord) (w : net osrm_url) :
  get_fastest_route src dst w
  = (fst (get_fastest_route src dst w),
     {| answer := answer w; calls := calls w ++ [route_url src dst] |}).
Proof.
  rewrite <- get_fastest_route_net. apply surjective_pairing.
Qed.

(** X5. Whatever the provider replies, and also when an exception
    escapes, [get_fastest_route] makes exactly one request, whose URL
    carries each point as longitude, latitude; the requests made before
    stay as they were. *)
Theorem get_fastest_route_one_request (src_lat src_lon dst_lat dst_lon : R)
        (w : net osrm_url) :
  calls (snd (get_fastest_route (src_lat, src_lon) (dst_lat, dst_lon) w))
  = calls w ++ [((src_lon, src_lat), (dst_lon, dst_lat))] /\
  answer (snd (get_fastest_route (src_lat, src_lon) (dst_lat, dst_lon) w))
  = answer w.
Proof.
  rewrite get_fastest_route_net. split; reflexivity.
Qed.

Lemma get_fastest_route_routes (src dst : coord) (w : net osrm_url)
      (resp : response) (fields : list (string * json)) (routes : json) :
  next_reply src dst w = Ret resp -> raise_for_status resp = Ret tt ->
  body resp = JObj fields -> assoc "code" fields = Some (JStr "Ok") ->
  assoc "routes" fields = Some routes -> truthy routes = true ->
  fst (get_fastest_route src dst w)
  = try_except (getitem0 routes) is_RequestException (fun _ => Ret JNull).
Proof.
  intros Hreply Hst Hbody Hcode Hroutes Htruthy.
  rewrite (get_fastest_route_body src dst w resp Hreply Hst), Hbody.
  cbn [get getitem]. rewrite Hcode, Hroutes. cbn [bind eq_str].
  rewrite String.eqb_refl, Htruthy. reflexivity.
Qed.

(** X6. What is not a [RequestException] is not caught: such an
    exception of [requests.get] reaches the caller; a body that comes with
    a success status and is not an object ends in [AttributeError]; and
    with the code ["Ok"], a [routes] that is true but neither an array nor
    a string ends in [KeyError] (an object) or [TypeError] (a number or
    [True]). *)
Theorem get_fastest_route_escapes (src dst : coord) (w : net osrm_url) :
  (forall e, next_reply src dst w = Raise e -> is_RequestException e = false ->
             fst (get_fastest_route src dst w) = Raise e) /\
  (forall resp, next_reply src dst w = Ret resp ->
                raise_for_status resp = Ret tt ->
                (forall fields, body resp <> JObj fields) ->
                fst (get_fastest_route src dst w) = Raise AttributeError) /\
  (forall resp fields routes,
      next_reply src dst w = Ret resp -> raise_for_status resp = Ret tt ->
      body resp = JObj fields -> assoc "code" fields = Some (JStr "Ok") ->
      assoc "routes" fields = Some routes -> truthy routes = true ->
      fst (get_fastest_route src dst w)
      = match routes with
        | JObj _ => Raise KeyError
        | JNum _ | JBool _ => Raise TypeError
        | JArr (r :: _) => Ret r
        | JStr (String c _) => Ret (JStr (String c EmptyString))
        | _ => Ret JNull
        end).
Proof.
  split; [| split].
  - unfold next_reply. intros e Hreply He.
    unfold get_fastest_route, io_try_except, io_bind, io_lift, io_ret, requests_get.
    rewrite Hreply, He. reflexivity.
  - intros resp Hreply Hst Hbody.
    rewrite (get_fastest_route_body src dst w resp Hreply Hst).
    destruct (body resp) as [| b | r | s | items | fields]; try reflexivity.
    exfalso. now apply (Hbody fields).
  - intros resp fields routes Hreply Hst Hbody Hcode Hroutes Htruthy.
    rewrite (get_fastest_route_routes src dst w resp fields routes
               Hreply Hst Hbody Hcode Hroutes Htruthy).
    destruct routes as [| b | r | s | items | fs]; cbn in Htruthy |- *;
      try discriminate; try reflexivity.
    + destruct s; [discriminate | reflexivity].
    + destruct items; [discriminate | reflexivity].
Qed.

Lemma get_fastest_route_escapes_witness :
  fst (get_fastest_route (20.2961, 85.8245) (20.27, 85.84)
         (net_always (Raise ValueError))) = Raise ValueError /\
  fst (get_fastest_route (20.2961, 85.8245) (20.27, 85.84)
         (net_always (Ret {| status_code := 200; body := JArr [] |})))
  = Raise AttributeError /\
  fst (get_fastest_route (20.2961, 85.8245) (20.27, 85.84)
         (net_always (Ret {| status_code := 200;
                             body := JObj [("code", JStr "Ok");
                                           ("routes", JObj [("0", JNull)])] |})))
  = Raise KeyError.
Proof.
  split; [| split].
  - destruct (get_fastest_route_escapes (20.2961, 85.8245) (20.27, 85.84)
                (net_always (Raise ValueError))) as (H & _).
    apply H; reflexivity.
  - destruct (get_fastest_route_escapes (20.2961, 85.8245) (20.27, 85.84)
                (net_always (Ret {| status_code := 200; body := JArr [] |})))
      as (_ & H & _).
    eapply H; try reflexivity. intros fields. discriminate.
  - destruct (get_fastest_route_escapes (20.2961, 85.8245) (20.27, 85.84)
                (net_always (Ret {| status_code := 200;
                                    body := JObj [("code", JStr "Ok");
                                                  ("routes", JObj [("0", JNull)])] |})))
      as (_ & _ & H).
    apply (H _ _ (JObj [("0", JNull)]) eq_refl eq_refl eq_refl eq_refl eq_refl eq_refl).
Defined.


(** One turn of the loop. *)
Lemma routes_loop_cons (src : coord) (d : destination) (rest : list destination)
      (acc : list ranked) (w : net osrm_url) :
  routes_loop src (d :: rest) acc w
  = let w1 := {| answer := answer w;
                 calls := calls w ++ [route_url src (latitude d, longitude d)] |} in
    match fst (get_fastest_route src (latitude d, longitude d) w) with
    | Raise e => (Raise e, w1)
    | Ret route =>
        if truthy route then
          match make_ranked d route with
          | Ret r => routes_loop src rest (acc ++ [r]) w1
          | Raise e => (Raise e, w1)
          end
        else routes_loop src rest acc w1
    end.
Proof.
  cbn [routes_loop]. unfold io_bind at 1. cbv zeta.
  pose proof (get_fastest_route_net src (latitude d, longitude d) w) as Hnet.
  destruct (get_fastest_route src (latitude d, longitude d) w) as [o w'].
  cbn [fst snd] in *. subst w'.
  destruct o as [route | e]; [| reflexivity].
  destruct (truthy route); [| reflexivity].
  unfold io_bind, io_lift. destruct (make_ranked d route); reflexivity.
Qed.



(** X8. A first route that is the empty object counts as no route: its
    destination is left out and the ranking goes on with the others. A
    first route that is a non-empty object without a [distance] makes the
    whole ranking fail with [KeyError], and the destinations that follow
    are not requested. *)
Theorem get_multiple_routes_malformed (src : coord) (d : destination)
        (rest : list destination) (w : net osrm_url)
        (resp : response) (fields : list (string * json))
        (route : json) (more : list json) :
  next_reply src (latitude d, longitude d) w = Ret resp ->
  raise_for_status resp = Ret tt ->
  body resp = JObj fields -> assoc "code" fields = Some (JStr "Ok") ->
  assoc "routes" fields = Some (JArr (route :: more)) ->
  let w1 := {| answer := answer w;
               calls := calls w ++ [route_url src (latitude d, longitude d)] |} in
  (route = JObj [] ->
   get_multiple_routes src (d :: rest) w = get_multiple_routes src rest w1) /\
  (forall entries, route = JObj entries -> entries <> [] ->
                   assoc "distance" entries = None ->
                   get_multiple_routes src (d :: rest) w = (Raise KeyError, w1)).
Proof.
  intros Hreply Hst Hbody Hcode Hroutes w1.
  pose proof (get_fastest_route_first src (latitude d, longitude d) w resp fields
                route more Hreply Hst Hbody Hcode Hroutes) as Hfst.
  split.
  - intros ->. unfold get_multiple_routes, io_bind.
    rewrite routes_loop_cons, Hfst. reflexivity.
  - intros entries -> Hne Hdist. unfold get_multiple_routes, io_bind.
    rewrite routes_loop_cons, Hfst. cbv zeta.
    assert (Htruthy : truthy (JObj entries) = true)
      by (destruct entries; [congruence | reflexivity]).
    rewrite Htruthy.
    unfold make_ranked, field_div. cbn [getitem].
    rewrite Hdist. reflexivity.
Qed.

Lemma get_multiple_routes_malformed_witness :
  let bad := Ret {| status_code := 200;
                    body := JObj [("code", JStr "Ok");
                                  ("routes", JArr [JObj [("duration", JNum 60)]])] |} in
  let w1 := {| answer := answer (net_always bad);
               calls := calls (net_always bad)
                        ++ [route_url (20.2961, 85.8245)
                                      (latitude camp_a, longitude camp_a)] |} in
  (JObj [("duration", JNum 60)] = JObj [] ->
   get_multiple_routes (20.2961, 85.8245) [camp_a; camp_b] (net_always bad)
   = get_multiple_routes (20.2961, 85.8245) [camp_b] w1) /\
  (forall entries, JObj [("duration", JNum 60)] = JObj entries -> entries <> [] ->
                   assoc "distance" entries = None ->
                   get_multiple_routes (20.2961, 85.8245) [camp_a; camp_b]
                                       (net_always bad)
                   = (Raise KeyError, w1)).
Proof.
  intros bad w1.
  apply (get_multiple_routes_malformed (20.2961, 85.8245) camp_a [camp_b]
           (net_always bad) _ _ (JObj [("duration", JNum 60)]) []
           eq_refl eq_refl eq_refl eq_refl eq_refl).
Defined.

End RoutingFacts.

(* ----------------------------------------------------------------- *)
(** *** More on the weather provider and the risk card *)

Section WeatherFacts.
Import StormStress OpenMeteo App Panel Spec Sample.

Lemma fetch_realtime_weather_net (lat lon : R) (w : net meteo_params) :
  snd (fetch_realtime_weather lat lon w)
  = {| answer := answer w; calls := calls w ++ [(lat, lon)] |}.
Proof.
  unfold fetch_realtime_weather, io_try_except, io_bind, io_lift, io_ret, requests_get.
  change (answer w (List.length (calls w)) (lat, lon))
    with (next_weather_reply lat lon w).
  destruct (next_weather_reply lat lon w) as [resp | e]; [| reflexivity].
  repeat match goal with
         | |- context [match ?p with Ret _ => _ | Raise _ => _ end] => destruct p
         end; reflexivity.
Qed.

(** X9. [fetch_realtime_weather] makes exactly one request, with the
    latitude and the longitude it was given; and a body that comes with a
    success status but is not an object, or whose [current] is not an
    object, gives the same record as a failed request: zeros and the time
    ["N/A"]. *)
Theorem fetch_realtime_weather_malformed (lat lon : R) (w : net meteo_params) :
  snd (fetch_realtime_weather lat lon w)
  = {| answer := answer w; calls := calls w ++ [(lat, lon)] |} /\
  (forall resp,
      next_weather_reply lat lon w = Ret resp -> raise_for_status resp = Ret tt ->
      (forall fields, body resp <> JObj fields) ->
      fst (fetch_realtime_weather lat lon w) = Ret (zero_weather "N/A")) /\
  (forall resp fields current,
      next_weather_reply lat lon w = Ret resp -> raise_for_status resp = Ret tt ->
      body resp = JObj fields -> assoc "current" fields = Some current ->
      (forall entries, current <> JObj entries) ->
      fst (fetch_realtime_weather lat lon w) = Ret (zero_weather "N/A")).
Proof.
  split; [apply fetch_realtime_weather_net |].
  split; [apply fetch_not_object | apply fetch_current_not_object].
Qed.

Lemma fetch_realtime_weather_malformed_witness :
  fst (fetch_realtime_weather 20.2961 85.8245
         {| answer := fun _ _ => Ret {| status_code := 200; body := JArr [] |};
            calls := [] |})
  = Ret (zero_weather "N/A") /\
  fst (fetch_realtime_weather 20.2961 85.8245
         {| answer := fun _ _ =>
                        Ret {| status_code := 200;
                               body := JObj [("current", JNull)] |};
            calls := [] |})
  = Ret (zero_weather "N/A").
Proof.
  split.
  - destruct (fetch_realtime_weather_malformed 20.2961 85.8245
                {| answer := fun _ _ => Ret {| status_code := 200; body := JArr [] |};
                   calls := [] |}) as (_ & H & _).
    eapply H; try reflexivity. intros fields. discriminate.
  - destruct (fetch_realtime_weather_malformed 20.2961 85.8245
                {| answer := fun _ _ =>
                               Ret {| status_code := 200;
                                      body := JObj [("current", JNull)] |};
                   calls := [] |}) as (_ & _ & H).
    eapply (H _ _ JNull); try reflexivity. intros entries. discriminate.
Defined.

(** The run of the risk card, from the outcome of the fetch. *)
Lemma risk_card_of_weather (u_lat u_lon : R) (w : net meteo_params) (weather : weather) :
  fst (fetch_realtime_weather u_lat u_lon w) = Ret weather ->
  fst (risk_card u_lat u_lon w)
  = (s <- storm_stress weather ;; Ret (s, classify_risk s)).
Proof.
  intro Hfetch. unfold risk_card, io_bind, io_lift, io_ret.
  destruct (fetch_realtime_weather u_lat u_lon w) as [o w'].
  cbn [fst] in Hfetch. subst o.
  destruct (storm_stress weather); reflexivity.
Qed.

Lemma risk_card_zero (u_lat u_lon : R) (w : net meteo_params) :
  fst (fetch_realtime_weather u_lat u_lon w) = Ret (zero_weather "N/A") ->
  fst (risk_card u_lat u_lon w) = Ret (0, risk_row LOW).
Proof.
  intro Hfetch. rewrite (risk_card_of_weather _ _ _ _ Hfetch).
  unfold storm_stress, zero_weather. cbn [wind_speed precipitation number bind].
  replace (0 ^ 2 + 0 * 10) with 0 by ring.
  rewrite classify_risk_row.
  replace (risk_level 0) with LOW; [reflexivity |].
  symmetry. apply risk_level_LOW. lra.
Qed.

(** X10. When the weather request fails, or its status is an error, the
    risk card does not fail: it shows the score 0 and the level LOW, as
    for calm weather. *)
Theorem risk_card_provider_down (u_lat u_lon : R) (w : net meteo_params) :
  (forall e, next_weather_reply u_lat u_lon w = Raise e ->
             fst (risk_card u_lat u_lon w) = Ret (0, risk_row LOW)) /\
  (forall resp, next_weather_reply u_lat u_lon w = Ret resp ->
                raise_for_status resp = Raise HTTPError ->
                fst (risk_card u_lat u_lon w) = Ret (0, risk_row LOW)).
Proof.
  split.
  - intros e Hreply. apply risk_card_zero. now apply fetch_raised with (e := e).
  - intros resp Hreply Hst. apply risk_card_zero.
    now apply fetch_http_error with (resp := resp).
Qed.

Lemma risk_card_provider_down_witness :
  fst (risk_card 20.2961 85.8245 meteo_down) = Ret (0, risk_row LOW).
Proof.
  destruct (risk_card_provider_down 20.2961 85.8245 meteo_down) as (H & _).
  apply (H ConnectionError). reflexivity.
Defined.



(** X12. With no rain the level is HIGH exactly for a wind above 50 km/h,
    and with no wind exactly for a precipitation above 250 mm; a wind
    above 50 km/h gives HIGH whatever the rain, as long as it is not
    negative. *)
Theorem storm_stress_wind_rain_thresholds (w p : R) :
  0 <= w -> 0 <= p ->
  exists sw sp s,
    storm_stress (reading w 0) = Ret sw /\
    storm_stress (reading 0 p) = Ret sp /\
    storm_stress (reading w p) = Ret s /\
    (risk_level sw = HIGH <-> 50 < w) /\
    (risk_level sp = HIGH <-> 250 < p) /\
    (50 < w -> risk_level s = HIGH).
Proof.
  intros Hw Hp.
  exists (w ^ 2 + 0 * 10), (0 ^ 2 + p * 10), (w ^ 2 + p * 10).
  split; [reflexivity |]. split; [reflexivity |]. split; [reflexivity |].
  repeat split.
  - intro H. apply risk_level_HIGH in H. nra.
  - intro H. apply risk_level_HIGH. nra.
  - intro H. apply risk_level_HIGH in H. nra.
  - intro H. apply risk_level_HIGH. nra.
  - intro H. apply risk_level_HIGH. nra.
Qed.

Lemma storm_stress_wind_rain_thresholds_witness :
  exists sw sp s,
    storm_stress (reading 51 0) = Ret sw /\
    storm_stress (reading 0 12) = Ret sp /\
    storm_stress (reading 51 12) = Ret s /\
    (risk_level sw = HIGH <-> 50 < 51) /\
    (risk_level sp = HIGH <-> 250 < 12) /\
    (50 < 51 -> risk_level s = HIGH).
Proof.
  apply (storm_stress_wind_rain_thresholds 51 12); lra.
Defined.

End WeatherFacts.

(* ----------------------------------------------------------------- *)
(** *** More on the historical variant *)

Section FrameFacts.
Import StormStress Spec Sample.

Lemma column_cases (df : DataFrame) (name : string) :
  (exists s, column df name = Ret s) \/ column df name = Raise KeyError.
Proof.
  induction df as [| [n s] rest IH]; cbn.
  - now right.
  - destruct (String.eqb name n); [left; now exists s | exact IH].
Qed.

(** The frame that [compute_storm_stress] returns. *)
Lemma compute_storm_stress_frame (df : DataFrame) (us vs ps : Series) :
  column df "10m_u_component_of_wind" = Ret us ->
  column df "10m_v_component_of_wind" = Ret vs ->
  column df "total_precipitation" = Ret ps ->
  compute_storm_stress df
  = Ret (set_column
           (set_column
              (set_column df "wind_speed" (wind_speed_of us vs))
              "gust_proxy" (gust_proxy_of us vs))
           "storm_stress" (storm_stress_of us vs ps)).
Proof.
  intros Hu Hv Hp. unfold compute_storm_stress.
  rewrite Hu, Hv. cbn [bind].
  rewrite column_set_column_same. cbn [bind].
  rewrite column_set_column_same. cbn [bind].
  rewrite !column_set_column_other by discriminate.
  rewrite Hp. reflexivity.
Qed.

Lemma compute_storm_stress_no_precipitation (df : DataFrame) (us vs : Series) :
  column df "10m_u_component_of_wind" = Ret us ->
  column df "10m_v_component_of_wind" = Ret vs ->
  column df "total_precipitation" = Raise KeyError ->
  compute_storm_stress df = Raise KeyError.
Proof.
  intros Hu Hv Hp. unfold compute_storm_stress. rewrite Hu, Hv. cbn [bind].
  rewrite column_set_column_same. cbn [bind].
  rewrite column_set_column_same. cbn [bind].
  rewrite !column_set_column_other by discriminate.
  now rewrite Hp.
Qed.

(** X13. [compute_storm_stress] either returns a frame or raises
    [KeyError], and it raises exactly when one of the three input columns
    is missing from the frame. *)
Theorem compute_storm_stress_key_error (df : DataFrame) :
  ((exists df', compute_storm_stress df = Ret df') \/
   compute_storm_stress df = Raise KeyError) /\
  (compute_storm_stress df = Raise KeyError <->
   exists name,
     In name ["10m_u_component_of_wind"; "10m_v_component_of_wind";
              "total_precipitation"] /\
     column df name = Raise KeyError).
Proof.
  destruct (column_cases df "10m_u_component_of_wind") as [[us Hu] | Hu].
  - destruct (column_cases df "10m_v_component_of_wind") as [[vs Hv] | Hv].
    + destruct (column_cases df "total_precipitation") as [[ps Hp] | Hp].
      * rewrite (compute_storm_stress_frame df us vs ps Hu Hv Hp).
        split; [left; eexists; reflexivity |].
        split; [discriminate |].
        intros (name & [<- | [<- | [<- | []]]] & H); congruence.
      * pose proof (compute_storm_stress_no_precipitation df us vs Hu Hv Hp) as H.
        split; [now right |]. split; [| intros _; exact H].
        intros _. exists "total_precipitation". cbn. tauto.
    + assert (H : compute_storm_stress df = Raise KeyError)
        by (unfold compute_storm_stress; now rewrite Hu, Hv).
      split; [now right |]. split; [| intros _; exact H].
      intros _. exists "10m_v_component_of_wind". cbn. tauto.
  - assert (H : compute_storm_stress df = Raise KeyError)
      by (unfold compute_storm_stress; now rewrite Hu).
    split; [now right |]. split; [| intros _; exact H].
    intros _. exists "10m_u_component_of_wind". cbn. tauto.
Qed.

(** X14. In every row the score is [1.69 * (u^2 + v^2) + 10 * tp]: the
    square root of the wind speed cancels against the square of the gust.
    So the score is at least ten times the precipitation, and not negative
    when the precipitation is not. *)
Theorem compute_storm_stress_closed_form (df : DataFrame) (us vs ps : Series) :
  column df "10m_u_component_of_wind" = Ret us ->
  column df "10m_v_component_of_wind" = Ret vs ->
  column df "total_precipitation" = Ret ps ->
  exists df' ss,
    compute_storm_stress df = Ret df' /\
    column df' "storm_stress" = Ret ss /\
    forall (i : nat) (u v p : R),
      nth_error us i = Some u -> nth_error vs i = Some v ->
      nth_error ps i = Some p ->
      exists x, nth_error ss i = Some x /\
                x = 1.69 * (u ^ 2 + v ^ 2) + 10 * p /\
                10 * p <= x /\ (0 <= p -> 0 <= x).
Proof.
  intros Hu Hv Hp.
  destruct (compute_storm_stress_columns df us vs ps Hu Hv Hp)
    as (df' & Hrun & _ & Hss).
  exists df', (storm_stress_of us vs ps).
  split; [exact Hrun |]. split; [exact Hss |].
  intros i u v p Hiu Hiv Hip.
  destruct (storm_stress_of_row us vs ps i u v p Hiu Hiv Hip) as [_ Hrow].
  exists (stormStress (gust u v) p). split; [exact Hrow |].
  assert (Hsq : 0 <= u * u + v * v) by nra.
  assert (Heq : stormStress (gust u v) p = 1.69 * (u ^ 2 + v ^ 2) + 10 * p).
  { unfold stormStress, gust.
    pose proof (sqrt_sqrt _ Hsq) as Hq.
    set (q := sqrt (u * u + v * v)) in *. nra. }
  split; [exact Heq |]. rewrite Heq. split; [nra | intro; nra].
Qed.

Lemma compute_storm_stress_closed_form_witness :
  exists df' ss,
    compute_storm_stress era5_two_rows = Ret df' /\
    column df' "storm_stress" = Ret ss /\
    forall (i : nat) (u v p : R),
      nth_error [3; 0] i = Some u -> nth_error [4; 0] i = Some v ->
      nth_error [2; 1] i = Some p ->
      exists x, nth_error ss i = Some x /\
                x = 1.69 * (u ^ 2 + v ^ 2) + 10 * p /\
                10 * p <= x /\ (0 <= p -> 0 <= x).
Proof.
  apply (compute_storm_stress_closed_form era5_two_rows [3; 0] [4; 0] [2; 1]);
    reflexivity.
Defined.

Lemma rectangular_column (n : nat) (df : DataFrame) (name : string) (s : Series) :
  rectangular n df -> column df name = Ret s -> List.length s = n.
Proof.
  induction 1 as [| [k s0] rest Hc Hrest IH]; cbn; [discriminate |].
  destruct (String.eqb name k); [now intros [= <-] | exact IH].
Qed.

Lemma rectangular_set_column (n : nat) (df : DataFrame) (name : string) (s : Series) :
  rectangular n df -> List.length s = n -> rectangular n (set_column df name s).
Proof.
  intros Hdf Hs. induction Hdf as [| [k s0] rest Hc Hrest IH]; cbn.
  - repeat constructor. exact Hs.
  - destruct (String.eqb name k); constructor; assumption.
Qed.

Lemma length_wind_speed_of (us vs : Series) :
  List.length us = List.length vs ->
  List.length (wind_speed_of us vs) = List.length us.
Proof.
  intro H. unfold wind_speed_of, s_sqrt, s_pow.
  rewrite length_map, length_s_add; rewrite !length_map; congruence.
Qed.

Lemma length_storm_stress_of (us vs ps : Series) :
  List.length us = List.length vs -> List.length us = List.length ps ->
  List.length (storm_stress_of us vs ps) = List.length us.
Proof.
  intros Huv Hup. pose proof (length_wind_speed_of us vs Huv) as Hws.
  unfold storm_stress_of, gust_proxy_of, s_pow, s_mul.
  rewrite length_s_add; rewrite !length_map; congruence.
Qed.

(** X15. [compute_storm_stress] touches three columns only: every other
    column of the frame it returns is the column of the frame it was
    given, the three input columns among them; and a frame whose columns
    all have [n] entries comes back with all its columns at [n] entries. *)
Theorem compute_storm_stress_preserves (df df' : DataFrame) :
  compute_storm_stress df = Ret df' ->
  (forall name,
      ~ In name ["wind_speed"; "gust_proxy"; "storm_stress"] ->
      column df' name = column df name) /\
  (forall n, rectangular n df -> rectangular n df').
Proof.
  intro Hrun.
  destruct (column_cases df "10m_u_component_of_wind") as [[us Hu] | Hu];
    [| unfold compute_storm_stress in Hrun; rewrite Hu in Hrun; discriminate].
  destruct (column_cases df "10m_v_component_of_wind") as [[vs Hv] | Hv];
    [| unfold compute_storm_stress in Hrun; rewrite Hu, Hv in Hrun; discriminate].
  destruct (column_cases df "total_precipitation") as [[ps Hp] | Hp].
  - rewrite (compute_storm_stress_frame df us vs ps Hu Hv Hp) in Hrun.
    injection Hrun as <-. split.
    + intros name Hname.
      rewrite !column_set_column_other; [reflexivity | | |];
        intros ->; apply Hname; cbn; tauto.
    + intros n Hrect.
      pose proof (rectangular_column n df _ us Hrect Hu) as Lu.
      pose proof (rectangular_column n df _ vs Hrect Hv) as Lv.
      pose proof (rectangular_column n df _ ps Hrect Hp) as Lp.
      assert (Lws : List.length (wind_speed_of us vs) = n)
        by (rewrite length_wind_speed_of; congruence).
      repeat apply rectangular_set_column; try assumption.
      * unfold gust_proxy_of, s_mul. now rewrite length_map.
      * rewrite length_storm_stress_of; congruence.
  - rewrite (compute_storm_stress_no_precipitation df us vs Hu Hv Hp) in Hrun.
    discriminate.
Qed.

Lemma compute_storm_stress_preserves_witness :
  let df' :=
    set_column
      (set_column
         (set_column era5_two_rows "wind_speed" (wind_speed_of [3; 0] [4; 0]))
         "gust_proxy" (gust_proxy_of [3; 0] [4; 0]))
      "storm_stress" (storm_stress_of [3; 0] [4; 0] [2; 1]) in
  (forall name,
      ~ In name ["wind_speed"; "gust_proxy"; "storm_stress"] ->
      column df' name = column era5_two_rows name) /\
  (forall n, rectangular n era5_two_rows -> rectangular n df').
Proof.
  intro df'. apply (compute_storm_stress_preserves era5_two_rows df').
  reflexivity.
Defined.

Lemma set_column_same (df : DataFrame) (name : string) (s : Series) :
  column df name = Ret s -> set_column df name s = df.
Proof.
  induction df as [| [n s0] rest IH]; cbn; [discriminate |].
  destruct (String.eqb name n) eqn:E.
  - intros [= ->]. reflexivity.
  - intro H. now rewrite IH.
Qed.

(** X16. Running [compute_storm_stress] on the frame it has returned
    gives that frame again: the three columns are computed from the
    input columns, which it leaves as they are. *)
Theorem compute_storm_stress_idempotent (df df' : DataFrame) :
  compute_storm_stress df = Ret df' -> compute_storm_stress df' = Ret df'.
Proof.
  intro Hrun.
  destruct (column_cases df "10m_u_component_of_wind") as [[us Hu] | Hu];
    [| unfold compute_storm_stress in Hrun; rewrite Hu in Hrun; discriminate].
  destruct (column_cases df "10m_v_component_of_wind") as [[vs Hv] | Hv];
    [| unfold compute_storm_stress in Hrun; rewrite Hu, Hv in Hrun; discriminate].
  destruct (column_cases df "total_precipitation") as [[ps Hp] | Hp];
    [| rewrite (compute_storm_stress_no_precipitation df us vs Hu Hv Hp) in Hrun;
       discriminate].
  rewrite (compute_storm_stress_frame df us vs ps Hu Hv Hp) in Hrun.
  injection Hrun as <-.
  set (d1 := set_column df "wind_speed" (wind_speed_of us vs)).
  set (d2 := set_column d1 "gust_proxy" (gust_proxy_of us vs)).
  set (d3 := set_column d2 "storm_stress" (storm_stress_of us vs ps)).
  assert (Hu3 : column d3 "10m_u_component_of_wind" = Ret us)
    by (unfold d3, d2, d1; now rewrite !column_set_column_other by discriminate).
  assert (Hv3 : column d3 "10m_v_component_of_wind" = Ret vs)
    by (unfold d3, d2, d1; now rewrite !column_set_column_other by discriminate).
  assert (Hp3 : column d3 "total_precipitation" = Ret ps)
    by (unfold d3, d2, d1; now rewrite !column_set_column_other by discriminate).
  rewrite (compute_storm_stress_frame d3 us vs ps Hu3 Hv3 Hp3).
  assert (Hws : column d3 "wind_speed" = Ret (wind_speed_of us vs)).
  { unfold d3, d2, d1. rewrite !column_set_column_other by discriminate.
    apply column_set_column_same. }
  rewrite (set_column_same d3 _ _ Hws).
  assert (Hgp : column d3 "gust_proxy" = Ret (gust_proxy_of us vs)).
  { unfold d3, d2. rewrite column_set_column_other by discriminate.
    apply column_set_column_same. }
  rewrite (set_column_same d3 _ _ Hgp).
  assert (Hss : column d3 "storm_stress" = Ret (storm_stress_of us vs ps))
    by (unfold d3; apply column_set_column_same).
  now rewrite (set_column_same d3 _ _ Hss).
Qed.

Lemma compute_storm_stress_idempotent_witness :
  let df' :=
    set_column
      (set_column
         (set_column era5_two_rows "wind_speed" (wind_speed_of [3; 0] [4; 0]))
         "gust_proxy" (gust_proxy_of [3; 0] [4; 0]))
      "storm_stress" (storm_stress_of [3; 0] [4; 0] [2; 1]) in
  compute_storm_stress df' = Ret df'.
Proof.
  intro df'. apply (compute_storm_stress_idempotent era5_two_rows df').
  reflexivity.
Defined.

End FrameFacts.

(* ----------------------------------------------------------------- *)
(** *** The statistics of the score *)

Section StatisticsFacts.
Import StormStress Statistics Spec Sample.

Lemma fold_Rmin_head (rest : list R) (x : R) : fold_left Rmin rest x <= x.
Proof.
  revert x. induction rest as [| z rest IH]; intros x; cbn; [lra |].
  pose proof (IH (Rmin x z)). pose proof (Rmin_l x z). lra.
Qed.

Lemma fold_Rmax_head (rest : list R) (x : R) : x <= fold_left Rmax rest x.
Proof.
  revert x. induction rest as [| z rest IH]; intros x; cbn; [lra |].
  pose proof (IH (Rmax x z)). pose proof (Rmax_l x z). lra.
Qed.

Lemma fold_Rmin_le (rest : list R) (x y : R) :
  In y (x :: rest) -> fold_left Rmin rest x <= y.
Proof.
  revert x. induction rest as [| z rest IH]; intros x Hy; cbn.
  - destruct Hy as [E | []]. lra.
  - assert (Hm : fold_left Rmin rest (Rmin x z) <= Rmin x z)
      by (apply fold_Rmin_head).
    destruct Hy as [E | [E | Hy]].
    + rewrite <- E. pose proof (Rmin_l x z). lra.
    + rewrite <- E. pose proof (Rmin_r x z). lra.
    + apply IH. now right.
Qed.

Lemma fold_Rmin_In (rest : list R) (x : R) : In (fold_left Rmin rest x) (x :: rest).
Proof.
  revert x. induction rest as [| z rest IH]; intros x; cbn.
  - now left.
  - destruct (IH (Rmin x z)) as [H | H].
    + rewrite <- H. unfold Rmin. destruct (Rle_dec x z); tauto.
    + tauto.
Qed.

Lemma fold_Rmax_ge (rest : list R) (x y : R) :
  In y (x :: rest) -> y <= fold_left Rmax rest x.
Proof.
  revert x. induction rest as [| z rest IH]; intros x Hy; cbn.
  - destruct Hy as [E | []]. lra.
  - assert (Hm : Rmax x z <= fold_left Rmax rest (Rmax x z))
      by (apply fold_Rmax_head).
    destruct Hy as [E | [E | Hy]].
    + rewrite <- E. pose proof (Rmax_l x z). lra.
    + rewrite <- E. pose proof (Rmax_r x z). lra.
    + apply IH. now right.
Qed.

Lemma fold_Rmax_In (rest : list R) (x : R) : In (fold_left Rmax rest x) (x :: rest).
Proof.
  revert x. induction rest as [| z rest IH]; intros x; cbn.
  - now left.
  - destruct (IH (Rmax x z)) as [H | H].
    + rewrite <- H. unfold Rmax. destruct (Rle_dec x z); tauto.
    + tauto.
Qed.

(** The least and the greatest value of a column that is not empty. *)
Lemma s_min_spec (s : Series) :
  s <> [] -> exists m, s_min s = Some m /\ In m s /\ forall y, In y s -> m <= y.
Proof.
  destruct s as [| x rest]; [congruence | intros _].
  exists (fold_left Rmin rest x). split; [reflexivity |].
  split; [apply fold_Rmin_In | apply fold_Rmin_le].
Qed.

Lemma s_max_spec (s : Series) :
  s <> [] -> exists m, s_max s = Some m /\ In m s /\ forall y, In y s -> y <= m.
Proof.
  destruct s as [| x rest]; [congruence | intros _].
  exists (fold_left Rmax rest x). split; [reflexivity |].
  split; [apply fold_Rmax_In | apply fold_Rmax_ge].
Qed.

Lemma ascending_sorted (s : Series) : StronglySorted Rle (ascending s).
Proof. exact (sort_sorted (fun x => x) s). Qed.

Lemma ascending_perm (s : Series) : Permutation (ascending s) s.
Proof. exact (sort_perm (fun x => x) s). Qed.

Lemma ascending_length (s : Series) : List.length (ascending s) = List.length s.
Proof. apply Permutation_length, ascending_perm. Qed.

Lemma ascending_nth_In (s : Series) (i : nat) :
  (i < List.length s)%nat -> In (nth i (ascending s) 0) s.
Proof.
  intro Hi. apply (Permutation_in _ (ascending_perm s)).
  apply nth_In. now rewrite ascending_length.
Qed.

Lemma sorted_nth_le (l : list R) (i j : nat) :
  StronglySorted Rle l -> (i <= j < List.length l)%nat ->
  nth i l 0 <= nth j l 0.
Proof.
  intro Hs. revert i j. induction Hs as [| x l Hs IH Hx]; intros i j Hij.
  - cbn in Hij. lia.
  - destruct i as [| i], j as [| j]; cbn [nth].
    + lra.
    + rewrite Forall_forall in Hx. apply Hx, nth_In. cbn in Hij. lia.
    + lia.
    + apply IH. cbn in Hij. lia.
Qed.

Lemma s_quantile_interpolate (s : Series) (q : R) :
  s <> [] ->
  s_quantile s q
  = Some (interpolate (ascending s) (List.length s) ((INR (List.length s) - 1) * q)).
Proof. destruct s; [congruence | reflexivity]. Qed.

Lemma Zfloor_position (n : nat) (pos : R) :
  (0 < n)%nat -> 0 <= pos <= INR n - 1 ->
  (Z.to_nat (Zfloor pos) <= n - 1)%nat /\
  IZR (Zfloor pos) <= pos < IZR (Zfloor pos) + 1.
Proof.
  intros Hn [H0 H1]. split; [| apply Zfloor_bound].
  assert (Hz : (0 <= Zfloor pos)%Z) by (apply Zfloor_lub; cbn; lra).
  assert (Hle : (Zfloor pos <= Z.of_nat n - 1)%Z).
  { apply le_IZR. rewrite minus_IZR, <- INR_IZR_INZ.
    pose proof (Zfloor_bound pos). cbn. lra. }
  lia.
Qed.

Lemma interpolate_between (l : list R) (n : nat) (pos : R) :
  StronglySorted Rle l -> List.length l = n -> (0 < n)%nat ->
  0 <= pos <= INR n - 1 ->
  nth (Z.to_nat (Zfloor pos)) l 0 <= interpolate l n pos
  <= nth (Nat.min (Z.to_nat (Zfloor pos) + 1) (n - 1)) l 0.
Proof.
  intros Hs Hlen Hn Hpos.
  destruct (Zfloor_position n pos Hn Hpos) as [Hk Hfrac].
  unfold interpolate. cbv zeta.
  set (k := Z.to_nat (Zfloor pos)) in *.
  assert (Hab : nth k l 0 <= nth (Nat.min (k + 1) (n - 1)) l 0)
    by (apply sorted_nth_le; [exact Hs | lia]).
  nra.
Qed.

Lemma interpolate_monotone (l : list R) (n : nat) (pos pos' : R) :
  StronglySorted Rle l -> List.length l = n -> (0 < n)%nat ->
  0 <= pos -> pos <= pos' -> pos' <= INR n - 1 ->
  interpolate l n pos <= interpolate l n pos'.
Proof.
  intros Hs Hlen Hn H0 Hle H1.
  destruct (Zfloor_position n pos Hn ltac:(lra)) as [Hk Hfrac].
  destruct (Zfloor_position n pos' Hn ltac:(lra)) as [Hk' Hfrac'].
  pose proof (interpolate_between l n pos Hs Hlen Hn ltac:(lra)) as [_ Hup].
  pose proof (interpolate_between l n pos' Hs Hlen Hn ltac:(lra)) as [Hlow' _].
  assert (Hz : (0 <= Zfloor pos)%Z) by (apply Zfloor_lub; cbn; lra).
  pose proof (Zfloor_le pos pos' Hle) as Hzz.
  destruct (Z.eq_dec (Zfloor pos) (Zfloor pos')) as [E | NE].
  - unfold interpolate. cbv zeta. rewrite <- E in *.
    set (k := Z.to_nat (Zfloor pos)) in *.
    assert (Hab : nth k l 0 <= nth (Nat.min (k + 1) (n - 1)) l 0)
      by (apply sorted_nth_le; [exact Hs | lia]).
    nra.
  - transitivity (nth (Nat.min (Z.to_nat (Zfloor pos) + 1) (n - 1)) l 0);
      [exact Hup |].
    transitivity (nth (Z.to_nat (Zfloor pos')) l 0); [| exact Hlow'].
    apply sorted_nth_le; [exact Hs | lia].
Qed.

Lemma get_stress_statistics_column (df : DataFrame) (col : Series) :
  column df "storm_stress" = Ret col ->
  get_stress_statistics df
  = Ret {| mean := s_mean col; max := s_max col; min := s_min col;
           std := s_std col; median := s_median col;
           percentile_90 := s_quantile col 0.90;
           percentile_95 := s_quantile col 0.95 |}.
Proof. intro H. unfold get_stress_statistics. rewrite H. reflexivity. Qed.

Lemma s_quantile_single (x q : R) : s_quantile [x] q = Some x.
Proof.
  unfold s_quantile. cbv zeta. cbn [List.length INR].
  replace ((1 - 1) * q) with (IZR 0) by (cbn; ring).
  rewrite ZfloorZ. cbn. f_equal. ring.
Qed.

(** X17. [get_stress_statistics] raises [KeyError] when the frame has no
    [storm_stress] column. With the column empty, every one of the seven
    statistics is NaN; with one value in it, the standard deviation is
    NaN and the other six are that value. *)
Theorem get_stress_statistics_edges (df : DataFrame) :
  (column df "storm_stress" = Raise KeyError ->
   get_stress_statistics df = Raise KeyError) /\
  (column df "storm_stress" = Ret [] ->
   get_stress_statistics df
   = Ret {| mean := None; max := None; min := None; std := None;
            median := None; percentile_90 := None; percentile_95 := None |}) /\
  (forall x,
      column df "storm_stress" = Ret [x] ->
      get_stress_statistics df
      = Ret {| mean := Some x; max := Some x; min := Some x; std := None;
               median := Some x; percentile_90 := Some x;
               percentile_95 := Some x |}).
Proof.
  split; [| split].
  - intro H. unfold get_stress_statistics. now rewrite H.
  - intro H. now rewrite (get_stress_statistics_column df [] H).
  - intros x H. rewrite (get_stress_statistics_column df [x] H).
    rewrite !s_quantile_single. cbn. do 2 f_equal. f_equal. field.
Qed.

Lemma get_stress_statistics_edges_witness :
  get_stress_statistics era5_two_rows = Raise KeyError /\
  get_stress_statistics [("storm_stress", [])]
  = Ret {| mean := None; max := None; min := None; std := None;
           median := None; percentile_90 := None; percentile_95 := None |} /\
  get_stress_statistics [("storm_stress", [62.25])]
  = Ret {| mean := Some 62.25; max := Some 62.25; min := Some 62.25; std := None;
           median := Some 62.25; percentile_90 := Some 62.25;
           percentile_95 := Some 62.25 |}.
Proof.
  split; [| split].
  - apply (proj1 (get_stress_statistics_edges era5_two_rows)). reflexivity.
  - apply (proj1 (proj2 (get_stress_statistics_edges [("storm_stress", [])]))).
    reflexivity.
  - apply (proj2 (proj2 (get_stress_statistics_edges [("storm_stress", [62.25])]))).
    reflexivity.
Defined.

Lemma s_quantile_bounds (s : Series) (q lo hi : R) :
  s <> [] -> 0 <= q <= 1 -> (forall y, In y s -> lo <= y <= hi) ->
  exists v, s_quantile s q = Some v /\ lo <= v <= hi.
Proof.
  intros Hne Hq Hb. rewrite (s_quantile_interpolate s q Hne).
  eexists. split; [reflexivity |].
  assert (Hn : (0 < List.length s)%nat) by (destruct s; [congruence | cbn; lia]).
  assert (Hn1 : 1 <= INR (List.length s))
    by (change 1 with (INR 1); apply le_INR; lia).
  assert (Hpos : 0 <= (INR (List.length s) - 1) * q <= INR (List.length s) - 1)
    by (split; nra).
  destruct (Zfloor_position _ _ Hn Hpos) as [Hk _].
  destruct (interpolate_between (ascending s) (List.length s) _
              (ascending_sorted s) (ascending_length s) Hn Hpos) as [Hl Hu].
  pose proof (Hb _ (ascending_nth_In s (Z.to_nat (Zfloor ((INR (List.length s) - 1) * q)))
                      ltac:(lia))) as Ha.
  pose proof (Hb _ (ascending_nth_In s
                      (Nat.min (Z.to_nat (Zfloor ((INR (List.length s) - 1) * q)) + 1)
                               (List.length s - 1)) ltac:(lia))) as Hbb.
  lra.
Qed.

Lemma s_quantile_monotone (s : Series) (q q' : R) :
  s <> [] -> 0 <= q -> q <= q' -> q' <= 1 ->
  exists v v', s_quantile s q = Some v /\ s_quantile s q' = Some v' /\ v <= v'.
Proof.
  intros Hne H0 Hle H1. rewrite !(s_quantile_interpolate s _ Hne).
  do 2 eexists. split; [reflexivity |]. split; [reflexivity |].
  assert (Hn : (0 < List.length s)%nat) by (destruct s; [congruence | cbn; lia]).
  assert (Hn1 : 1 <= INR (List.length s))
    by (change 1 with (INR 1); apply le_INR; lia).
  apply interpolate_monotone;
    [apply ascending_sorted | apply ascending_length | exact Hn | nra | nra | nra].
Qed.

Lemma s_median_bounds (s : Series) (lo hi : R) :
  s <> [] -> (forall y, In y s -> lo <= y <= hi) ->
  exists v, s_median s = Some v /\ lo <= v <= hi.
Proof.
  intros Hne Hb.
  assert (Hn : (0 < List.length s)%nat) by (destruct s; [congruence | cbn; lia]).
  assert (Hhalf : (List.length s / 2 < List.length s)%nat)
    by (apply Nat.div_lt; lia).
  pose proof (Hb _ (ascending_nth_In s (List.length s / 2) Hhalf)) as H2.
  pose proof (Hb _ (ascending_nth_In s (List.length s / 2 - 1) ltac:(lia))) as H1.
  unfold s_median. destruct s as [| x rest]; [congruence |]. cbv zeta.
  destruct (Nat.even (List.length (x :: rest))); eexists; (split; [reflexivity |]); lra.
Qed.

(** X18. For a [storm_stress] column that is not empty, the minimum and
    the maximum are values of the column, and the median and the two
    percentiles lie between them, the 90th percentile not above the 95th;
    the standard deviation, when it is a number, is not negative. *)
Theorem get_stress_statistics_order (df : DataFrame) (col : Series) :
  column df "storm_stress" = Ret col -> col <> [] ->
  exists st lo hi md p90 p95,
    get_stress_statistics df = Ret st /\
    min st = Some lo /\ max st = Some hi /\
    median st = Some md /\
    percentile_90 st = Some p90 /\ percentile_95 st = Some p95 /\
    In lo col /\ In hi col /\
    (forall y, In y col -> lo <= y <= hi) /\
    lo <= md <= hi /\
    lo <= p90 /\ p90 <= p95 /\ p95 <= hi /\
    (forall sd, std st = Some sd -> 0 <= sd).
Proof.
  intros Hcol Hne.
  destruct (s_min_spec col Hne) as (lo & Hmin & Hlo_in & Hlo).
  destruct (s_max_spec col Hne) as (hi & Hmax & Hhi_in & Hhi).
  assert (Hb : forall y, In y col -> lo <= y <= hi)
    by (intros y Hy; split; [now apply Hlo | now apply Hhi]).
  destruct (s_median_bounds col lo hi Hne Hb) as (md & Hmed & Hmd).
  destruct (s_quantile_bounds col 0.90 lo hi Hne ltac:(lra) Hb) as (p90 & H90 & Hp90).
  destruct (s_quantile_bounds col 0.95 lo hi Hne ltac:(lra) Hb) as (p95 & H95 & Hp95).
  destruct (s_quantile_monotone col 0.90 0.95 Hne ltac:(lra) ltac:(lra) ltac:(lra))
    as (v & v' & Hv & Hv' & Hvv).
  rewrite H90 in Hv. rewrite H95 in Hv'.
  injection Hv as <-. injection Hv' as <-.
  eexists. exists lo, hi, md, p90, p95.
  split; [apply (get_stress_statistics_column df col Hcol) |].
  cbn [min max mean median percentile_90 percentile_95 std].
  repeat (split; [first [assumption | lra] |]).
  intros sd Hsd. unfold s_std in Hsd.
  destruct col as [| x [| y rest]]; try discriminate.
  injection Hsd as <-. apply sqrt_pos.
Qed.

Lemma get_stress_statistics_order_witness :
  exists st lo hi md p90 p95,
    get_stress_statistics [("storm_stress", [62.25; 10; 35])] = Ret st /\
    min st = Some lo /\ max st = Some hi /\
    median st = Some md /\
    percentile_90 st = Some p90 /\ percentile_95 st = Some p95 /\
    In lo [62.25; 10; 35] /\ In hi [62.25; 10; 35] /\
    (forall y, In y [62.25; 10; 35] -> lo <= y <= hi) /\
    lo <= md <= hi /\
    lo <= p90 /\ p90 <= p95 /\ p95 <= hi /\
    (forall sd, std st = Some sd -> 0 <= sd).
Proof.
  apply (get_stress_statistics_order [("storm_stress", [62.25; 10; 35])]
           [62.25; 10; 35]).
  - reflexivity.
  - discriminate.
Defined.

(** Two ascending lists with the same values are the same list. *)
Lemma sorted_perm_eq (l l' : list R) :
  StronglySorted Rle l -> StronglySorted Rle l' -> Permutation l l' -> l = l'.
Proof.
  intro Hs. revert l'. induction Hs as [| x l Hs IH Hx]; intros l' Hs' Hp.
  - apply Permutation_nil in Hp. now subst.
  - destruct l' as [| x' l'];
      [apply Permutation_sym, Permutation_nil in Hp; discriminate |].
    inversion Hs' as [| ? ? Hs'' Hx']; subst.
    assert (E : x = x').
    { rewrite Forall_forall in Hx, Hx'.
      assert (H1 : In x (x' :: l')) by (apply (Permutation_in _ Hp); now left).
      assert (H2 : In x' (x :: l))
        by (apply (Permutation_in _ (Permutation_sym Hp)); now left).
      destruct H1 as [E | H1]; [now symmetry |].
      destruct H2 as [E | H2]; [exact E |].
      pose proof (Hx _ H2). pose proof (Hx' _ H1). lra. }
    subst x'. f_equal. apply IH; [exact Hs'' |].
    now apply Permutation_cons_inv with (a := x).
Qed.

Lemma ascending_perm_eq (l l' : Series) :
  Permutation l l' -> ascending l = ascending l'.
Proof.
  intro Hp. apply sorted_perm_eq; try apply ascending_sorted.
  rewrite (ascending_perm l), Hp. symmetry. apply ascending_perm.
Qed.

Lemma s_min_perm (l l' : Series) : Permutation l l' -> s_min l = s_min l'.
Proof.
  intro Hp. destruct l as [| x rest].
  - apply Permutation_nil in Hp. now subst.
  - assert (Hne' : l' <> [])
      by (intros ->; apply Permutation_sym, Permutation_nil in Hp; discriminate).
    destruct (s_min_spec (x :: rest) ltac:(discriminate)) as (m & -> & Hin & Hle).
    destruct (s_min_spec l' Hne') as (m' & -> & Hin' & Hle').
    f_equal. apply Rle_antisym.
    + apply Hle, (Permutation_in _ (Permutation_sym Hp)), Hin'.
    + apply Hle', (Permutation_in _ Hp), Hin.
Qed.

Lemma s_max_perm (l l' : Series) : Permutation l l' -> s_max l = s_max l'.
Proof.
  intro Hp. destruct l as [| x rest].
  - apply Permutation_nil in Hp. now subst.
  - assert (Hne' : l' <> [])
      by (intros ->; apply Permutation_sym, Permutation_nil in Hp; discriminate).
    destruct (s_max_spec (x :: rest) ltac:(discriminate)) as (m & -> & Hin & Hle).
    destruct (s_max_spec l' Hne') as (m' & -> & Hin' & Hle').
    f_equal. apply Rle_antisym.
    + apply Hle', (Permutation_in _ Hp), Hin.
    + apply Hle, (Permutation_in _ (Permutation_sym Hp)), Hin'.
Qed.

(** X19. The minimum, the maximum, the median and the two percentiles
    do not depend on the order of the rows: two frames whose
    [storm_stress] columns hold the same values, in any order, get the
    same five statistics. *)
Theorem get_stress_statistics_order_free (df df' : DataFrame) (col col' : Series) :
  column df "storm_stress" = Ret col -> column df' "storm_stress" = Ret col' ->
  Permutation col col' ->
  exists st st',
    get_stress_statistics df = Ret st /\ get_stress_statistics df' = Ret st' /\
    min st = min st' /\ max st = max st' /\ median st = median st' /\
    percentile_90 st = percentile_90 st' /\
    percentile_95 st = percentile_95 st'.
Proof.
  intros Hcol Hcol' Hp.
  rewrite (get_stress_statistics_column df col Hcol),
          (get_stress_statistics_column df' col' Hcol').
  pose proof (Permutation_length Hp) as Hlen.
  pose proof (ascending_perm_eq _ _ Hp) as Hasc.
  do 2 eexists. split; [reflexivity |]. split; [reflexivity |].
  cbn [min max median percentile_90 percentile_95].
  split; [now apply s_min_perm |]. split; [now apply s_max_perm |].
  split; [| split].
  - unfold s_median. destruct col, col'; try (cbn in Hlen; lia); [reflexivity |].
    now rewrite Hasc, Hlen.
  - unfold s_quantile. destruct col, col'; try (cbn in Hlen; lia); [reflexivity |].
    cbv zeta. now rewrite Hasc, Hlen.
  - unfold s_quantile. destruct col, col'; try (cbn in Hlen; lia); [reflexivity |].
    cbv zeta. now rewrite Hasc, Hlen.
Qed.

Lemma get_stress_statistics_order_free_witness :
  exists st st',
    get_stress_statistics [("storm_stress", [62.25; 10; 35])] = Ret st /\
    get_stress_statistics [("event", [1; 2; 3]); ("storm_stress", [10; 35; 62.25])]
    = Ret st' /\
    min st = min st' /\ max st = max st' /\ median st = median st' /\
    percentile_90 st = percentile_90 st' /\
    percentile_95 st = percentile_95 st'.
Proof.
  apply (get_stress_statistics_order_free _ _ [62.25; 10; 35] [10; 35; 62.25]);
    try reflexivity.
  exact (Permutation_cons_append [10; 35] 62.25).
Defined.

Lemma storm_stress_of_nonneg (us vs ps : Series) (y : R) :
  List.length us = List.length vs -> List.length us = List.length ps ->
  Forall (fun p => 0 <= p) ps ->
  In y (storm_stress_of us vs ps) -> 0 <= y.
Proof.
  intros Luv Lup Hps Hy.
  apply In_nth_error in Hy as [i Hi].
  assert (Hlt : (i < List.length (storm_stress_of us vs ps))%nat)
    by (apply nth_error_Some; congruence).
  rewrite length_storm_stress_of in Hlt by assumption.
  destruct (nth_error us i) as [u |] eqn:Hu;
    [| apply nth_error_None in Hu; lia].
  destruct (nth_error vs i) as [v |] eqn:Hv;
    [| apply nth_error_None in Hv; lia].
  destruct (nth_error ps i) as [p |] eqn:Hp;
    [| apply nth_error_None in Hp; lia].
  destruct (storm_stress_of_row us vs ps i u v p Hu Hv Hp) as [_ Hrow].
  rewrite Hrow in Hi. injection Hi as <-.
  rewrite Forall_forall in Hps. pose proof (Hps p (nth_error_In _ _ Hp)).
  unfold stormStress. nra.
Qed.

(** X20. The statistics can always be taken of the frame that
    [compute_storm_stress] returns: [get_stress_statistics] does not
    raise on it. When the three input columns have one length, at least
    one row, and no negative precipitation, the minimum is a number and
    is not negative. *)
Theorem get_stress_statistics_after_compute (df df' : DataFrame) :
  compute_storm_stress df = Ret df' ->
  (exists st, get_stress_statistics df' = Ret st) /\
  (forall us vs ps,
      column df "10m_u_component_of_wind" = Ret us ->
      column df "10m_v_component_of_wind" = Ret vs ->
      column df "total_precipitation" = Ret ps ->
      List.length us = List.length vs -> List.length us = List.length ps ->
      us <> [] -> Forall (fun p => 0 <= p) ps ->
      exists st lo,
        get_stress_statistics df' = Ret st /\ min st = Some lo /\ 0 <= lo).
Proof.
  intro Hrun.
  destruct (column_cases df "10m_u_component_of_wind") as [[us Hu] | Hu];
    [| unfold compute_storm_stress in Hrun; rewrite Hu in Hrun; discriminate].
  destruct (column_cases df "10m_v_component_of_wind") as [[vs Hv] | Hv];
    [| unfold compute_storm_stress in Hrun; rewrite Hu, Hv in Hrun; discriminate].
  destruct (column_cases df "total_precipitation") as [[ps Hp] | Hp];
    [| rewrite (compute_storm_stress_no_precipitation df us vs Hu Hv Hp) in Hrun;
       discriminate].
  destruct (compute_storm_stress_columns df us vs ps Hu Hv Hp)
    as (df'' & Hrun' & _ & Hss).
  rewrite Hrun in Hrun'. injection Hrun' as <-.
  split.
  - eexists. apply (get_stress_statistics_column df' _ Hss).
  - intros us' vs' ps' Hu' Hv' Hp' Luv Lup Hne Hpos.
    rewrite Hu in Hu'. rewrite Hv in Hv'. rewrite Hp in Hp'.
    injection Hu' as <-. injection Hv' as <-. injection Hp' as <-.
    assert (Hne' : storm_stress_of us vs ps <> []).
    { intro E. apply (f_equal (@List.length R)) in E.
      rewrite length_storm_stress_of in E by assumption.
      destruct us; [congruence | discriminate]. }
    destruct (s_min_spec _ Hne') as (lo & Hmin & Hin & _).
    eexists. exists lo.
    split; [apply (get_stress_statistics_column df' _ Hss) |].
    split; [exact Hmin |].
    now apply (storm_stress_of_nonneg us vs ps).
Qed.

Lemma get_stress_statistics_after_compute_witness :
  let df' :=
    set_column
      (set_column
         (set_column era5_two_rows "wind_speed" (wind_speed_of [3; 0] [4; 0]))
         "gust_proxy" (gust_proxy_of [3; 0] [4; 0]))
      "storm_stress" (storm_stress_of [3; 0] [4; 0] [2; 1]) in
  (exists st, get_stress_statistics df' = Ret st) /\
  (exists st lo,
      get_stress_statistics df' = Ret st /\ min st = Some lo /\ 0 <= lo).
Proof.
  intro df'.
  destruct (get_stress_statistics_after_compute era5_two_rows df' eq_refl)
    as [H1 H2].
  split; [exact H1 |].
  apply (H2 [3; 0] [4; 0] [2; 1]); try reflexivity.
  - discriminate.
  - repeat constructor; lra.
Defined.

End StatisticsFacts.

(* ----------------------------------------------------------------- *)
(** *** The runs of the script *)

Section DashboardFacts.
Import Routing OpenMeteo App StormStress Panel Dashboard Spec Sample.

Lemma sidebar_blocked (wd : widgets) (s : session) (src : string) :
  location_source s = Some src -> src <> "gps" -> sidebar wd s = s.
Proof.
  intros Hsrc Hne. unfold sidebar.
  destruct (geolocation wd) as [[lat lon] |]; [| reflexivity].
  rewrite Hsrc. apply String.eqb_neq in Hne. now rewrite Hne.
Qed.

Lemma sidebar_gps (wd : widgets) (s : session) (lat lon : R) :
  geolocation wd = Some (lat, lon) ->
  location_source s = None \/ location_source s = Some "gps" ->
  prepare wd s = {| location := Some (lat, lon); source := "gps"; route := JNull |}.
Proof.
  intros Hgeo Hsrc. unfold prepare, sidebar. rewrite Hgeo.
  destruct Hsrc as [-> | ->]; reflexivity.
Qed.

Lemma risk_card_net (u_lat u_lon : R) (m : net meteo_params) :
  snd (risk_card u_lat u_lon m)
  = {| answer := answer m; calls := calls m ++ [(u_lat, u_lon)] |}.
Proof.
  unfold risk_card, io_bind, io_lift, io_ret.
  pose proof (fetch_realtime_weather_net u_lat u_lon m) as Hnet.
  destruct (fetch_realtime_weather u_lat u_lon m) as [[weather | e] m'];
    cbn [snd] in *; [| exact Hnet].
  destruct (storm_stress weather); exact Hnet.
Qed.

(** What the details panel does to the state, the providers and the
    view. *)
Lemma details_effect (camps : list camp) (wd : widgets) (st : state) (w : world)
      (v : view) :
  forall how st' w' v',
    details camps wd st w v = (how, st', w', v') ->
    drawn_route v' = drawn_route v /\
    (st' = st \/
     (how = Rerun /\ draw_clicked wd = true /\
      exists r, truthy r = true /\
                st' = {| location := location st; source := source st;
                         route := r |})) /\
    answer (meteo w') = answer (meteo w) /\
    answer (osrm w') = answer (osrm w) /\
    (calls (meteo w') = calls (meteo w) \/
     exists u, location st = Some u /\ calls (meteo w') = calls (meteo w) ++ [u]) /\
    (calls (osrm w') = calls (osrm w) \/
     (draw_clicked wd = true /\
      exists u c, location st = Some u /\ In c camps /\
                  calls (osrm w')
                  = calls (osrm w) ++ [route_url u (latitude c, longitude c)])).
Proof.
  intros how st' w' v' H. unfold details in H.
  destruct (location st) as [[u_lat u_lon] |] eqn:Hloc.
  2:{ injection H as <- <- <- <-. repeat split; auto. }
  pose proof (risk_card_net u_lat u_lon (meteo w)) as Hm.
  destruct (risk_card u_lat u_lon (meteo w)) as [card m']. cbn [snd] in Hm. subst m'.
  assert (Hmeteo :
            exists u, Some (u_lat, u_lon) = Some u /\
                      calls (meteo w) ++ [(u_lat, u_lon)] = calls (meteo w) ++ [u])
    by (now exists (u_lat, u_lon)).
  destruct card as [card | e].
  2:{ injection H as <- <- <- <-. cbn. repeat split; auto. }
  destruct (nearest_camp_scan u_lat u_lon camps) as [[[c |] min_dist] | e] eqn:Hscan.
  2:{ injection H as <- <- <- <-. cbn. repeat split; auto. }
  2:{ injection H as <- <- <- <-. cbn. repeat split; auto. }
  assert (Hc : In c camps).
  { destruct camps as [| x rest]; [discriminate Hscan |].
    destruct (scan_camps_nonempty u_lat u_lon x rest) as (i & c0 & Hs & Hf).
    rewrite Hs in Hscan. injection Hscan as <- _.
    destruct Hf as (Hnth & _). now apply nth_error_In in Hnth. }
  destruct (draw_clicked wd) eqn:Hdraw.
  2:{ injection H as <- <- <- <-. cbn. repeat split; auto. }
  pose proof (get_fastest_route_net (u_lat, u_lon) (latitude c, longitude c) (osrm w))
    as Ho.
  destruct (get_fastest_route (u_lat, u_lon) (latitude c, longitude c) (osrm w))
    as [found o']. cbn [snd] in Ho. subst o'.
  assert (Hosrm :
            true = true /\
            exists u c0, Some (u_lat, u_lon) = Some u /\ In c0 camps /\
                         calls (osrm w)
                         ++ [route_url (u_lat, u_lon) (latitude c, longitude c)]
                         = calls (osrm w) ++ [route_url u (latitude c0, longitude c0)])
    by (split; [reflexivity | now exists (u_lat, u_lon), c]).
  destruct found as [r | e].
  2:{ injection H as <- <- <- <-. cbn. repeat split; auto. }
  destruct (truthy r) eqn:Htruthy.
  2:{ injection H as <- <- <- <-. cbn. repeat split; auto. }
  destruct (field_div r "duration" 60) as [t_mins | e].
  2:{ injection H as <- <- <- <-. cbn. repeat split; auto. }
  injection H as <- <- <- <-. cbn. repeat split; auto.
  right. repeat split; auto. now exists r.
Qed.

(** What a run does: the state it leaves is the prepared one, or that of
    a click, or the prepared one with a new route. *)
Lemma run_effect (camps : list camp) (wd : widgets) (s : session) (w : world) :
  forall how s' w' v',
    run camps wd s w = (how, s', w', v') ->
    exists st',
      s' = store st' /\
      (st' = prepare wd s \/
       (exists p, last_clicked wd = Some p /\ st' = manual p /\ how = Rerun /\ w' = w) \/
       (how = Rerun /\ draw_clicked wd = true /\
        exists r, truthy r = true /\
                  st' = {| location := location (prepare wd s);
                           source := source (prepare wd s); route := r |})).
Proof.
  intros how s' w' v' H. unfold run in H. fold (prepare wd s) in H.
  destruct (drawn_on_map (prepare wd s)) as [drawn | e].
  2:{ injection H as <- <- <- <-. eexists. split; [reflexivity | now left]. }
  destruct (map_click wd (prepare wd s)) as [st1 |] eqn:Hclick.
  - injection H as <- <- <- <-. exists st1. split; [reflexivity |].
    right. left. unfold map_click in Hclick.
    destruct (last_clicked wd) as [p |]; [| discriminate].
    exists p. split; [reflexivity |].
    destruct (match location (prepare wd s) with
              | Some u => coord_neq u p
              | None => true
              end); [| discriminate].
    injection Hclick as <-. repeat split.
  - destruct (details camps wd (prepare wd s) w
                {| drawn_route := drawn; risk := None; nearest := None |})
      as [[[how1 st1] w1] v1] eqn:Hd.
    injection H as <- <- <- <-.
    destruct (details_effect _ _ _ _ _ _ _ _ _ Hd) as (_ & Hst & _).
    exists st1. split; [reflexivity |].
    destruct Hst as [-> | (Hhow & Hdraw & r & Hr & ->)]; [now left |].
    right. right. repeat split; auto. now exists r.
Qed.

Lemma runs_cons (camps : list camp) (wd : widgets) (rest : list widgets)
      (s : session) (w : world) :
  runs camps (wd :: rest) s w
  = runs camps rest (snd (fst (fst (run camps wd s w))))
                    (snd (fst (run camps wd s w))).
Proof.
  cbn [runs]. destruct (run camps wd s w) as [[[how s'] w'] v']. reflexivity.
Qed.

(** While the source is not ["gps"], runs change the location by clicks
    only. *)
Lemma runs_source_blocked (camps : list camp) (wds : list widgets)
        (s : session) (w : world) (src : string) :
  location_source s = Some src -> src <> "gps" ->
  (exists src', location_source (fst (runs camps wds s w)) = Some src' /\
                src' <> "gps") /\
  (current_location (fst (runs camps wds s w)) = current_location s \/
   exists wd p, In wd wds /\ last_clicked wd = Some p /\
                current_location (fst (runs camps wds s w)) = Some p).
Proof.
  revert s w src. induction wds as [| wd rest IH]; intros s w src Hsrc Hne.
  - cbn. split; [now exists src | now left].
  - rewrite runs_cons.
    destruct (run camps wd s w) as [[[how s1] w1] v1] eqn:Hrun. cbn [fst snd].
    destruct (run_effect camps wd s w how s1 w1 v1 Hrun) as (st1 & -> & Hst).
    assert (Hprep : prepare wd s = state_defaults s)
      by (unfold prepare; now rewrite (sidebar_blocked wd s src Hsrc Hne)).
    assert (Hsrc0 : source (state_defaults s) = src)
      by (unfold state_defaults; cbn; now rewrite Hsrc).
    assert (Hloc0 : location (state_defaults s) = current_location s).
    { unfold state_defaults, current_location. cbn.
      destruct (user_location s) as [[p |] |]; reflexivity. }
    rewrite Hprep in Hst.
    assert (Hloc1 : current_location (store st1) = location st1).
    { unfold current_location, store. cbn. now destruct (location st1). }
    assert (Hsrc1 : source st1 <> "gps").
    { destruct Hst as [-> | [(p & _ & -> & _) | (_ & _ & r & _ & ->)]];
        cbn [source manual]; congruence. }
    destruct (IH (store st1) w1 (source st1) eq_refl Hsrc1) as [Hs Hl].
    split; [exact Hs |].
    destruct Hl as [Hl | (wd' & p & Hin & Hclick & Hl)].
    + rewrite Hl, Hloc1.
      destruct Hst as [-> | [(p & Hclick & -> & _) | (_ & _ & r & _ & ->)]].
      * left. exact Hloc0.
      * right. exists wd, p. repeat split; auto. now left.
      * left. exact Hloc0.
    + right. exists wd', p. repeat split; auto. now right.
Qed.

(** X21. A GPS reading is taken only while the source of the session is
    missing or ["gps"]. If the source is not ["gps"], and the first run
    has no reading when the source is still missing (a new visitor whose
    browser has not answered yet), then no sequence of runs brings the
    source to ["gps"]: whatever the later readings are, the location of
    the session stays the one it was or becomes a point that was clicked
    on the map. *)
Theorem gps_not_taken_later (camps : list camp) (wd0 : widgets)
        (wds : list widgets) (s : session) (w : world) :
  location_source s <> Some "gps" ->
  (location_source s = None -> geolocation wd0 = None) ->
  location_source (fst (runs camps (wd0 :: wds) s w)) <> Some "gps" /\
  (current_location (fst (runs camps (wd0 :: wds) s w)) = current_location s \/
   exists wd p, In wd (wd0 :: wds) /\ last_clicked wd = Some p /\
                current_location (fst (runs camps (wd0 :: wds) s w)) = Some p).
Proof.
  intros Hne Hfirst.
  destruct (location_source s) as [src |] eqn:Hsrc.
  { assert (Hsrc' : src <> "gps") by congruence.
    destruct (runs_source_blocked camps (wd0 :: wds) s w src Hsrc Hsrc')
      as [(src' & Hs & Hs') Hl].
    split; [rewrite Hs; congruence | exact Hl]. }
  specialize (Hfirst eq_refl). rewrite runs_cons.
  destruct (run camps wd0 s w) as [[[how s1] w1] v1] eqn:Hrun. cbn [fst snd].
  destruct (run_effect camps wd0 s w how s1 w1 v1 Hrun) as (st1 & -> & Hst).
  assert (Hprep : prepare wd0 s = state_defaults s)
    by (unfold prepare, sidebar; now rewrite Hfirst).
  assert (Hsrc0 : source (state_defaults s) = "init")
    by (unfold state_defaults; cbn; now rewrite Hsrc).
  assert (Hloc0 : location (state_defaults s) = current_location s).
  { unfold state_defaults, current_location. cbn.
    destruct (user_location s) as [[p |] |]; reflexivity. }
  rewrite Hprep in Hst.
  assert (Hloc1 : current_location (store st1) = location st1).
  { unfold current_location, store. cbn. now destruct (location st1). }
  assert (Hsrc1 : source st1 <> "gps").
  { destruct Hst as [-> | [(p & _ & -> & _) | (_ & _ & r & _ & ->)]];
      cbn [source manual]; congruence. }
  destruct (runs_source_blocked camps wds (store st1) w1 (source st1) eq_refl Hsrc1)
    as [(src' & Hs & Hs') Hl].
  split; [rewrite Hs; congruence |].
  destruct Hl as [Hl | (wd' & p & Hin & Hclick & Hl)].
  - rewrite Hl, Hloc1.
    destruct Hst as [-> | [(p & Hclick & -> & _) | (_ & _ & r & _ & ->)]].
    + left. exact Hloc0.
    + right. exists wd0, p. repeat split; auto. now left.
    + left. exact Hloc0.
  - right. exists wd', p. repeat split; auto. now right.
Qed.

Lemma gps_not_taken_later_witness :
  let wd0 := {| geolocation := None; last_clicked := None; draw_clicked := false |} in
  let wds := [{| geolocation := Some (19.81, 85.83); last_clicked := None;
                 draw_clicked := false |}] in
  let w := {| meteo := meteo_down; osrm := net_always (Raise Timeout) |} in
  location_source (fst (runs [camp_a] (wd0 :: wds) fresh w)) <> Some "gps" /\
  (current_location (fst (runs [camp_a] (wd0 :: wds) fresh w))
   = current_location fresh \/
   exists wd p, In wd (wd0 :: wds) /\ last_clicked wd = Some p /\
                current_location (fst (runs [camp_a] (wd0 :: wds) fresh w))
                = Some p).
Proof.
  intros wd0 wds w.
  apply (gps_not_taken_later [camp_a] wd0 wds fresh w).
  - cbn. discriminate.
  - reflexivity.
Defined.

Lemma state_defaults_store (st : state) : state_defaults (store st) = st.
Proof. now destruct st. Qed.

Lemma current_location_store (st : state) :
  current_location (store st) = location st.
Proof. unfold current_location, store. cbn. now destruct (location st). Qed.

Lemma coord_neq_same (p : coord) : coord_neq p p = false.
Proof.
  unfold coord_neq.
  destruct (Req_dec_T (fst p) (fst p)); [| congruence].
  destruct (Req_dec_T (snd p) (snd p)); congruence.
Qed.

Lemma coord_neq_true (a b : coord) : a <> b -> coord_neq a b = true.
Proof.
  intro Hne. unfold coord_neq. destruct a as [a1 a2], b as [b1 b2]. cbn.
  destruct (Req_dec_T a1 b1); [| reflexivity].
  destruct (Req_dec_T a2 b2); [| reflexivity]. subst. congruence.
Qed.

(** The requests of the details panel: none without a location; with one,
    the weather there, and then at most the route to the first of the
    nearest camps, when the button was pressed. *)
Lemma details_requests (camps : list camp) (wd : widgets) (st : state) (w : world)
      (v : view) :
  forall how st' w' v',
    details camps wd st w v = (how, st', w', v') ->
    match location st with
    | None => w' = w
    | Some u =>
        meteo w' = {| answer := answer (meteo w); calls := calls (meteo w) ++ [u] |} /\
        (osrm w' = osrm w \/
         (draw_clicked wd = true /\
          exists i c, first_nearest u camps i c /\
                      osrm w' = {| answer := answer (osrm w);
                                   calls := calls (osrm w)
                                            ++ [route_url u (latitude c, longitude c)] |}))
    end.
Proof.
  intros how st' w' v' H. unfold details in H.
  destruct (location st) as [[u_lat u_lon] |] eqn:Hloc.
  2:{ now injection H as <- <- <- <-. }
  pose proof (risk_card_net u_lat u_lon (meteo w)) as Hm.
  destruct (risk_card u_lat u_lon (meteo w)) as [card m']. cbn [snd] in Hm. subst m'.
  destruct card as [card | e].
  2:{ injection H as <- <- <- <-. cbn. split; auto. }
  destruct camps as [| x rest].
  { cbn in H. injection H as <- <- <- <-. cbn. split; auto. }
  destruct (scan_camps_nonempty u_lat u_lon x rest) as (i & c & Hs & Hf).
  rewrite Hs in H.
  destruct (draw_clicked wd) eqn:Hdraw.
  2:{ injection H as <- <- <- <-. cbn. split; auto. }
  pose proof (get_fastest_route_net (u_lat, u_lon) (latitude c, longitude c) (osrm w))
    as Ho.
  destruct (get_fastest_route (u_lat, u_lon) (latitude c, longitude c) (osrm w))
    as [found o']. cbn [snd] in Ho. subst o'.
  assert (Hosrm :
            true = true /\
            exists i0 c0,
              first_nearest (u_lat, u_lon) (x :: rest) i0 c0 /\
              {| answer := answer (osrm w);
                 calls := calls (osrm w)
                          ++ [route_url (u_lat, u_lon) (latitude c, longitude c)] |}
              = {| answer := answer (osrm w);
                   calls := calls (osrm w)
                            ++ [route_url (u_lat, u_lon) (latitude c0, longitude c0)] |})
    by (split; [reflexivity | now exists i, c]).
  destruct found as [r | e].
  2:{ injection H as <- <- <- <-. cbn. split; auto. }
  destruct (truthy r).
  2:{ injection H as <- <- <- <-. cbn. split; auto. }
  destruct (field_div r "duration" 60) as [t_mins | e];
    injection H as <- <- <- <-; cbn; split; auto.
Qed.

(** X22. While the source is ["gps"] (or missing) and the browser gives
    a reading, a run deletes the route of the session before the map is
    made: whatever route the session held - also one that the button
    "Draw Evacuation Path" stored in the run before - the map of this run
    draws no route. *)
Theorem gps_mode_draws_no_route (camps : list camp) (wd : widgets) (s : session)
        (w : world) (lat lon : R) :
  geolocation wd = Some (lat, lon) ->
  location_source s = None \/ location_source s = Some "gps" ->
  drawn_route (snd (run camps wd s w)) = None.
Proof.
  intros Hgeo Hsrc. unfold run. fold (prepare wd s).
  rewrite (sidebar_gps wd s lat lon Hgeo Hsrc).
  cbn [drawn_on_map location route truthy].
  match goal with
  | |- context [map_click wd ?st] => destruct (map_click wd st) as [st1 |]
  end; [reflexivity |].
  match goal with
  | |- context [details camps wd ?st w ?v] =>
      destruct (details camps wd st w v) as [[[how1 st1] w1] v1] eqn:Hd
  end.
  destruct (details_effect _ _ _ _ _ _ _ _ _ Hd) as (Hdrawn & _).
  cbn [snd]. exact Hdrawn.
Qed.

Lemma gps_mode_draws_no_route_witness :
  drawn_route
    (snd (run [camp_a]
              {| geolocation := Some (20.30, 85.82); last_clicked := None;
                 draw_clicked := true |}
              {| user_location := Some (Some (20.30, 85.82));
                 location_source := Some "gps";
                 current_route := Some (a_route 1800) |}
              {| meteo := meteo_down; osrm := net_always (ok_reply 1800) |}))
  = None.
Proof.
  apply (gps_mode_draws_no_route _ _ _ _ 20.30 85.82); [reflexivity | now right].
Defined.

(** X23. A click on a point that is not the location makes no request.
    When the route of the session can be drawn (or there is none), the
    run stops at [st.rerun()] and leaves the point as location,
    ["manual"] as source and no route; when drawing the route raises, the
    run fails with that exception before the click is looked at. The run
    that follows a rerun, in which the map still reports that click,
    keeps the point and the source whatever the GPS reading is, draws no
    route, and asks once for the weather at the point. *)
Theorem map_click_moves_location (camps : list camp) (wd : widgets) (s : session)
        (w : world) (p : coord) :
  last_clicked wd = Some p ->
  location (prepare wd s) <> Some p ->
  run camps wd s w
  = match drawn_on_map (prepare wd s) with
    | Ret drawn =>
        (Rerun, store (manual p), w,
         {| drawn_route := drawn; risk := None; nearest := None |})
    | Raise e =>
        (Crashed e, store (prepare wd s), w,
         {| drawn_route := None; risk := None; nearest := None |})
    end /\
  (forall wd2, last_clicked wd2 = Some p ->
     let r2 := run camps wd2 (store (manual p)) w in
     current_location (snd (fst (fst r2))) = Some p /\
     location_source (snd (fst (fst r2))) = Some "manual" /\
     drawn_route (snd r2) = None /\
     meteo (snd (fst r2))
     = {| answer := answer (meteo w); calls := calls (meteo w) ++ [p] |}).
Proof.
  intros Hclick Hne. split.
  - unfold run. fold (prepare wd s).
    destruct (drawn_on_map (prepare wd s)) as [drawn | e]; [| reflexivity].
    unfold map_click. rewrite Hclick.
    destruct (location (prepare wd s)) as [u |]; [| reflexivity].
    now rewrite coord_neq_true by congruence.
  - intros wd2 Hclick2 r2. subst r2. unfold run.
    rewrite (sidebar_blocked wd2 (store (manual p)) "manual" eq_refl)
      by discriminate.
    rewrite state_defaults_store.
    cbn [drawn_on_map manual location route truthy].
    unfold map_click. rewrite Hclick2.
    change (location (manual p)) with (Some p). cbv iota. rewrite coord_neq_same.
    match goal with
    | |- context [details camps wd2 ?st w ?v] =>
        destruct (details camps wd2 st w v) as [[[how1 st1] w1] v1] eqn:Hd
    end.
    cbn [fst snd].
    destruct (details_effect _ _ _ _ _ _ _ _ _ Hd) as (Hdrawn & Hst & _).
    pose proof (details_requests _ _ _ _ _ _ _ _ _ Hd) as Hreq.
    cbn [location] in Hreq. destruct Hreq as (Hm & _).
    rewrite current_location_store.
    repeat split; try assumption.
    + destruct Hst as [-> | (_ & _ & r & _ & ->)]; reflexivity.
    + destruct Hst as [-> | (_ & _ & r & _ & ->)]; reflexivity.
Qed.

Lemma map_click_moves_location_witness :
  let wd := {| geolocation := Some (20.30, 85.82); last_clicked := Some (19.90, 85.10);
               draw_clicked := false |} in
  let w := {| meteo := meteo_down; osrm := net_always (ok_reply 1800) |} in
  let p := (19.90, 85.10) in
  run [camp_a] wd fresh w
  = (Rerun, store (manual p), w,
     {| drawn_route := None; risk := None; nearest := None |}) /\
  (forall wd2, last_clicked wd2 = Some p ->
     let r2 := run [camp_a] wd2 (store (manual p)) w in
     current_location (snd (fst (fst r2))) = Some p /\
     location_source (snd (fst (fst r2))) = Some "manual" /\
     drawn_route (snd r2) = None /\
     meteo (snd (fst r2))
     = {| answer := answer (meteo w); calls := calls (meteo w) ++ [p] |}).
Proof.
  intros wd w p.
  apply (map_click_moves_location [camp_a] wd fresh w p).
  - reflexivity.
  - cbn. intro H. injection H as H _. lra.
Defined.

(** The requests of the details panel when the session has a location:
    the weather there, and then the route to the first of the nearest
    camps exactly when the risk card is made, the table has a camp and
    the button was pressed. *)
Lemma details_requests_exact (camps : list camp) (wd : widgets) (st : state)
      (w : world) (v : view) (u : coord) :
  location st = Some u ->
  let w' := snd (fst (details camps wd st w v)) in
  meteo w' = {| answer := answer (meteo w); calls := calls (meteo w) ++ [u] |} /\
  (draw_clicked wd = true ->
   (exists card, fst (risk_card (fst u) (snd u) (meteo w)) = Ret card) ->
   camps <> [] ->
   exists i c, first_nearest u camps i c /\
               osrm w' = {| answer := answer (osrm w);
                            calls := calls (osrm w)
                                     ++ [route_url u (latitude c, longitude c)] |}) /\
  (draw_clicked wd = false \/
   (forall card, fst (risk_card (fst u) (snd u) (meteo w)) <> Ret card) \/
   camps = [] ->
   osrm w' = osrm w).
Proof.
  intros Hloc. cbv zeta. unfold details. rewrite Hloc.
  destruct u as [u_lat u_lon]. cbn [fst snd].
  pose proof (risk_card_net u_lat u_lon (meteo w)) as Hm.
  destruct (risk_card u_lat u_lon (meteo w)) as [card m']. cbn [fst snd] in Hm |- *.
  subst m'.
  destruct card as [card | e].
  2:{ cbn. split; [reflexivity |]. split; [| reflexivity].
      intros _ (card & Hcard) _. discriminate Hcard. }
  destruct camps as [| x rest].
  { cbn. split; [reflexivity |]. split; [| reflexivity].
    intros _ _ Hne. congruence. }
  destruct (scan_camps_nonempty u_lat u_lon x rest) as (i & c & Hs & Hf).
  rewrite Hs.
  destruct (draw_clicked wd) eqn:Hdraw.
  2:{ cbn. split; [reflexivity |]. split; [| reflexivity]. discriminate. }
  pose proof (get_fastest_route_net (u_lat, u_lon) (latitude c, longitude c) (osrm w))
    as Ho.
  destruct (get_fastest_route (u_lat, u_lon) (latitude c, longitude c) (osrm w))
    as [found o']. cbn [snd] in Ho. subst o'.
  assert (Hleft : forall w',
             meteo w' = {| answer := answer (meteo w);
                           calls := calls (meteo w) ++ [(u_lat, u_lon)] |} ->
             osrm w' = {| answer := answer (osrm w);
                          calls := calls (osrm w)
                                   ++ [route_url (u_lat, u_lon)
                                         (latitude c, longitude c)] |} ->
             meteo w' = {| answer := answer (meteo w);
                           calls := calls (meteo w) ++ [(u_lat, u_lon)] |} /\
             (true = true ->
              (exists card0, Ret card = Ret card0) -> x :: rest <> [] ->
              exists i0 c0,
                first_nearest (u_lat, u_lon) (x :: rest) i0 c0 /\
                osrm w' = {| answer := answer (osrm w);
                             calls := calls (osrm w)
                                      ++ [route_url (u_lat, u_lon)
                                            (latitude c0, longitude c0)] |}) /\
             (true = false \/ (forall card0, Ret card <> Ret card0) \/ x :: rest = [] ->
              osrm w' = osrm w)).
  { intros w' Hme Hos. split; [exact Hme |]. split.
    - intros _ _ _. now exists i, c.
    - intros [H | [H | H]]; [discriminate | | discriminate].
      exfalso. now apply (H card). }
  destruct found as [r | e]; [| now apply Hleft].
  destruct (truthy r); [| now apply Hleft].
  destruct (field_div r "duration" 60) as [t_mins | e]; now apply Hleft.
Qed.

(** X24. The requests of one run. A run makes no request at all when
    drawing the route of the session raises, when it stops at a click on
    a new point, or when the session has no location after the sidebar.
    In every other run the weather is asked exactly once, at the location
    that the run leaves in the session; and a route is asked exactly when
    the button was pressed, the risk card could be made and the table has
    a camp: one request, from that location to the first of the camps at
    the least distance from it. What the providers answer is never
    changed. *)
Theorem run_requests (camps : list camp) (wd : widgets) (s : session) (w : world) :
  let st := prepare wd s in
  let s' := snd (fst (fst (run camps wd s w))) in
  let w' := snd (fst (run camps wd s w)) in
  (forall e, drawn_on_map st = Raise e -> w' = w) /\
  (map_click wd st <> None -> w' = w) /\
  (location st = None -> w' = w) /\
  (forall drawn u,
      drawn_on_map st = Ret drawn -> map_click wd st = None ->
      location st = Some u ->
      current_location s' = Some u /\
      meteo w' = {| answer := answer (meteo w); calls := calls (meteo w) ++ [u] |} /\
      (draw_clicked wd = true ->
       (exists card, fst (risk_card (fst u) (snd u) (meteo w)) = Ret card) ->
       camps <> [] ->
       exists i c, first_nearest u camps i c /\
                   osrm w' = {| answer := answer (osrm w);
                                calls := calls (osrm w)
                                         ++ [route_url u (latitude c, longitude c)] |}) /\
      (draw_clicked wd = false \/
       (forall card, fst (risk_card (fst u) (snd u) (meteo w)) <> Ret card) \/
       camps = [] ->
       osrm w' = osrm w)).
Proof.
  cbv zeta. unfold run. fold (prepare wd s).
  destruct (drawn_on_map (prepare wd s)) as [drawn | e].
  2:{ cbn [fst snd]. split; [now intros | split; [now intros | split; [now intros |]]].
      intros drawn' u H. discriminate H. }
  destruct (map_click wd (prepare wd s)) as [st1 |] eqn:Hclick.
  { cbn [fst snd]. split; [now intros | split; [now intros | split; [now intros |]]].
    intros drawn' u _ H. discriminate H. }
  match goal with
  | |- context [details camps wd ?st w ?v] =>
      pose proof (details_requests_exact camps wd st w v) as Hexact;
      destruct (details camps wd st w v) as [[[how1 st1] w1] v1] eqn:Hd
  end.
  cbn [fst snd] in Hexact |- *.
  destruct (details_effect _ _ _ _ _ _ _ _ _ Hd) as (_ & Hst & _).
  pose proof (details_requests _ _ _ _ _ _ _ _ _ Hd) as Hreq.
  assert (Hloc : location st1 = location (prepare wd s))
    by (destruct Hst as [-> | (_ & _ & r & _ & ->)]; reflexivity).
  rewrite current_location_store, Hloc.
  split; [discriminate |]. split; [congruence |]. split.
  - intro Hnone. rewrite Hnone in Hreq. exact Hreq.
  - intros drawn' u _ _ Hu. split; [exact Hu |]. exact (Hexact u Hu).
Qed.

Lemma run_requests_witness :
  let wd := {| geolocation := None; last_clicked := None; draw_clicked := true |} in
  let w := {| meteo := meteo_down; osrm := net_always (Raise Timeout) |} in
  let p := (20.30, 85.82) in
  let w' := snd (fst (run [camp_a] wd (store (manual p)) w)) in
  meteo w' = {| answer := answer meteo_down; calls := [p] |} /\
  exists i c, first_nearest p [camp_a] i c /\
              osrm w' = {| answer := answer (net_always (Raise Timeout));
                           calls := [route_url p (latitude c, longitude c)] |}.
Proof.
  intros wd w p w'.
  destruct (run_requests [camp_a] wd (store (manual p)) w) as (_ & _ & _ & H).
  destruct (H None p eq_refl eq_refl eq_refl) as (_ & Hm & Ho & _).
  split; [exact Hm |].
  apply Ho.
  - reflexivity.
  - exists (0, risk_row LOW). apply risk_card_zero.
    now apply fetch_raised with (e := ConnectionError).
  - discriminate.
Defined.

Lemma first_nearest_unique (u : coord) (camps : list camp) (i i' : nat)
      (c c' : camp) :
  first_nearest u camps i c -> first_nearest u camps i' c' -> i = i' /\ c = c'.
Proof.
  intros (Hi & Hmin & Hbefore) (Hi' & Hmin' & Hbefore').
  destruct (Nat.lt_trichotomy i i') as [Hlt | [-> | Hlt]].
  - pose proof (Hbefore' i c Hlt Hi).
    pose proof (Hmin c' (nth_error_In _ _ Hi')). lra.
  - split; [reflexivity | congruence].
  - pose proof (Hbefore i' c' Hlt Hi').
    pose proof (Hmin' c (nth_error_In _ _ Hi)). lra.
Qed.

Lemma nearest_camp_scan_first (u_lat u_lon : R) (camps : list camp) (i : nat)
      (c : camp) :
  first_nearest (u_lat, u_lon) camps i c ->
  nearest_camp_scan u_lat u_lon camps = Ret (Some c, Fin (camp_km (u_lat, u_lon) c)).
Proof.
  intro Hf. destruct camps as [| x rest].
  { destruct Hf as (Hi & _). now destruct i. }
  destruct (scan_camps_nonempty u_lat u_lon x rest) as (i' & c' & Hs & Hf').
  destruct (first_nearest_unique _ _ _ _ _ _ Hf Hf') as (_ & ->). exact Hs.
Qed.

(** X25. From the press of the button to the line on the map. With a
    location in the session, no new click, a risk card that is made, and a
    reply of the routing provider for the first of the nearest camps whose
    code is ["Ok"] and whose first route is not empty and has a numeric
    duration, the run stops at [st.rerun()] with that first route in the
    session, after one weather request and one routing request. In the run
    that follows, as long as the sidebar leaves the session as it is, the
    map draws the geometry of that route; a route without a geometry makes
    that run fail with the error of the lookup. *)
Theorem draw_button_route_on_map (camps : list camp) (wd : widgets) (s : session)
        (w : world) (u : coord) (g0 : option json)
        (card : R * (level * string * string)) (i : nat) (c : camp)
        (resp : response) (fields : list (string * json)) (r : json)
        (rest : list json) (t_mins : R) :
  location (prepare wd s) = Some u ->
  drawn_on_map (prepare wd s) = Ret g0 ->
  map_click wd (prepare wd s) = None ->
  draw_clicked wd = true ->
  fst (risk_card (fst u) (snd u) (meteo w)) = Ret card ->
  first_nearest u camps i c ->
  next_reply u (latitude c, longitude c) (osrm w) = Ret resp ->
  raise_for_status resp = Ret tt ->
  body resp = JObj fields -> assoc "code" fields = Some (JStr "Ok") ->
  assoc "routes" fields = Some (JArr (r :: rest)) ->
  truthy r = true -> field_div r "duration" 60 = Ret t_mins ->
  let st1 := {| location := Some u; source := source (prepare wd s); route := r |} in
  run camps wd s w
  = (Rerun, store st1,
     {| meteo := {| answer := answer (meteo w); calls := calls (meteo w) ++ [u] |};
        osrm := {| answer := answer (osrm w);
                   calls := calls (osrm w)
                            ++ [route_url u (latitude c, longitude c)] |} |},
     {| drawn_route := g0; risk := Some card;
        nearest := Some (c, Fin (camp_km u c)) |}) /\
  (forall wd2 w2,
      sidebar wd2 (store st1) = store st1 ->
      match getitem r "geometry" with
      | Ret g => drawn_route (snd (run camps wd2 (store st1) w2)) = Some g
      | Raise e =>
          run camps wd2 (store st1) w2
          = (Crashed e, store st1, w2,
             {| drawn_route := None; risk := None; nearest := None |})
      end).
Proof.
  intros Hloc Hdrawn Hclick Hdraw Hcard Hf Hreply Hstatus Hbody Hcode Hroutes
         Htruthy Hmins st1.
  destruct u as [u_lat u_lon]. cbn [fst snd] in Hcard. split.
  - unfold run. fold (prepare wd s). rewrite Hdrawn, Hclick.
    unfold details. rewrite Hloc.
    pose proof (risk_card_net u_lat u_lon (meteo w)) as Hm.
    destruct (risk_card u_lat u_lon (meteo w)) as [card' m'].
    cbn [fst snd] in Hcard, Hm. subst card' m'.
    rewrite (nearest_camp_scan_first u_lat u_lon camps i c Hf), Hdraw.
    pose proof (get_fastest_route_net (u_lat, u_lon) (latitude c, longitude c)
                  (osrm w)) as Ho.
    pose proof (get_fastest_route_first (u_lat, u_lon) (latitude c, longitude c)
                  (osrm w) resp fields r rest Hreply Hstatus Hbody Hcode Hroutes)
      as Hr.
    destruct (get_fastest_route (u_lat, u_lon) (latitude c, longitude c) (osrm w))
      as [found o']. cbn [fst snd] in Hr, Ho. subst found o'.
    rewrite Htruthy, Hmins. reflexivity.
  - intros wd2 w2 Hside. unfold run. rewrite Hside, state_defaults_store.
    unfold drawn_on_map. subst st1. cbn [location route]. rewrite Htruthy.
    destruct (getitem r "geometry") as [g | e]; cbn [bind]; [| reflexivity].
    match goal with
    | |- context [map_click wd2 ?st] => destruct (map_click wd2 st) as [st2 |]
    end; [reflexivity |].
    match goal with
    | |- context [details camps wd2 ?st w2 ?v] =>
        destruct (details camps wd2 st w2 v) as [[[how2 st2] w3] v2] eqn:Hd
    end.
    destruct (details_effect _ _ _ _ _ _ _ _ _ Hd) as (Hsame & _).
    cbn [snd]. exact Hsame.
Qed.

Lemma draw_button_route_on_map_witness :
  let p := (20.30, 85.82) in
  let wd := {| geolocation := Some (19.81, 85.83); last_clicked := Some p;
               draw_clicked := true |} in
  let w := {| meteo := meteo_down; osrm := net_always (ok_reply 1800) |} in
  let st1 := {| location := Some p; source := "manual"; route := a_route 1800 |} in
  run [camp_a] wd (store (manual p)) w
  = (Rerun, store st1,
     {| meteo := {| answer := answer meteo_down; calls := [p] |};
        osrm := {| answer := answer (net_always (ok_reply 1800));
                   calls := [route_url p (20.27, 85.84)] |} |},
     {| drawn_route := None; risk := Some (0, risk_row LOW);
        nearest := Some (camp_a, Fin (camp_km p camp_a)) |}) /\
  drawn_route (snd (run [camp_a] wd (store st1) w))
  = Some (JObj [("type", JStr "LineString")]).
Proof.
  intros p wd w st1.
  destruct (draw_button_route_on_map
              [camp_a] wd (store (manual p)) w p None (0, risk_row LOW) 0 camp_a
              {| status_code := 200;
                 body := JObj [("code", JStr "Ok"); ("routes", JArr [a_route 1800])] |}
              [("code", JStr "Ok"); ("routes", JArr [a_route 1800])]
              (a_route 1800) [] (1800 / 60)) as [Hrun Hnext].
  - reflexivity.
  - reflexivity.
  - unfold map_click. cbn. now rewrite (coord_neq_same p).
  - reflexivity.
  - apply risk_card_zero. now apply fetch_raised with (e := ConnectionError).
  - apply first_nearest_single.
  - reflexivity.
  - reflexivity.
  - reflexivity.
  - reflexivity.
  - reflexivity.
  - reflexivity.
  - reflexivity.
  - split; [exact Hrun |]. exact (Hnext wd w eq_refl).
Defined.

End DashboardFacts.

(* ----------------------------------------------------------------- *)
(** *** The synthetic weather of the cyclone events *)

Section Era5Facts.
Import ExtractEra5.

Lemma uniform_range (low high : R) (g : generator) :
  unit_samples g -> low <= high ->
  low <= fst (uniform low high g) <= high.
Proof.
  intros Hg Hle. unfold uniform. cbn [fst].
  specialize (Hg (drawn g)). nra.
Qed.

Lemma fetch_era5_data_eq (event : Event.t) (g : generator) :
  let b := Event.max_wind_speed event in
  let x1 := sample g (drawn g) in
  let x2 := sample g (S (drawn g)) in
  let x3 := sample g (S (S (drawn g))) in
  fetch_era5_data event g
  = ({| Weather.max_wind_speed := b * (0.85 + (0.95 - 0.85) * x1);
        Weather.max_gust_speed :=
          b * (0.85 + (0.95 - 0.85) * x1) * (1.2 + (1.5 - 1.2) * x2);
        Weather.total_rainfall :=
          if Rlt_dec 150 b then 300 + (700 - 300) * x3
          else if Rlt_dec 100 b then 150 + (400 - 150) * x3
          else 50 + (200 - 50) * x3 |},
     {| sample := sample g; drawn := S (S (S (drawn g))) |}).
Proof.
  cbv zeta. unfold fetch_era5_data, rand_bind, rand_ret, uniform. cbn [sample drawn].
  destruct (Rlt_dec 150 (Event.max_wind_speed event));
    [| destruct (Rlt_dec 100 (Event.max_wind_speed event))]; reflexivity.
Qed.

(** X26. The synthetic weather of one event.  With the floats of the
    generator in [[0, 1)] and a best-track wind that is not negative, the
    wind speed is between 85 % and 95 % of the best-track wind and the
    gust between 1.2 and 1.5 times the wind speed, so that the gust is
    never below 102 % of the best-track wind: for a wind that is not zero
    the synthetic wind is always below the best-track wind and the gust
    always above.  The rainfall is between 300 and 700 above 150 km/h,
    between 150 and 400 above 100 km/h and between 50 and 200 otherwise,
    and so never above 700.  Three floats are taken. *)
Theorem fetch_era5_data_ranges (event : Event.t) (g : generator) :
  unit_samples g -> 0 <= Event.max_wind_speed event ->
  let b := Event.max_wind_speed event in
  let weather := fst (fetch_era5_data event g) in
  let wind := Weather.max_wind_speed weather in
  let gust := Weather.max_gust_speed weather in
  let rain := Weather.total_rainfall weather in
  0.85 * b <= wind <= 0.95 * b /\
  1.2 * wind <= gust <= 1.5 * wind /\
  1.02 * b <= gust <= 1.425 * b /\
  (0 < b -> wind < b < gust) /\
  (150 < b -> 300 <= rain <= 700) /\
  (100 < b <= 150 -> 150 <= rain <= 400) /\
  (b <= 100 -> 50 <= rain <= 200) /\
  50 <= rain <= 700 /\
  drawn (snd (fetch_era5_data event g)) = (drawn g + 3)%nat.
Proof.
  intros Hg Hb. cbv zeta. rewrite fetch_era5_data_eq. cbn [fst snd drawn].
  cbn [Weather.max_wind_speed Weather.max_gust_speed Weather.total_rainfall].
  pose proof (Hg (drawn g)) as H1.
  pose proof (Hg (S (drawn g))) as H2.
  pose proof (Hg (S (S (drawn g)))) as H3.
  set (b := Event.max_wind_speed event) in *.
  set (x1 := sample g (drawn g)) in *.
  set (x2 := sample g (S (drawn g))) in *.
  set (x3 := sample g (S (S (drawn g)))) in *.
  assert (Hw : 0.85 * b <= b * (0.85 + (0.95 - 0.85) * x1) <= 0.95 * b) by nra.
  set (wind := b * (0.85 + (0.95 - 0.85) * x1)) in *.
  assert (Hw0 : 0 <= wind) by lra.
  assert (Hg1 : 1.2 * wind <= wind * (1.2 + (1.5 - 1.2) * x2) <= 1.5 * wind) by nra.
  set (gust := wind * (1.2 + (1.5 - 1.2) * x2)) in *.
  repeat split; try lra; try lia.
  all: destruct (Rlt_dec 150 b); [| destruct (Rlt_dec 100 b)]; intros; lra.
Qed.

Lemma fetch_era5_data_ranges_witness :
  let event := {| Event.event_id := "2019117N05088"; Event.timestamp := 0%Z;
                  Event.lat := 19.8; Event.lon := 85.8;
                  Event.max_wind_speed := 215; Event.name := "FANI" |} in
  let g := {| sample := fun _ => 1 / 2; drawn := 0 |} in
  0.85 * 215 <= Weather.max_wind_speed (fst (fetch_era5_data event g)) <= 0.95 * 215.
Proof.
  intros event g.
  apply (fetch_era5_data_ranges event g).
  - intro n. cbn. lra.
  - cbn. lra.
Defined.

Lemma extract_weather_cons (event : Event.t) (rest : list Event.t) (g : generator) :
  let g1 := snd (fetch_era5_data event g) in
  let weather := fst (fetch_era5_data event g) in
  extract_weather_for_all_events (event :: rest) g
  = ({| Row.event_id := Event.event_id event;
        Row.name := Event.name event;
        Row.timestamp := Event.timestamp event;
        Row.max_wind_speed := Weather.max_wind_speed weather;
        Row.max_gust_speed := Weather.max_gust_speed weather;
        Row.total_rainfall := Weather.total_rainfall weather |}
     :: fst (extract_weather_for_all_events rest g1),
     snd (extract_weather_for_all_events rest g1)).
Proof.
  cbv zeta. cbn [extract_weather_for_all_events]. unfold rand_bind at 1.
  destruct (fetch_era5_data event g) as [weather g1]. cbn [fst snd].
  unfold rand_bind, rand_ret.
  destruct (extract_weather_for_all_events rest g1) as [rows g2]. reflexivity.
Qed.

Lemma extract_weather_generator (events : list Event.t) (g : generator) :
  snd (extract_weather_for_all_events events g)
  = {| sample := sample g; drawn := (drawn g + 3 * List.length events)%nat |}.
Proof.
  revert g. induction events as [| event rest IH]; intro g.
  - cbn. destruct g. cbn. f_equal. lia.
  - rewrite extract_weather_cons. cbn [snd]. rewrite IH.
    rewrite fetch_era5_data_eq. cbn [snd sample drawn List.length]. f_equal. lia.
Qed.

(** X27. The frame of all events has one row for each event, in the order
    of the events, with the identifier, the name and the time stamp of
    the event.  The event at position [k] takes the floats [3k], [3k+1]
    and [3k+2] that follow those already taken: the first scales its
    best-track wind, the second the gust, the third gives the rainfall;
    and [3 * len(events)] floats are taken in all. *)
Theorem extract_weather_for_all_events_rows (events : list Event.t) (g : generator)
        (k : nat) (event : Event.t) :
  nth_error events k = Some event ->
  let rows := fst (extract_weather_for_all_events events g) in
  let x n := sample g (drawn g + 3 * k + n) in
  List.length rows = List.length events /\
  drawn (snd (extract_weather_for_all_events events g))
  = (drawn g + 3 * List.length events)%nat /\
  exists row,
    nth_error rows k = Some row /\
    Row.event_id row = Event.event_id event /\
    Row.name row = Event.name event /\
    Row.timestamp row = Event.timestamp event /\
    Row.max_wind_speed row = Event.max_wind_speed event * (0.85 + 0.10 * x 0%nat) /\
    Row.max_gust_speed row = Row.max_wind_speed row * (1.2 + 0.3 * x 1%nat) /\
    Row.total_rainfall row
    = (if Rlt_dec 150 (Event.max_wind_speed event) then 300 + 400 * x 2%nat
       else if Rlt_dec 100 (Event.max_wind_speed event) then 150 + 250 * x 2%nat
       else 50 + 150 * x 2%nat).
Proof.
  intros Hk. cbv beta zeta. rewrite extract_weather_generator. cbn [drawn].
  split; [| split; [reflexivity |]].
  { clear Hk. revert g. induction events as [| e rest IH]; intro g; [reflexivity |].
    rewrite extract_weather_cons. cbn [fst List.length]. now rewrite IH. }
  revert k g Hk. induction events as [| e rest IH]; intros k g Hk.
  { now destruct k. }
  rewrite extract_weather_cons. cbn [fst]. destruct k as [| k].
  - injection Hk as ->. eexists. split; [reflexivity |].
    cbn [Row.event_id Row.name Row.timestamp Row.max_wind_speed Row.max_gust_speed
         Row.total_rainfall].
    rewrite fetch_era5_data_eq. cbn [fst].
    cbn [Weather.max_wind_speed Weather.max_gust_speed Weather.total_rainfall].
    replace (drawn g + 3 * 0 + 0)%nat with (drawn g) by lia.
    replace (drawn g + 3 * 0 + 1)%nat with (S (drawn g)) by lia.
    replace (drawn g + 3 * 0 + 2)%nat with (S (S (drawn g))) by lia.
    repeat split; try (f_equal; lra).
    destruct (Rlt_dec 150 (Event.max_wind_speed event));
      [| destruct (Rlt_dec 100 (Event.max_wind_speed event))]; lra.
  - cbn [nth_error] in Hk |- *.
    destruct (IH k (snd (fetch_era5_data e g)) Hk) as (row & Hrow & Hrest).
    exists row. split; [exact Hrow |].
    rewrite fetch_era5_data_eq in Hrest. cbn [snd sample drawn] in Hrest.
    replace (drawn g + 3 * S k + 0)%nat with (S (S (S (drawn g))) + 3 * k + 0)%nat by lia.
    replace (drawn g + 3 * S k + 1)%nat with (S (S (S (drawn g))) + 3 * k + 1)%nat by lia.
    replace (drawn g + 3 * S k + 2)%nat with (S (S (S (drawn g))) + 3 * k + 2)%nat by lia.
    exact Hrest.
Qed.

Lemma extract_weather_for_all_events_rows_witness :
  let fani := {| Event.event_id := "2019117N05088"; Event.timestamp := 0%Z;
                 Event.lat := 19.8; Event.lon := 85.8;
                 Event.max_wind_speed := 215; Event.name := "FANI" |} in
  let yaas := {| Event.event_id := "2021143N16090"; Event.timestamp := 1%Z;
                 Event.lat := 21.1; Event.lon := 87.0;
                 Event.max_wind_speed := 140; Event.name := "YAAS" |} in
  let g := {| sample := fun n => INR n / 10; drawn := 0 |} in
  exists row,
    nth_error (fst (extract_weather_for_all_events [fani; yaas] g)) 1 = Some row /\
    Row.name row = "YAAS" /\
    Row.max_wind_speed row = 140 * (0.85 + 0.10 * (INR 3 / 10)).
Proof.
  intros fani yaas g.
  destruct (extract_weather_for_all_events_rows [fani; yaas] g 1 yaas eq_refl)
    as (_ & _ & row & Hrow & _ & Hname & _ & Hwind & _).
  exists row. split; [exact Hrow |]. split; [exact Hname | exact Hwind].
Defined.

End Era5Facts.

(* ----------------------------------------------------------------- *)
(** *** City names *)

Section GeocodeFacts.
Import Geocode.

Lemma lower_app (a b : string) : lower (a ++ b) = (lower a ++ lower b)%string.
Proof. induction a as [| c a IH]; cbn; [reflexivity | now rewrite IH]. Qed.

Lemma is_space_not_upper (c : ascii) : is_space c = true -> is_upper c = false.
Proof.
  unfold is_space, is_upper. intro H.
  apply Bool.orb_true_iff in H.
  destruct H as [H | H]; apply Bool.andb_true_iff in H; destruct H as [H1 H2];
    apply Nat.leb_le in H1; apply Nat.leb_le in H2;
    apply Bool.andb_false_iff; left; apply Nat.leb_gt; lia.
Qed.

Lemma lower_blank (s : string) : blank s = true -> lower s = s.
Proof.
  induction s as [| c s IH]; cbn; [reflexivity |].
  intro H. apply Bool.andb_true_iff in H. destruct H as [Hc Hs].
  unfold lower_char. rewrite (is_space_not_upper c Hc). now rewrite IH.
Qed.

Lemma lstrip_blank_app (l t : string) : blank l = true -> lstrip (l ++ t) = lstrip t.
Proof.
  induction l as [| c l IH]; cbn; [reflexivity |].
  intro H. apply Bool.andb_true_iff in H. destruct H as [Hc Hl].
  rewrite Hc. now apply IH.
Qed.

Lemma lstrip_blank (r : string) : blank r = true -> lstrip r = EmptyString.
Proof.
  induction r as [| c r IH]; cbn; [reflexivity |].
  intro H. apply Bool.andb_true_iff in H. destruct H as [Hc Hr].
  rewrite Hc. now apply IH.
Qed.

Lemma rstrip_blank (r : string) : blank r = true -> rstrip r = EmptyString.
Proof.
  induction r as [| c r IH]; cbn; [reflexivity |].
  intro H. apply Bool.andb_true_iff in H. destruct H as [Hc Hr].
  now rewrite (IH Hr), Hc.
Qed.

Lemma rstrip_app_blank (s r : string) : blank r = true -> rstrip (s ++ r) = rstrip s.
Proof.
  intro Hr. induction s as [| c s IH]; cbn.
  - now apply rstrip_blank.
  - now rewrite IH.
Qed.

Lemma strip_padded (l k r : string) :
  blank l = true -> blank r = true ->
  lstrip k = k -> rstrip k = k ->
  strip (l ++ k ++ r) = k.
Proof.
  intros Hl Hr Hlk Hrk. unfold strip. rewrite (lstrip_blank_app l _ Hl).
  destruct k as [| c k].
  - cbn. now rewrite (lstrip_blank r Hr).
  - cbn [lstrip append] in Hlk |- *.
    destruct (is_space c) eqn:Hc.
    + exfalso. assert (Hlen : String.length (lstrip k) = S (String.length k))
        by now rewrite Hlk.
      assert (Hle : forall t, (String.length (lstrip t) <= String.length t)%nat).
      { induction t as [| d t IHt]; cbn; [lia |].
        destruct (is_space d); cbn; lia. }
      specialize (Hle k). lia.
    + change (String c (k ++ r)) with (String c k ++ r)%string.
      now rewrite (rstrip_app_blank _ r Hr).
Qed.

Lemma CYCLONE_CITIES_keys (key : string) (c : R * R) :
  In (key, c) CYCLONE_CITIES ->
  lookup key CYCLONE_CITIES = Some c /\ lstrip key = key /\ rstrip key = key.
Proof.
  unfold CYCLONE_CITIES. intro H.
  repeat (destruct H as [H | H];
          [injection H as <- <-; repeat split; reflexivity |]).
  destruct H.
Qed.

(** X28. A city of the table is found in any letter case and with any
    white space around it, for every country and without a query to the
    geocoding service: the answer is the pair of the table, also when the
    country is not India. *)
Theorem get_coordinates_fast_table (key : string) (c : R * R) (l s r : string)
        (country : string) (svc : service) :
  In (key, c) CYCLONE_CITIES ->
  lower s = key -> blank l = true -> blank r = true ->
  get_coordinates_fast (l ++ s ++ r) country svc
  = (Ok (Some (fst c), Some (snd c)), svc).
Proof.
  intros Hin Hs Hl Hr. unfold get_coordinates_fast.
  rewrite !lower_app, (lower_blank l Hl), (lower_blank r Hr), Hs.
  destruct (CYCLONE_CITIES_keys key c Hin) as (Hlook & Hlk & Hrk).
  rewrite (strip_padded l key r Hl Hr Hlk Hrk), Hlook.
  now destruct c.
Qed.

Lemma get_coordinates_fast_table_witness :
  get_coordinates_fast "  Puri " "France"
    {| reply := fun _ _ => Err OtherException; queries := [] |}
  = (Ok (Some 19.8135, Some 85.8312),
     {| reply := fun _ _ => Err OtherException; queries := [] |}).
Proof.
  apply (get_coordinates_fast_table "puri" (19.8135, 85.8312) "  " "Puri" " ").
  - left. reflexivity.
  - reflexivity.
  - reflexivity.
  - reflexivity.
Defined.

(** X29. What the geocoding functions do with the answer of the service.
    [get_coordinates] makes one query, for the city, a comma, a space and
    the country.  It returns the latitude and the longitude of a location
    that was found, and [(None, None)] when nothing was found, when the
    service timed out and on any other service error; an exception that
    is no service error is raised to the caller.  For a city written in
    ASCII characters that is not in the table once it is lowered and
    stripped, [get_coordinates_fast] is [get_coordinates] on the city as
    it was typed, so that it raises what [get_coordinates] raises.
    [get_city_info] raises nothing. *)
Theorem get_coordinates_answers (city country : string) (svc : service) :
  let next := reply svc (List.length (queries svc)) (place city country, false) in
  snd (get_coordinates city country svc)
  = {| reply := reply svc;
       queries := queries svc ++ [(place city country, false)] |} /\
  (forall location, next = Ok (Some location) ->
     fst (get_coordinates city country svc)
     = Ok (Some (latitude location), Some (longitude location))) /\
  (next = Ok None \/ next = Err GeocoderTimedOut \/ next = Err GeocoderServiceError ->
     fst (get_coordinates city country svc) = Ok (None, None)) /\
  (next = Err OtherException ->
     fst (get_coordinates city country svc) = Err OtherException) /\
  (ascii_only city = true ->
   lookup (strip (lower city)) CYCLONE_CITIES = None ->
     get_coordinates_fast city country svc = get_coordinates city country svc) /\
  (forall e, fst (get_city_info city country svc) <> Err e).
Proof.
  cbv zeta. unfold get_coordinates_fast, get_coordinates, get_city_info, geocode.
  cbn [fst snd]. repeat split.
  - intros location ->. reflexivity.
  - intros [-> | [-> | ->]]; reflexivity.
  - intros ->. reflexivity.
  - intros _ ->. reflexivity.
  - intro e.
    destruct (reply svc (List.length (queries svc)) (place city country, true))
      as [[location |] | e']; discriminate.
Qed.

Lemma get_coordinates_answers_witness :
  get_coordinates_fast "Balasore" "India"
    {| reply := fun _ _ => Err OtherException; queries := [] |}
  = get_coordinates "Balasore" "India"
      {| reply := fun _ _ => Err OtherException; queries := [] |} /\
  fst (get_coordinates "Balasore" "India"
         {| reply := fun _ _ => Err OtherException; queries := [] |})
  = Err OtherException.
Proof.
  destruct (get_coordinates_answers "Balasore" "India"
              {| reply := fun _ _ => Err OtherException; queries := [] |})
    as (_ & _ & _ & Hraise & Hfast & _).
  split; [apply Hfast; reflexivity | apply Hraise; reflexivity].
Defined.

End GeocodeFacts.

(* ----------------------------------------------------------------- *)
(** *** The cyclone events of the Odisha box *)

Section IbtracsFacts.
Import StormStress Statistics ExtractIbtracs.

Variable parse_float : string -> option R.
Variable to_datetime : string -> outcome Z.
Variable sort_values : list (event Z) -> list (event Z).























End IbtracsFacts.


